(** * make.c of bcache-tools: formatting a device with a bcache superblock

    A shallow embedding of [src/make.c].  Every C function of the file is a
    Rocq definition of the same name.  Pure helpers ([hatoi], [strim], ...)
    are plain functions; code that performs system calls, prints, or leaves
    the process through [exit] is a program tree [prog] whose nodes are the
    calls made, in program order.  A tree is run against an environment that
    answers each call from the history of the run so far. *)

From Stdlib Require Import ZArith List String Ascii Bool Lia.
From Stdlib Require Import Strings.Byte.
Import ListNotations.
Local Open Scope string_scope.
Local Open Scope Z_scope.

(** ** C integers *)

Definition u16 (z : Z) : Z := z mod 2 ^ 16.
Definition u32 (z : Z) : Z := z mod 2 ^ 32.
Definition u64 (z : Z) : Z := z mod 2 ^ 64.

Definition UINT_MAX : Z := 2 ^ 32 - 1.
Definition USHRT_MAX : Z := 2 ^ 16 - 1.
Definition ULLONG_MAX : Z := 2 ^ 64 - 1.
Definition LLONG_MAX : Z := 2 ^ 63 - 1.
Definition LLONG_MIN : Z := - 2 ^ 63.

(** [~x] on a [uint64_t]. *)
Definition not64 (x : Z) : Z := ULLONG_MAX - u64 x.

Definition EXIT_FAILURE : Z := 1.
Definition ENOMEM : Z := 12.
Definition EINVAL : Z := 22.

(** The character constant ['c'] as an [int]. *)
Definition chr (a : ascii) : Z := Z.of_nat (nat_of_ascii a).

(** ** The structures of make.c *)

Definition uuid_t : Type := list byte.

(** [struct sb_context] (make.c, lines 40-50). *)
Record sb_context : Type := mk_sb_context {
  sbc_block_size : Z;
  sbc_bucket_size : Z;
  sbc_writeback : bool;
  sbc_discard : bool;
  sbc_wipe_bcache : bool;
  sbc_cache_replacement_policy : Z;
  sbc_data_offset : Z;
  sbc_set_uuid : uuid_t;
  sbc_label : string
}.

Definition set_sbc_data_offset (sbc : sb_context) (v : Z) : sb_context :=
  mk_sb_context (sbc_block_size sbc) (sbc_bucket_size sbc) (sbc_writeback sbc)
    (sbc_discard sbc) (sbc_wipe_bcache sbc) (sbc_cache_replacement_policy sbc)
    v (sbc_set_uuid sbc) (sbc_label sbc).

(** [struct cache_sb] is declared in bcache.h, which is not part of src/.
    The record has the members that make.c assigns or reads by name
    ([offset], [version], [magic], [uuid], [set_uuid], [label], [nbuckets],
    [block_size], [nr_in_set], [nr_this_dev], [data_offset], [first_bucket],
    [bucket_size]) and the [flags] word on which the accessor macros of the
    header work.  [sb_rest] stands for whatever else the header keeps in the
    structure (feature sets and the like); make.c never names it. *)
Record cache_sb : Type := mk_cache_sb {
  sb_offset : Z;
  sb_version : Z;
  sb_magic : list byte;
  sb_uuid : uuid_t;
  sb_set_uuid : uuid_t;
  sb_label : list ascii;
  sb_flags : Z;
  sb_nbuckets : Z;
  sb_block_size : Z;
  sb_nr_in_set : Z;
  sb_nr_this_dev : Z;
  sb_data_offset : Z;
  sb_first_bucket : Z;
  sb_bucket_size : Z;
  sb_rest : list Z
}.

Definition set_sb_offset (sb : cache_sb) (v : Z) : cache_sb :=
  mk_cache_sb v (sb_version sb) (sb_magic sb) (sb_uuid sb) (sb_set_uuid sb)
    (sb_label sb) (sb_flags sb) (sb_nbuckets sb) (sb_block_size sb)
    (sb_nr_in_set sb) (sb_nr_this_dev sb) (sb_data_offset sb)
    (sb_first_bucket sb) (sb_bucket_size sb) (sb_rest sb).

Definition set_sb_version (sb : cache_sb) (v : Z) : cache_sb :=
  mk_cache_sb (sb_offset sb) v (sb_magic sb) (sb_uuid sb) (sb_set_uuid sb)
    (sb_label sb) (sb_flags sb) (sb_nbuckets sb) (sb_block_size sb)
    (sb_nr_in_set sb) (sb_nr_this_dev sb) (sb_data_offset sb)
    (sb_first_bucket sb) (sb_bucket_size sb) (sb_rest sb).

Definition set_sb_magic (sb : cache_sb) (v : list byte) : cache_sb :=
  mk_cache_sb (sb_offset sb) (sb_version sb) v (sb_uuid sb) (sb_set_uuid sb)
    (sb_label sb) (sb_flags sb) (sb_nbuckets sb) (sb_block_size sb)
    (sb_nr_in_set sb) (sb_nr_this_dev sb) (sb_data_offset sb)
    (sb_first_bucket sb) (sb_bucket_size sb) (sb_rest sb).

Definition set_sb_uuid (sb : cache_sb) (v : uuid_t) : cache_sb :=
  mk_cache_sb (sb_offset sb) (sb_version sb) (sb_magic sb) v (sb_set_uuid sb)
    (sb_label sb) (sb_flags sb) (sb_nbuckets sb) (sb_block_size sb)
    (sb_nr_in_set sb) (sb_nr_this_dev sb) (sb_data_offset sb)
    (sb_first_bucket sb) (sb_bucket_size sb) (sb_rest sb).

Definition set_sb_set_uuid (sb : cache_sb) (v : uuid_t) : cache_sb :=
  mk_cache_sb (sb_offset sb) (sb_version sb) (sb_magic sb) (sb_uuid sb) v
    (sb_label sb) (sb_flags sb) (sb_nbuckets sb) (sb_block_size sb)
    (sb_nr_in_set sb) (sb_nr_this_dev sb) (sb_data_offset sb)
    (sb_first_bucket sb) (sb_bucket_size sb) (sb_rest sb).

Definition set_sb_label (sb : cache_sb) (v : list ascii) : cache_sb :=
  mk_cache_sb (sb_offset sb) (sb_version sb) (sb_magic sb) (sb_uuid sb)
    (sb_set_uuid sb) v (sb_flags sb) (sb_nbuckets sb) (sb_block_size sb)
    (sb_nr_in_set sb) (sb_nr_this_dev sb) (sb_data_offset sb)
    (sb_first_bucket sb) (sb_bucket_size sb) (sb_rest sb).

Definition set_sb_flags (sb : cache_sb) (v : Z) : cache_sb :=
  mk_cache_sb (sb_offset sb) (sb_version sb) (sb_magic sb) (sb_uuid sb)
    (sb_set_uuid sb) (sb_label sb) v (sb_nbuckets sb) (sb_block_size sb)
    (sb_nr_in_set sb) (sb_nr_this_dev sb) (sb_data_offset sb)
    (sb_first_bucket sb) (sb_bucket_size sb) (sb_rest sb).

Definition set_sb_nbuckets (sb : cache_sb) (v : Z) : cache_sb :=
  mk_cache_sb (sb_offset sb) (sb_version sb) (sb_magic sb) (sb_uuid sb)
    (sb_set_uuid sb) (sb_label sb) (sb_flags sb) v (sb_block_size sb)
    (sb_nr_in_set sb) (sb_nr_this_dev sb) (sb_data_offset sb)
    (sb_first_bucket sb) (sb_bucket_size sb) (sb_rest sb).

Definition set_sb_block_size (sb : cache_sb) (v : Z) : cache_sb :=
  mk_cache_sb (sb_offset sb) (sb_version sb) (sb_magic sb) (sb_uuid sb)
    (sb_set_uuid sb) (sb_label sb) (sb_flags sb) (sb_nbuckets sb) v
    (sb_nr_in_set sb) (sb_nr_this_dev sb) (sb_data_offset sb)
    (sb_first_bucket sb) (sb_bucket_size sb) (sb_rest sb).

Definition set_sb_nr_in_set (sb : cache_sb) (v : Z) : cache_sb :=
  mk_cache_sb (sb_offset sb) (sb_version sb) (sb_magic sb) (sb_uuid sb)
    (sb_set_uuid sb) (sb_label sb) (sb_flags sb) (sb_nbuckets sb)
    (sb_block_size sb) v (sb_nr_this_dev sb) (sb_data_offset sb)
    (sb_first_bucket sb) (sb_bucket_size sb) (sb_rest sb).

Definition set_sb_data_offset (sb : cache_sb) (v : Z) : cache_sb :=
  mk_cache_sb (sb_offset sb) (sb_version sb) (sb_magic sb) (sb_uuid sb)
    (sb_set_uuid sb) (sb_label sb) (sb_flags sb) (sb_nbuckets sb)
    (sb_block_size sb) (sb_nr_in_set sb) (sb_nr_this_dev sb) v
    (sb_first_bucket sb) (sb_bucket_size sb) (sb_rest sb).

Definition set_sb_first_bucket (sb : cache_sb) (v : Z) : cache_sb :=
  mk_cache_sb (sb_offset sb) (sb_version sb) (sb_magic sb) (sb_uuid sb)
    (sb_set_uuid sb) (sb_label sb) (sb_flags sb) (sb_nbuckets sb)
    (sb_block_size sb) (sb_nr_in_set sb) (sb_nr_this_dev sb)
    (sb_data_offset sb) v (sb_bucket_size sb) (sb_rest sb).

(** [#define BDEVNAME_SIZE 32] and [struct bch_register_device]
    (make.c, lines 495-499). *)
Definition BDEVNAME_SIZE : Z := 32.

Record bch_register_device : Type := mk_bch_register_device {
  cmd_dev_name : string;
  cmd_sb : cache_sb
}.

Definition CUSTOM_BCACHE_CTRL_DEV : string := "/dev/bcache_ctrl".

(** ** Calls into the environment

    Every system call and library call make.c performs is a [call]; what it
    gives back is a [reply].  Arguments that are pointers to results
    ([&statbuf], [&ret], [&type], ...) do not appear in the call: the reply
    carries what the callee stored through them. *)

Inductive oflag : Type := O_RDONLY | O_RDWR | O_EXCL.

(** What make.c reads from a [struct stat]. *)
Record stat_t : Type := mk_stat {
  st_isblk : bool;      (* S_ISBLK(st_mode) *)
  st_size : Z;
  st_blksize : Z
}.

(** Functions of the repository that live outside make.c (lib.c, zoned.c)
    may themselves leave the process. *)
Inductive callee (A : Type) : Type :=
| Returns (a : A)
| Exits (status : Z).
Arguments Returns {A} a.
Arguments Exits {A} status.

Inductive call : Type :=
| c_open (path : string) (flags : list oflag)
| c_close (fd : Z)
| c_fstat (fd : Z)
| c_stat (path : string)
| c_ioctl_BLKGETSIZE (fd : Z)
| c_ioctl_BLKGETSIZE64 (fd : Z)
| c_ioctl_BLKSSZGET (fd : Z)
| c_ioctl_BLKDISCARD (fd : Z) (range0 range1 : Z)
| c_ioctl_BCH_IOCTL_REGISTER_DEVICE (fd : Z) (cmd : bch_register_device)
| c_pread (fd : Z) (count offset : Z)
| c_pwrite (fd : Z) (buf : list byte) (count offset : Z)
| c_fsync (fd : Z)
| c_sleep (seconds : Z)
| c_strdup (s : string)
| c_uuid_generate
| c_uuid_parse (s : string)
| c_blkid_new_probe
| c_blkid_probe_set_device (fd : Z)
| c_blkid_probe_enable_partitions
| c_blkid_do_probe
| c_detail_dev (dev : string)
| c_stop_backdev (dev : string)
| c_unregister_cset (cset : string)
| c_is_zoned_device (dev : string)
| c_check_data_offset_for_zoned_device (dev : string) (data_offset : Z)
(** reading an automatic variable that was never assigned *)
| c_indeterminate (var : string).

Definition reply (c : call) : Type :=
  match c with
  | c_open _ _ => Z
  | c_close _ => Z
  | c_fstat _ => (Z * stat_t)%type
  | c_stat _ => (Z * stat_t)%type
  | c_ioctl_BLKGETSIZE _ => (Z * Z)%type
  | c_ioctl_BLKGETSIZE64 _ => (Z * Z)%type
  | c_ioctl_BLKSSZGET _ => (Z * Z)%type
  | c_ioctl_BLKDISCARD _ _ _ => Z
  | c_ioctl_BCH_IOCTL_REGISTER_DEVICE _ _ => Z
  | c_pread _ _ _ => (Z * list byte)%type
  | c_pwrite _ _ _ _ => Z
  | c_fsync _ => Z
  | c_sleep _ => Z
  | c_strdup _ => bool                       (* result is not NULL *)
  | c_uuid_generate => uuid_t
  | c_uuid_parse _ => (Z * uuid_t)%type
  | c_blkid_new_probe => bool                (* result is not NULL *)
  | c_blkid_probe_set_device _ => Z
  | c_blkid_probe_enable_partitions => Z
  | c_blkid_do_probe => Z
  | c_detail_dev _ => callee (Z * Z * string)  (* ret, type, cd.base.cset *)
  | c_stop_backdev _ => callee Z
  | c_unregister_cset _ => callee Z
  | c_is_zoned_device _ => callee bool
  | c_check_data_offset_for_zoned_device _ _ => callee Z  (* *data_offset *)
  | c_indeterminate _ => bool
  end.

(** Output of the process. *)
Inductive stream : Type := stdout | stderr.

Inductive arg : Type :=
| a_str (s : string)
| a_int (z : Z)
| a_uuid (u : uuid_t)          (* the text uuid_unparse gives *)
| a_strerror (errnum : Z).     (* strerror(errnum) *)

Inductive output : Type :=
| o_fprintf (f : stream) (fmt : string) (args : list arg)
| o_perror (s : string) (errnum : Z)
| o_putchar (c : ascii)
| o_fflush (f : stream).

(** One event of a run: a call with its reply and the value of [errno]
    after it, or a piece of output. *)
Inductive event : Type :=
| EvCall (c : call) (r : reply c) (errno_after : Z)
| EvOut (o : output).

(** ** Programs *)

Inductive prog (A : Type) : Type :=
| Ret (a : A)
| Sys (c : call) (k : reply c -> prog A)
| Out (o : output) (k : prog A)
| Errno (k : Z -> prog A)
| Exit (status : Z)
(** undefined behaviour other than an indeterminate read: division by
    zero, a store past the end of an array *)
| Fault.
Arguments Ret {A} a.
Arguments Sys {A} c k.
Arguments Out {A} o k.
Arguments Errno {A} k.
Arguments Exit {A} status.
Arguments Fault {A}.

Fixpoint bind {A B : Type} (p : prog A) (f : A -> prog B) : prog B :=
  match p with
  | Ret a => f a
  | Sys c k => Sys c (fun r => bind (k r) f)
  | Out o k => Out o (bind k f)
  | Errno k => Errno (fun e => bind (k e) f)
  | Exit s => Exit s
  | Fault => Fault
  end.

Declare Scope prog_scope.
Delimit Scope prog_scope with prog.
Bind Scope prog_scope with prog.
Notation "x <- p ;; q" := (bind p (fun x => q))
  (at level 61, p at next level, right associativity) : prog_scope.
Notation "' pat <- p ;; q" := (bind p (fun x => match x with pat => q end))
  (at level 61, pat pattern, p at next level, right associativity) : prog_scope.
Notation "p ;; q" := (bind p (fun _ => q))
  (at level 61, right associativity) : prog_scope.
Local Open Scope prog_scope.

Definition sys (c : call) : prog (reply c) := Sys c (fun r => Ret r).
Definition out (o : output) : prog unit := Out o (Ret tt).
Definition errno : prog Z := Errno (fun e => Ret e).
Definition exit {A : Type} (status : Z) : prog A := Exit status.

(** A call to a function of the repository that may not come back. *)
Definition ext {A : Type} (r : callee A) : prog A :=
  match r with
  | Returns a => Ret a
  | Exits s => Exit s
  end.

Definition printf (fmt : string) (args : list arg) : prog unit :=
  out (o_fprintf stdout fmt args).
Definition fprintf (f : stream) (fmt : string) (args : list arg) : prog unit :=
  out (o_fprintf f fmt args).
Definition perror (s : string) : prog unit :=
  e <- errno ;; out (o_perror s e).
Definition putchar (c : ascii) : prog unit := out (o_putchar c).
Definition fflush (f : stream) : prog unit := out (o_fflush f).

(** Unsigned division; the divisor of a C division must not be zero. *)
Definition udiv (a b : Z) : prog Z :=
  if b =? 0 then Fault else Ret (a / b).

(** ** Running a program

    The environment answers a call from the events of the run so far, and
    says what [errno] holds afterwards. *)
Definition env : Type := list event -> forall c : call, reply c * Z.

Inductive outcome (A : Type) : Type :=
| Done (a : A)
| Exited (status : Z)
| Faulted.
Arguments Done {A} a.
Arguments Exited {A} status.
Arguments Faulted {A}.

(** The result of a run: how it ended, the final [errno], and the events it
    produced, oldest first. *)
Definition result (A : Type) : Type := (outcome A * Z * list event)%type.

Definition emit {A : Type} (ev : event) (r : result A) : result A :=
  let '(o, e, t) := r in (o, e, ev :: t).

Definition prepend {A : Type} (t : list event) (r : result A) : result A :=
  let '(o, e, t') := r in (o, e, (t ++ t')%list).

(** [run p E h e]: run [p] in environment [E], after the events [h], with
    [errno] holding [e]. *)
Fixpoint run {A : Type} (p : prog A) (E : env) (h : list event) (e : Z)
  : result A :=
  match p with
  | Ret a => (Done a, e, [])
  | Sys c k =>
      let '(r, e') := E h c in
      emit (EvCall c r e') (run (k r) E (h ++ [EvCall c r e']) e')
  | Out o k => emit (EvOut o) (run k E (h ++ [EvOut o]) e)
  | Errno k => run (k e) E h e
  | Exit s => (Exited s, e, [])
  | Fault => (Faulted, e, [])
  end.

(** ** The headers make.c includes

    bcache.h, lib.h, bitwise.h and zoned.h are not part of src/.  The
    development is parametric in what make.c takes from them: the constants,
    the accessor macros on the [flags] word and on [version], the helper
    [set_bucket_size], and the conversion to the on-disk record with its
    checksum.  [cache_sb_disk] values are memory images (lists of bytes), the
    way make.c hands them to [pread] and [pwrite]. *)
Class bcache_h : Type := {
  SB_SECTOR : Z;
  SB_START : Z;
  SB_LABEL_SIZE : Z;
  BDEV_DATA_START_DEFAULT : Z;
  BCACHE_SB_VERSION_CDEV : Z;
  BCACHE_SB_VERSION_BDEV : Z;
  BCACHE_SB_VERSION_CDEV_WITH_UUID : Z;
  BCACHE_SB_VERSION_BDEV_WITH_OFFSET : Z;
  CACHE_MODE_WRITETHROUGH : Z;
  CACHE_MODE_WRITEBACK : Z;
  bcache_magic : list byte;
  (** [sizeof(struct cache_sb_disk)] *)
  sizeof_cache_sb_disk : Z;
  (** the [magic] member of a [struct cache_sb_disk] image *)
  sb_disk_magic : list byte -> list byte;
  (** [SB_IS_BDEV], a test on the [version] member *)
  version_is_bdev : Z -> bool;
  (** [BDEV_CACHE_MODE] and the three [SET_] macros, on the [flags] word *)
  flags_BDEV_CACHE_MODE : Z -> Z;
  flags_SET_BDEV_CACHE_MODE : Z -> Z -> Z;
  flags_SET_CACHE_DISCARD : Z -> Z -> Z;
  flags_SET_CACHE_REPLACEMENT : Z -> Z -> Z;
  (** conversion to the type of the [block_size] member *)
  to_block_size_t : Z -> Z;
  set_bucket_size : cache_sb -> Z -> cache_sb;
  (** [to_cache_sb_disk(&sb_disk, &sb)] on a given destination image *)
  to_cache_sb_disk : list byte -> cache_sb -> list byte;
  csum_set : list byte -> Z;
  cpu_to_le64 : Z -> Z;
  (** the assignment [sb_disk.csum = v] on an image *)
  sb_disk_set_csum : list byte -> Z -> list byte
}.

Section Make.

Context {hdr : bcache_h}.

Definition SB_IS_BDEV (sb : cache_sb) : bool := version_is_bdev (sb_version sb).

Definition BDEV_CACHE_MODE (sb : cache_sb) : Z :=
  flags_BDEV_CACHE_MODE (sb_flags sb).

Definition SET_BDEV_CACHE_MODE (sb : cache_sb) (v : Z) : cache_sb :=
  set_sb_flags sb (flags_SET_BDEV_CACHE_MODE (sb_flags sb) v).

Definition SET_CACHE_DISCARD (sb : cache_sb) (v : Z) : cache_sb :=
  set_sb_flags sb (flags_SET_CACHE_DISCARD (sb_flags sb) v).

Definition SET_CACHE_REPLACEMENT (sb : cache_sb) (v : Z) : cache_sb :=
  set_sb_flags sb (flags_SET_CACHE_REPLACEMENT (sb_flags sb) v).

(** [memset(sb, 0, sizeof(struct cache_sb))]. *)
Definition zero_cache_sb : cache_sb :=
  mk_cache_sb 0 0 (repeat x00 16) (repeat x00 16) (repeat x00 16)
    (repeat zero (Z.to_nat SB_LABEL_SIZE)) 0 0 0 0 0 0 0 0 [].


(** *** getblocks (make.c, lines 59-75) *)
Definition getblocks (fd : Z) : prog Z :=
  '(r, statbuf) <- sys (c_fstat fd) ;;
  if negb (r =? 0) then
    perror "stat error\n" ;; exit EXIT_FAILURE
  else
    let ret := u64 (Z.quot (st_size statbuf) 512) in
    if st_isblk statbuf then
      '(r, ret) <- sys (c_ioctl_BLKGETSIZE fd) ;;
      if negb (r =? 0) then
        perror "ioctl error" ;; exit EXIT_FAILURE
      else Ret (u64 ret)
    else Ret ret.

(** *** hatoi (make.c, lines 77-97)

    [isspace] and [strtoll] are the C library's, for base 10 and the C
    locale. *)
Definition isspace (c : ascii) : bool :=
  let n := nat_of_ascii c in
  (Nat.eqb n 32 || (Nat.leb 9 n && Nat.leb n 13))%bool.

Definition digit_of (c : ascii) : option Z :=
  let n := nat_of_ascii c in
  if (Nat.leb 48 n && Nat.leb n 57)%bool then Some (Z.of_nat n - 48) else None.

(** *** skip_spaces (make.c, lines 125-130) *)
Fixpoint skip_spaces (str : string) : string :=
  match str with
  | String c str' => if isspace c then skip_spaces str' else str
  | EmptyString => str
  end.

Fixpoint strtoll_digits (s : string) (acc : Z) (any : bool)
  : Z * bool * string :=
  match s with
  | String c s' =>
      match digit_of c with
      | Some d => strtoll_digits s' (10 * acc + d) true
      | None => (acc, any, s)
      end
  | EmptyString => (acc, any, s)
  end.

(** [strtoll(s, &e, 10)]: the value, and the text [e] points at. *)
Definition strtoll (s : string) : Z * string :=
  let s1 := skip_spaces s in
  let '(neg, s2) :=
    match s1 with
    | String "-" s' => (true, s')
    | String "+" s' => (false, s')
    | _ => (false, s1)
    end in
  let '(v, any, e) := strtoll_digits s2 0 false in
  if any then (Z.max LLONG_MIN (Z.min LLONG_MAX (if neg then - v else v)), e)
  else (0, s).

(** The [switch] falls through from each case into the next. *)
Definition hatoi (s : string) : Z :=
  let '(i, e) := strtoll s in
  let c := match e with String c _ => c | EmptyString => zero end in
  let i :=
    if (Ascii.eqb c "t" || Ascii.eqb c "T")%bool then i * 1024 * 1024 * 1024 * 1024
    else if (Ascii.eqb c "g" || Ascii.eqb c "G")%bool then i * 1024 * 1024 * 1024
    else if (Ascii.eqb c "m" || Ascii.eqb c "M")%bool then i * 1024 * 1024
    else if (Ascii.eqb c "k" || Ascii.eqb c "K")%bool then i * 1024
    else i in
  u64 i.

(** *** hatoi_validate (make.c, lines 99-123) *)
Definition hatoi_validate (s msg : string) (max : Z) : prog Z :=
  let v := hatoi s in
  if negb (Z.land v (u64 (v - 1)) =? 0) then
    fprintf stderr "%s must be a power of two\n" [a_str msg] ;;
    exit EXIT_FAILURE
  else
    let v := v / 512 in
    if v >? max then
      fprintf stderr "%s too large\n" [a_str msg] ;; exit EXIT_FAILURE
    else if v =? 0 then
      fprintf stderr "%s too small\n" [a_str msg] ;; exit EXIT_FAILURE
    else Ret (u32 v).

(** *** strim (make.c, lines 132-148) *)
Fixpoint drop_trailing_spaces (s : string) : string :=
  match s with
  | EmptyString => EmptyString
  | String c s' =>
      match drop_trailing_spaces s' with
      | EmptyString => if isspace c then EmptyString else String c EmptyString
      | r => String c r
      end
  end.

Definition strim (s : string) : string :=
  let s := skip_spaces s in
  if (String.length s =? 0)%nat then s else drop_trailing_spaces s.

(** *** read_string_list (make.c, lines 150-170) *)
Fixpoint index_of (s : string) (list : list string) (i : Z) : option Z :=
  match list with
  | [] => None
  | x :: rest => if String.eqb x s then Some i else index_of s rest (i + 1)
  end.

Definition read_string_list (buf : string) (list : list string) : prog Z :=
  d <- sys (c_strdup buf) ;;
  if negb d then Ret (- ENOMEM)
  else
    let s := strim buf in
    match index_of s list 0 with
    | None => Ret (- EINVAL)
    | Some i => Ret i
    end.

(** *** usage (make.c, lines 172-191) *)
Definition usage_text : string :=
  "Usage: make-bcache [options] device\n" ++
  "	-C, --cache		Format a cache device\n" ++
  "	-B, --bdev		Format a backing device\n" ++
  "	-b, --bucket		bucket size\n" ++
  "	-w, --block		block size (hard sector size of SSD, often 2k)\n" ++
  "	-o, --data-offset	data offset in sectors\n" ++
  "	    --cset-uuid		UUID for the cache set\n" ++
  "	    --writeback		enable writeback\n" ++
  "	    --discard		enable discards\n" ++
  "	    --force		reformat a bcache device even if it is running\n" ++
  "	-l, --label		set label for device\n" ++
  "	    --cache_replacement_policy=(lru|fifo)\n" ++
  "	    --ioctl		Communicate via IOCTL with the control device\n" ++
  "	-h, --help		display this help and exit\n".

Definition usage {A : Type} : prog A :=
  fprintf stderr usage_text [] ;; exit EXIT_FAILURE.

Definition cache_replacement_policies : list string :=
  ["lru"; "fifo"; "random"].

(** *** blkdiscard_all (make.c, lines 200-240) *)
Definition blkdiscard_all (path : string) (fd : Z) : prog Z :=
  printf "%s blkdiscard beginning..." [a_str path] ;;
  fflush stdout ;;
  let err : prog Z :=
    printf "\r                                " [] ;; Ret (-1) in
  let range0 := 0 in
  let range1 := ULLONG_MAX in
  '(r, sb) <- sys (c_fstat fd) ;;
  if r =? -1 then err
  else if negb (st_isblk sb) then err
  else
    '(r, blksize) <- sys (c_ioctl_BLKGETSIZE64 fd) ;;
    if negb (r =? 0) then err
    else
      '(r, secsize) <- sys (c_ioctl_BLKSSZGET fd) ;;
      if negb (r =? 0) then err
      else
        let blksize := u64 blksize in
        let secsize := u64 secsize in
        (* align range to the sector size *)
        let range0 := Z.land (u64 (range0 + secsize - 1))
                             (not64 (secsize - 1)) in
        let range1 := Z.land range1 (not64 (secsize - 1)) in
        (* is the range end behind the end of the device ? *)
        let end_ := u64 (range0 + range1) in
        let range1 :=
          if ((end_ <? range0) || (end_ >? blksize))%bool
          then u64 (blksize - range0) else range1 in
        r <- sys (c_ioctl_BLKDISCARD fd range0 range1) ;;
        if negb (r =? 0) then err
        else printf "done\n" [] ;; Ret 0.

(** *** write_sb_common (make.c, lines 242-355) *)

(** [arr[i] = c]; nothing is stored past the end of the array. *)
Fixpoint store (arr : list ascii) (i : nat) (c : ascii)
  : option (list ascii) :=
  match arr, i with
  | [], _ => None
  | _ :: arr', O => Some (c :: arr')
  | x :: arr', S i' =>
      match store arr' i' c with
      | Some r => Some (x :: r)
      | None => None
      end
  end.

(** The label loop of lines 350-353, from index [i] on. *)
Fixpoint write_label (src : list ascii) (i : nat) (arr : list ascii)
  : prog (list ascii) :=
  match src with
  | [] =>
      match store arr i zero with
      | Some arr' => Ret arr'
      | None => Fault
      end
  | c :: src' =>
      match store arr i c with
      | Some arr' => write_label src' (S i) arr'
      | None => Fault
      end
  end.

(** Lines 254-268: the members common to both kinds of device. *)
Definition write_sb_common_head (sbc : sb_context) (bdev : bool)
    (uuid : uuid_t) : cache_sb :=
  let block_size := sbc_block_size sbc in
  let sb := zero_cache_sb in
  let sb := set_sb_offset sb SB_SECTOR in
  let sb := set_sb_version sb
              (if bdev then BCACHE_SB_VERSION_BDEV
               else BCACHE_SB_VERSION_CDEV) in
  let sb := set_sb_magic sb (firstn 16 bcache_magic) in
  let sb := set_sb_uuid sb uuid in
  let sb := set_sb_set_uuid sb (sbc_set_uuid sbc) in
  set_sb_block_size sb (to_block_size_t block_size).

(** Lines 287-291. *)
Definition write_sb_common_data_offset (sb : cache_sb) (data_offset : Z)
  : cache_sb :=
  if negb (data_offset =? BDEV_DATA_START_DEFAULT) then
    let sb :=
      if sb_version sb <? BCACHE_SB_VERSION_BDEV_WITH_OFFSET
      then set_sb_version sb BCACHE_SB_VERSION_BDEV_WITH_OFFSET
      else sb in
    set_sb_data_offset sb data_offset
  else sb.

(** Lines 271-305: a backing device. *)
Definition write_sb_common_bdev (dev : string) (sbc : sb_context)
    (sb : cache_sb) : prog cache_sb :=
  let writeback := sbc_writeback sbc in
  let label := sbc_label sbc in
  let data_offset := sbc_data_offset sbc in
  let uuid_str := a_uuid (sb_uuid sb) in
  let set_uuid_str := a_uuid (sb_set_uuid sb) in
  let sb := SET_BDEV_CACHE_MODE sb
              (if writeback then CACHE_MODE_WRITEBACK
               else CACHE_MODE_WRITETHROUGH) in
  (* Currently bcache does not support writeback mode for zoned device as
     backing device. If the cache mode is explicitly set to writeback,
     automatically convert to writethough mode. *)
  z <- sys (c_is_zoned_device dev) ;;
  zoned <- ext z ;;
  sb <-
    (if (zoned && (BDEV_CACHE_MODE sb =? CACHE_MODE_WRITEBACK))%bool then
       printf "Zoned device %s detected: convert to writethrough mode.\n\n"
         [a_str dev] ;;
       Ret (SET_BDEV_CACHE_MODE sb CACHE_MODE_WRITETHROUGH)
     else Ret sb) ;;
  let sb := write_sb_common_data_offset sb data_offset in
  printf "Name			%s\n" [a_str dev] ;;
  printf "Label			%s\n" [a_str label] ;;
  printf "Type			data\n" [] ;;
  printf ("UUID:			%s\n" ++
          "Set UUID:		%s\n" ++
          "version:		%u\n" ++
          "block_size_in_sectors:	%u\n" ++
          "data_offset_in_sectors:	%ju\n")
    [uuid_str; set_uuid_str; a_int (u32 (sb_version sb));
     a_int (sb_block_size sb); a_int data_offset] ;;
  putchar "010" ;;
  Ret sb.

(** Lines 307-344: a cache device. *)
Definition write_sb_common_cdev (dev : string) (sbc : sb_context)
    (nbuckets : Z) (sb : cache_sb) : prog cache_sb :=
  let bucket_size := sbc_bucket_size sbc in
  let discard := sbc_discard sbc in
  let label := sbc_label sbc in
  let cache_replacement_policy := sbc_cache_replacement_policy sbc in
  let uuid_str := a_uuid (sb_uuid sb) in
  let set_uuid_str := a_uuid (sb_set_uuid sb) in
  let sb := set_bucket_size sb bucket_size in
  let sb := set_sb_nbuckets sb nbuckets in
  let sb := set_sb_nr_in_set sb 1 in
  (* 23 is (SB_SECTOR + SB_SIZE) - 1 sectors *)
  q <- udiv 23 (sb_bucket_size sb) ;;
  let sb := set_sb_first_bucket sb (q + 1) in
  (if sb_nbuckets sb <? Z.shiftl 1 7 then
     fprintf stderr "Not enough buckets: %llu, need %u\n"
       [a_int (sb_nbuckets sb); a_int (Z.shiftl 1 7)] ;;
     exit EXIT_FAILURE
   else Ret tt) ;;
  let sb := SET_CACHE_DISCARD sb (if discard then 1 else 0) in
  let sb := SET_CACHE_REPLACEMENT sb cache_replacement_policy in
  printf "Name			%s\n" [a_str dev] ;;
  printf "Label			%s\n" [a_str label] ;;
  printf "Type			cache\n" [] ;;
  printf ("UUID:			%s\n" ++
          "Set UUID:		%s\n" ++
          "version:		%u\n" ++
          "nbuckets:		%llu\n" ++
          "block_size_in_sectors:	%u\n" ++
          "bucket_size_in_sectors:	%u\n" ++
          "nr_in_set:		%u\n" ++
          "nr_this_dev:		%u\n" ++
          "first_bucket:		%u\n")
    [uuid_str; set_uuid_str; a_int (u32 (sb_version sb));
     a_int (sb_nbuckets sb); a_int (sb_block_size sb);
     a_int (sb_bucket_size sb); a_int (sb_nr_in_set sb);
     a_int (sb_nr_this_dev sb); a_int (sb_first_bucket sb)] ;;
  putchar "010" ;;
  Ret sb.

Definition write_sb_common (dev : string) (sbc : sb_context) (bdev : bool)
    (nbuckets : Z) : prog cache_sb :=
  uuid <- sys c_uuid_generate ;;
  let sb := write_sb_common_head sbc bdev uuid in
  sb <-
    (if SB_IS_BDEV sb then write_sb_common_bdev dev sbc sb
     else write_sb_common_cdev dev sbc nbuckets sb) ;;
  (* write label *)
  lbl <- write_label (list_ascii_of_string (sbc_label sbc)) 0 (sb_label sb) ;;
  Ret (set_sb_label sb lbl).

(** *** write_sb (make.c, lines 357-491) *)

Fixpoint bytes_eqb (a b : list byte) : bool :=
  match a, b with
  | [], [] => true
  | x :: a', y :: b' => (Byte.eqb x y && bytes_eqb a' b')%bool
  | _, _ => false
  end.

(** [!memcmp(a, b, n)] *)
Definition memcmp_eq (a b : list byte) (n : nat) : bool :=
  bytes_eqb (firstn n a) (firstn n b).

(** The loop of lines 396-406 with [n] iterations left.  [opened] is [None]
    as long as the variable has not been assigned: it is declared without
    an initialiser (line 394). *)
Fixpoint write_sb_reopen (n : nat) (dev : string) (fd : Z)
    (opened : option bool) : prog (Z * option bool) :=
  match n with
  | O => Ret (fd, opened)
  | S n' =>
      sys (c_sleep 3) ;;
      fd <- sys (c_open dev [O_RDWR; O_EXCL]) ;;
      if fd =? -1 then
        fprintf stdout "Waiting for bcache device to be closed.\n" [] ;;
        write_sb_reopen n' dev fd opened
      else
        Ret (fd, Some true)
  end.

(** Lines 368-418: the exclusive open, and what [--force] does when the
    device is busy. *)
Definition write_sb_open (dev : string) (force : bool) : prog Z :=
  fd <- sys (c_open dev [O_RDWR; O_EXCL]) ;;
  if fd =? -1 then
    e <- errno ;;
    if ((e =? 16) && force)%bool then
      r <- sys (c_detail_dev dev) ;;
      '(ret, type, cset) <- ext r ;;
      if negb (ret =? 0) then exit EXIT_FAILURE
      else
        ret <-
          (if type =? BCACHE_SB_VERSION_BDEV then
             r <- sys (c_stop_backdev dev) ;; ext r
           else if ((type =? BCACHE_SB_VERSION_CDEV)
                    || (type =? BCACHE_SB_VERSION_CDEV_WITH_UUID))%bool then
             r <- sys (c_unregister_cset cset) ;; ext r
           else
             e <- errno ;;
             fprintf stderr "%s,And this is not a bcache device.\n"
               [a_strerror e] ;;
             exit EXIT_FAILURE) ;;
        if negb (ret =? 0) then exit EXIT_FAILURE
        else
          '(fd, opened) <- write_sb_reopen 3 dev fd None ;;
          opened <-
            match opened with
            | Some b => Ret b
            | None => sys (c_indeterminate "opened")
            end ;;
          if negb opened then
            fprintf stderr "Bcache devices has not completely closed," [] ;;
            fprintf stderr "you can try it sooner.\n" [] ;;
            exit EXIT_FAILURE
          else Ret fd
    else
      fprintf stderr "Can't open dev %s: %s\n" [a_str dev; a_strerror e] ;;
      exit EXIT_FAILURE
  else Ret fd.

(** Lines 420-441: an existing bcache superblock. *)
Definition write_sb_wipe (dev : string) (fd : Z) (wipe_bcache force : bool)
  : prog unit :=
  let zeroes := repeat x00 (Z.to_nat SB_START) in
  let wipe_bcache := if force then true else wipe_bcache in
  '(n, sb_disk) <- sys (c_pread fd sizeof_cache_sb_disk SB_START) ;;
  if negb (n =? sizeof_cache_sb_disk) then exit EXIT_FAILURE
  else if memcmp_eq (sb_disk_magic sb_disk) bcache_magic 16 then
    if wipe_bcache then
      n <- sys (c_pwrite fd zeroes sizeof_cache_sb_disk SB_START) ;;
      if negb (n =? sizeof_cache_sb_disk) then
        fprintf stderr "Failed to erase super block for %s\n" [a_str dev] ;;
        exit EXIT_FAILURE
      else Ret tt
    else
      fprintf stderr "Already a bcache device on %s," [a_str dev] ;;
      fprintf stderr "overwrite with --wipe-bcache or --force\n" [] ;;
      exit EXIT_FAILURE
  else Ret tt.

(** Lines 442-456: any other signature blkid finds. *)
Definition write_sb_probe (dev : string) (fd : Z) : prog unit :=
  pr <- sys c_blkid_new_probe ;;
  if negb pr then exit EXIT_FAILURE
  else
    r <- sys (c_blkid_probe_set_device fd) ;;
    if negb (r =? 0) then exit EXIT_FAILURE
    else
      (* enable ptable probing; superblock probing is enabled by default *)
      r <- sys c_blkid_probe_enable_partitions ;;
      if negb (r =? 0) then exit EXIT_FAILURE
      else
        r <- sys c_blkid_do_probe ;;
        if r =? 0 then
          (* XXX wipefs doesn't know how to remove partition tables *)
          fprintf stderr "Device %s already has a non-bcache superblock,"
            [a_str dev] ;;
          fprintf stderr "remove it using wipefs and wipefs -a\n" [] ;;
          exit EXIT_FAILURE
        else Ret tt.

(** Lines 464-491: discard, then put the record on the device. *)
Definition write_sb_put (dev : string) (fd : Z) (sbc : sb_context)
    (sb : cache_sb) : prog unit :=
  let zeroes := repeat x00 (Z.to_nat SB_START) in
  let discard := sbc_discard sbc in
  let sb_disk := repeat x00 (Z.to_nat sizeof_cache_sb_disk) in
  (if negb (SB_IS_BDEV sb) then
     (* Attempting to discard cache device *)
     if discard then blkdiscard_all dev fd ;; Ret tt else Ret tt
   else Ret tt) ;;
  (* Swap native bytes order to little endian for writing
     the super block out. *)
  let sb_disk := to_cache_sb_disk sb_disk sb in
  (* write csum *)
  let sb_disk := sb_disk_set_csum sb_disk (cpu_to_le64 (csum_set sb_disk)) in
  (* Zero start of disk *)
  n <- sys (c_pwrite fd zeroes SB_START 0) ;;
  if negb (n =? SB_START) then
    perror "write error\n" ;; exit EXIT_FAILURE
  else
    (* Write superblock *)
    n <- sys (c_pwrite fd sb_disk sizeof_cache_sb_disk SB_START) ;;
    if negb (n =? sizeof_cache_sb_disk) then
      perror "write error\n" ;; exit EXIT_FAILURE
    else
      sys (c_fsync fd) ;;
      sys (c_close fd) ;;
      Ret tt.

(** Lines 458-491: build the superblock and put it on the device. *)
Definition write_sb_format (dev : string) (fd : Z) (sbc : sb_context)
    (bdev : bool) : prog unit :=
  blocks <- getblocks fd ;;
  nbuckets <- udiv blocks (sbc_bucket_size sbc) ;;
  sb <- write_sb_common dev sbc bdev nbuckets ;;
  write_sb_put dev fd sbc sb.

Definition write_sb (dev : string) (sbc : sb_context) (bdev force : bool)
  : prog unit :=
  fd <- write_sb_open dev force ;;
  write_sb_wipe dev fd (sbc_wipe_bcache sbc) force ;;
  write_sb_probe dev fd ;;
  write_sb_format dev fd sbc bdev.

(** *** write_sb_ioctl (make.c, lines 508-556) *)
Definition write_sb_ioctl (dev : string) (sbc : sb_context) (bdev force : bool)
  : prog unit :=
  (* Check if core device provided is valid *)
  fd <- sys (c_open dev []) ;;
  if fd <? 0 then
    fprintf stderr "Device %s not found.\n" [a_str dev] ;; exit EXIT_FAILURE
  else
    dev_blocks <- getblocks fd ;;
    sys (c_close fd) ;;
    (* Check if the core device is a block device or a file *)
    '(r, query_core) <- sys (c_stat dev) ;;
    if negb (r =? 0) then
      fprintf stderr "Could not stat target core device %s!\n" [a_str dev] ;;
      exit EXIT_FAILURE
    else if negb (st_isblk query_core) then
      fprintf stderr "Core object %s is not supported!\n" [a_str dev] ;;
      exit EXIT_FAILURE
    else
      fd <- sys (c_open CUSTOM_BCACHE_CTRL_DEV []) ;;
      if fd <? 0 then
        e <- errno ;;
        fprintf stderr "Unable to open /dev/bcache_ctrl: %s\n" [a_strerror e] ;;
        exit EXIT_FAILURE
      else
        let dev_name := substring 0 (Z.to_nat (BDEVNAME_SIZE - 1)) dev in
        nbuckets <- udiv dev_blocks (sbc_bucket_size sbc) ;;
        sb <- write_sb_common dev sbc bdev nbuckets ;;
        let cmd := mk_bch_register_device dev_name sb in
        r <- sys (c_ioctl_BCH_IOCTL_REGISTER_DEVICE fd cmd) ;;
        if r <? 0 then
          e <- errno ;;
          fprintf stderr "Error during ioctl operation: %s\n" [a_strerror e] ;;
          sys (c_close fd) ;;
          exit EXIT_FAILURE
        else
          sys (c_close fd) ;;
          Ret tt.

(** *** get_blocksize (make.c, lines 558-598) *)
Definition get_blocksize (path : string) : prog Z :=
  '(r, statbuf) <- sys (c_stat path) ;;
  if negb (r =? 0) then
    e <- errno ;;
    fprintf stderr "Error statting %s: %s\n" [a_str path; a_strerror e] ;;
    exit EXIT_FAILURE
  else if st_isblk statbuf then
    fd <- sys (c_open path [O_RDONLY]) ;;
    if fd <? 0 then
      fprintf stderr "open(%s) failed: %m\n" [a_str path] ;;
      exit EXIT_FAILURE
    else
      '(r, logical_block_size) <- sys (c_ioctl_BLKSSZGET fd) ;;
      if negb (r =? 0) then
        fprintf stderr "ioctl(%s, BLKSSZGET) failed: %m\n" [a_str path] ;;
        exit EXIT_FAILURE
      else
        sys (c_close fd) ;;
        Ret (u32 logical_block_size / 512)
  else Ret (u32 (Z.quot (st_blksize statbuf) 512)).

(** The local variables of [make_bcache] that the option loop works on
    (make.c, lines 602-611).  The [int] flags hold 0 or 1 and are kept as
    booleans. *)
Record locals : Type := mk_locals {
  l_bdev : Z;
  l_cache_devices : list string;
  l_backing_devices : list string;
  l_label : string;
  l_block_size : Z;
  l_bucket_size : Z;
  l_writeback : bool;
  l_discard : bool;
  l_wipe_bcache : bool;
  l_force : bool;
  l_use_ioctl : bool;
  l_cache_replacement_policy : Z;
  l_data_offset : Z;
  l_set_uuid : uuid_t
}.

Definition set_l_bdev (l : locals) (v : Z) : locals :=
  mk_locals v (l_cache_devices l) (l_backing_devices l) (l_label l)
    (l_block_size l) (l_bucket_size l) (l_writeback l) (l_discard l)
    (l_wipe_bcache l) (l_force l) (l_use_ioctl l)
    (l_cache_replacement_policy l) (l_data_offset l) (l_set_uuid l).

Definition set_l_cache_devices (l : locals) (v : list string) : locals :=
  mk_locals (l_bdev l) v (l_backing_devices l) (l_label l) (l_block_size l)
    (l_bucket_size l) (l_writeback l) (l_discard l) (l_wipe_bcache l)
    (l_force l) (l_use_ioctl l) (l_cache_replacement_policy l)
    (l_data_offset l) (l_set_uuid l).

Definition set_l_backing_devices (l : locals) (v : list string) : locals :=
  mk_locals (l_bdev l) (l_cache_devices l) v (l_label l) (l_block_size l)
    (l_bucket_size l) (l_writeback l) (l_discard l) (l_wipe_bcache l)
    (l_force l) (l_use_ioctl l) (l_cache_replacement_policy l)
    (l_data_offset l) (l_set_uuid l).

Definition set_l_label (l : locals) (v : string) : locals :=
  mk_locals (l_bdev l) (l_cache_devices l) (l_backing_devices l) v
    (l_block_size l) (l_bucket_size l) (l_writeback l) (l_discard l)
    (l_wipe_bcache l) (l_force l) (l_use_ioctl l)
    (l_cache_replacement_policy l) (l_data_offset l) (l_set_uuid l).

Definition set_l_block_size (l : locals) (v : Z) : locals :=
  mk_locals (l_bdev l) (l_cache_devices l) (l_backing_devices l) (l_label l)
    v (l_bucket_size l) (l_writeback l) (l_discard l) (l_wipe_bcache l)
    (l_force l) (l_use_ioctl l) (l_cache_replacement_policy l)
    (l_data_offset l) (l_set_uuid l).

Definition set_l_bucket_size (l : locals) (v : Z) : locals :=
  mk_locals (l_bdev l) (l_cache_devices l) (l_backing_devices l) (l_label l)
    (l_block_size l) v (l_writeback l) (l_discard l) (l_wipe_bcache l)
    (l_force l) (l_use_ioctl l) (l_cache_replacement_policy l)
    (l_data_offset l) (l_set_uuid l).

Definition set_l_writeback (l : locals) (v : bool) : locals :=
  mk_locals (l_bdev l) (l_cache_devices l) (l_backing_devices l) (l_label l)
    (l_block_size l) (l_bucket_size l) v (l_discard l) (l_wipe_bcache l)
    (l_force l) (l_use_ioctl l) (l_cache_replacement_policy l)
    (l_data_offset l) (l_set_uuid l).

Definition set_l_discard (l : locals) (v : bool) : locals :=
  mk_locals (l_bdev l) (l_cache_devices l) (l_backing_devices l) (l_label l)
    (l_block_size l) (l_bucket_size l) (l_writeback l) v (l_wipe_bcache l)
    (l_force l) (l_use_ioctl l) (l_cache_replacement_policy l)
    (l_data_offset l) (l_set_uuid l).

Definition set_l_wipe_bcache (l : locals) (v : bool) : locals :=
  mk_locals (l_bdev l) (l_cache_devices l) (l_backing_devices l) (l_label l)
    (l_block_size l) (l_bucket_size l) (l_writeback l) (l_discard l) v
    (l_force l) (l_use_ioctl l) (l_cache_replacement_policy l)
    (l_data_offset l) (l_set_uuid l).

Definition set_l_force (l : locals) (v : bool) : locals :=
  mk_locals (l_bdev l) (l_cache_devices l) (l_backing_devices l) (l_label l)
    (l_block_size l) (l_bucket_size l) (l_writeback l) (l_discard l)
    (l_wipe_bcache l) v (l_use_ioctl l) (l_cache_replacement_policy l)
    (l_data_offset l) (l_set_uuid l).

Definition set_l_use_ioctl (l : locals) (v : bool) : locals :=
  mk_locals (l_bdev l) (l_cache_devices l) (l_backing_devices l) (l_label l)
    (l_block_size l) (l_bucket_size l) (l_writeback l) (l_discard l)
    (l_wipe_bcache l) (l_force l) v (l_cache_replacement_policy l)
    (l_data_offset l) (l_set_uuid l).

Definition set_l_cache_replacement_policy (l : locals) (v : Z) : locals :=
  mk_locals (l_bdev l) (l_cache_devices l) (l_backing_devices l) (l_label l)
    (l_block_size l) (l_bucket_size l) (l_writeback l) (l_discard l)
    (l_wipe_bcache l) (l_force l) (l_use_ioctl l) v (l_data_offset l)
    (l_set_uuid l).

Definition set_l_data_offset (l : locals) (v : Z) : locals :=
  mk_locals (l_bdev l) (l_cache_devices l) (l_backing_devices l) (l_label l)
    (l_block_size l) (l_bucket_size l) (l_writeback l) (l_discard l)
    (l_wipe_bcache l) (l_force l) (l_use_ioctl l)
    (l_cache_replacement_policy l) v (l_set_uuid l).

Definition set_l_set_uuid (l : locals) (v : uuid_t) : locals :=
  mk_locals (l_bdev l) (l_cache_devices l) (l_backing_devices l) (l_label l)
    (l_block_size l) (l_bucket_size l) (l_writeback l) (l_discard l)
    (l_wipe_bcache l) (l_force l) (l_use_ioctl l)
    (l_cache_replacement_policy l) (l_data_offset l) v.

(** *** make_bcache (make.c, lines 600-763)

    [getopt_long] is the C library's.  [make_bcache] takes what its
    successive calls give for the command line, up to the final [-1]:
    either a value for [c] together with [optarg], or, for a long option
    declared with a flag pointer, the store of 1 into that variable. *)
Inductive flag_var : Type :=
| f_writeback | f_wipe_bcache | f_discard | f_force | f_use_ioctl.

Inductive getopt_ret : Type :=
| opt (c : Z) (optarg : string)
| opt_flag (f : flag_var).

(** One turn of the [while] loop (lines 636-702). *)
Definition make_bcache_option (o : getopt_ret) (l : locals) : prog locals :=
  match o with
  | opt_flag f_writeback => Ret (set_l_writeback l true)
  | opt_flag f_wipe_bcache => Ret (set_l_wipe_bcache l true)
  | opt_flag f_discard => Ret (set_l_discard l true)
  | opt_flag f_force => Ret (set_l_force l true)
  | opt_flag f_use_ioctl => Ret (set_l_use_ioctl l true)
  | opt c optarg =>
      if c =? chr "C" then Ret (set_l_bdev l 0)
      else if c =? chr "B" then Ret (set_l_bdev l 1)
      else if c =? chr "b" then
        v <- hatoi_validate optarg "bucket size" UINT_MAX ;;
        Ret (set_l_bucket_size l v)
      else if c =? chr "w" then
        v <- hatoi_validate optarg "block size" USHRT_MAX ;;
        Ret (set_l_block_size l v)
      else if c =? chr "p" then
        v <- read_string_list optarg cache_replacement_policies ;;
        Ret (set_l_cache_replacement_policy l (u32 v))
      else if c =? chr "o" then
        let data_offset := u64 (fst (strtoll optarg)) in
        if data_offset <? u64 BDEV_DATA_START_DEFAULT then
          fprintf stderr "Bad data offset; minimum %d sectors\n"
            [a_int BDEV_DATA_START_DEFAULT] ;;
          exit EXIT_FAILURE
        else Ret (set_l_data_offset l data_offset)
      else if c =? chr "u" then
        '(r, set_uuid) <- sys (c_uuid_parse optarg) ;;
        if negb (r =? 0) then
          fprintf stderr "Bad uuid\n" [] ;; exit EXIT_FAILURE
        else Ret (set_l_set_uuid l set_uuid)
      else if c =? chr "l" then
        if Z.of_nat (String.length optarg) >=? SB_LABEL_SIZE then
          fprintf stderr "Label is too long\n" [] ;; exit EXIT_FAILURE
        else Ret (set_l_label l optarg)
      else if c =? chr "h" then usage
      else if c =? 1 then
        if l_bdev l =? -1 then
          fprintf stderr "Please specify -C or -B\n" [] ;; exit EXIT_FAILURE
        else if negb (l_bdev l =? 0) then
          Ret (set_l_backing_devices l (l_backing_devices l ++ [optarg]))
        else
          Ret (set_l_cache_devices l (l_cache_devices l ++ [optarg]))
      else Ret l
  end.

Fixpoint make_bcache_options (opts : list getopt_ret) (l : locals)
  : prog locals :=
  match opts with
  | [] => Ret l
  | o :: opts' => l <- make_bcache_option o l ;; make_bcache_options opts' l
  end.

(** The two loops of lines 721-727. *)
Fixpoint make_bcache_block_size (devices : list string) (block_size : Z)
  : prog Z :=
  match devices with
  | [] => Ret block_size
  | d :: devices' =>
      b <- get_blocksize d ;;
      make_bcache_block_size devices' (Z.max block_size b)
  end.

(** The loop of lines 740-745. *)
Fixpoint make_bcache_cache_devices (devices : list string) (sbc : sb_context)
    (use_ioctl force : bool) : prog unit :=
  match devices with
  | [] => Ret tt
  | d :: devices' =>
      (if use_ioctl then
         fprintf stderr "WARNING. Cache devices should use the normal way!\n" []
       else Ret tt) ;;
      write_sb d sbc false force ;;
      make_bcache_cache_devices devices' sbc use_ioctl force
  end.

(** One turn of the loop of lines 747-760; [sbc] is shared by all turns. *)
Definition make_bcache_backing_device (d : string) (sbc : sb_context)
    (use_ioctl force : bool) : prog sb_context :=
  r <- sys (c_check_data_offset_for_zoned_device d (sbc_data_offset sbc)) ;;
  data_offset <- ext r ;;
  let sbc := set_sbc_data_offset sbc data_offset in
  if use_ioctl then
    (if negb (sbc_data_offset sbc =? 0) then
       fprintf stderr
         "WARNING. data_offset must be 0 when using IOCTL registration! Enforcing it...\n"
         []
     else Ret tt) ;;
    let sbc := set_sbc_data_offset sbc 0 in
    write_sb_ioctl d sbc true force ;;
    Ret sbc
  else
    write_sb d sbc true force ;;
    Ret sbc.

Fixpoint make_bcache_backing_devices (devices : list string)
    (sbc : sb_context) (use_ioctl force : bool) : prog unit :=
  match devices with
  | [] => Ret tt
  | d :: devices' =>
      sbc <- make_bcache_backing_device d sbc use_ioctl force ;;
      make_bcache_backing_devices devices' sbc use_ioctl force
  end.

(** Lines 704-718: what is refused before any device is looked at. *)
Definition make_bcache_validate (l : locals) : prog unit :=
  let ncache_devices := Z.of_nat (List.length (l_cache_devices l)) in
  let nbacking_devices := Z.of_nat (List.length (l_backing_devices l)) in
  let block_size := l_block_size l in
  let bucket_size := l_bucket_size l in
  (if ((ncache_devices =? 0) && (nbacking_devices =? 0))%bool then
     fprintf stderr "Please supply a device\n" [] ;; usage
   else Ret tt) ;;
  (if ncache_devices >? 1 then
     fprintf stderr "Please specify only one cache device\n" [] ;; usage
   else Ret tt) ;;
  (if bucket_size <? block_size then
     fprintf stderr "Bucket size cannot be smaller than block size\n" [] ;;
     exit EXIT_FAILURE
   else Ret tt).

(** Lines 720-760: the block size, the context, and the two loops. *)
Definition make_bcache_format (l : locals) : prog unit :=
  let cache_devices := l_cache_devices l in
  let backing_devices := l_backing_devices l in
  let block_size := l_block_size l in
  let bucket_size := l_bucket_size l in
  block_size <-
    (if block_size =? 0 then
       b <- make_bcache_block_size cache_devices block_size ;;
       make_bcache_block_size backing_devices b
     else Ret block_size) ;;
  let sbc :=
    mk_sb_context block_size bucket_size (l_writeback l) (l_discard l)
      (l_wipe_bcache l) (l_cache_replacement_policy l) (l_data_offset l)
      (l_set_uuid l) (l_label l) in
  make_bcache_cache_devices cache_devices sbc (l_use_ioctl l) (l_force l) ;;
  make_bcache_backing_devices backing_devices sbc (l_use_ioctl l) (l_force l).

(** Lines 704-762, from the values the option loop leaves. *)
Definition make_bcache_devices (l : locals) : prog Z :=
  make_bcache_validate l ;;
  make_bcache_format l ;;
  Ret 0.

(** Lines 602-702: the declarations and the option loop. *)
Definition make_bcache_parse (opts : list getopt_ret) : prog locals :=
  set_uuid <- sys c_uuid_generate ;;
  let l :=
    mk_locals (-1) [] [] "" 0 1024 false false false false false 0
      BDEV_DATA_START_DEFAULT set_uuid in
  make_bcache_options opts l.

Definition make_bcache (opts : list getopt_ret) : prog Z :=
  l <- make_bcache_parse opts ;;
  make_bcache_devices l.

(** ** Observations on the events of a run *)

Definition outcome_of {A : Type} (r : result A) : outcome A := fst (fst r).
Definition errno_of {A : Type} (r : result A) : Z := snd (fst r).
Definition events_of {A : Type} (r : result A) : list event := snd r.

(** Calls that go to a device or to the driver; the others are library
    calls on memory. *)
Definition is_device_call (c : call) : bool :=
  match c with
  | c_strdup _ | c_uuid_generate | c_uuid_parse _ | c_indeterminate _ => false
  | _ => true
  end.

Definition touches_device (ev : event) : bool :=
  match ev with
  | EvCall c _ _ => is_device_call c
  | EvOut _ => false
  end.

(** Calls that change what is stored on a device. *)
Definition is_write_call (c : call) : bool :=
  match c with
  | c_pwrite _ _ _ _ | c_ioctl_BLKDISCARD _ _ _
  | c_ioctl_BCH_IOCTL_REGISTER_DEVICE _ _ => true
  | _ => false
  end.

Definition writes_device (ev : event) : bool :=
  match ev with
  | EvCall c _ _ => is_write_call c
  | EvOut _ => false
  end.

(** The read of line 423 gave a whole record whose magic is bcache's. *)
Definition reads_bcache_magic (ev : event) : bool :=
  match ev with
  | EvCall c r _ =>
      match c return reply c -> bool with
      | c_pread _ count offset => fun r =>
          ((count =? sizeof_cache_sb_disk) && (offset =? SB_START)
           && (fst r =? sizeof_cache_sb_disk)
           && memcmp_eq (sb_disk_magic (snd r)) bcache_magic 16)%bool
      | _ => fun _ => false
      end r
  | EvOut _ => false
  end.

(** blkid found a signature: [blkid_do_probe] returned 0. *)
Definition probe_finds_signature (ev : event) : bool :=
  match ev with
  | EvCall c r _ =>
      match c return reply c -> bool with
      | c_blkid_do_probe => fun r => r =? 0
      | _ => fun _ => false
      end r
  | EvOut _ => false
  end.

(** What [is_zoned_device] said, if it was asked and came back. *)
Fixpoint zoned_reply (t : list event) : option bool :=
  match t with
  | [] => None
  | EvCall c r _ :: t' =>
      match c return reply c -> option bool with
      | c_is_zoned_device _ => fun r =>
          match r with Returns z => Some z | Exits _ => None end
      | _ => fun _ => zoned_reply t'
      end r
  | EvOut _ :: t' => zoned_reply t'
  end.

(** The records handed to the control device. *)
Fixpoint registered (t : list event) : list bch_register_device :=
  match t with
  | [] => []
  | EvCall (c_ioctl_BCH_IOCTL_REGISTER_DEVICE _ cmd) _ _ :: t' =>
      cmd :: registered t'
  | _ :: t' => registered t'
  end.

(** The devices named by the summaries [write_sb_common] prints
    (lines 293 and 323). *)
Definition name_of (o : output) : option string :=
  match o with
  | o_fprintf stdout fmt [a_str dev] =>
      if String.eqb fmt "Name			%s\n" then Some dev else None
  | _ => None
  end.

Fixpoint names_printed (t : list event) : list string :=
  match t with
  | [] => []
  | EvOut o :: t' =>
      match name_of o with
      | Some dev => dev :: names_printed t'
      | None => names_printed t'
      end
  | _ :: t' => names_printed t'
  end.


(** What [check_data_offset_for_zoned_device] left in [sbc.data_offset],
    if it was called and came back. *)
Fixpoint adjusted_data_offset (t : list event) : option Z :=
  match t with
  | [] => None
  | EvCall c r _ :: t' =>
      match c return reply c -> option Z with
      | c_check_data_offset_for_zoned_device _ _ => fun r =>
          match r with Returns d => Some d | Exits _ => None end
      | _ => fun _ => adjusted_data_offset t'
      end r
  | EvOut _ :: t' => adjusted_data_offset t'
  end.

(** The devices of a command line: an argument that is not an option
    names a cache device after [-C] and a backing device after [-B].
    [arg_step o bdev] gives the cache devices and the backing devices the
    option [o] adds, and the kind in force after it. *)
Definition arg_step (o : getopt_ret) (bdev : Z)
  : list string * list string * Z :=
  match o with
  | opt c optarg =>
      if c =? chr "C" then ([], [], 0)
      else if c =? chr "B" then ([], [], 1)
      else if c =? 1 then
        if bdev =? 0 then ([optarg], [], bdev) else ([], [optarg], bdev)
      else ([], [], bdev)
  | opt_flag _ => ([], [], bdev)
  end.

Fixpoint device_args (opts : list getopt_ret) (bdev : Z)
  : list string * list string :=
  match opts with
  | [] => ([], [])
  | o :: opts' =>
      let '(dc, db, bdev') := arg_step o bdev in
      let '(cache, backing) := device_args opts' bdev' in
      ((dc ++ cache)%list, (db ++ backing)%list)
  end.

(** Programs whose every result satisfies [P], whatever the replies. *)
Fixpoint returns {A : Type} (P : A -> Prop) (p : prog A) : Prop :=
  match p with
  | Ret a => P a
  | Sys c k => forall r, returns P (k r)
  | Out o k => returns P k
  | Errno k => forall e, returns P (k e)
  | Exit _ | Fault => True
  end.

(** Programs that end by returning or by [exit(EXIT_FAILURE)]. *)
Fixpoint fails_only {A : Type} (p : prog A) : Prop :=
  match p with
  | Ret _ => True
  | Sys c k => forall r, fails_only (k r)
  | Out o k => fails_only k
  | Errno k => forall e, fails_only (k e)
  | Exit s => s = EXIT_FAILURE
  | Fault => False
  end.

(** Programs all of whose calls satisfy [Q] and all of whose output
    satisfies [R], whatever the replies. *)
Fixpoint always {A : Type} (Q : call -> bool) (R : output -> bool)
    (p : prog A) : Prop :=
  match p with
  | Ret _ | Exit _ | Fault => True
  | Sys c k => Q c = true /\ forall r, always Q R (k r)
  | Out o k => R o = true /\ always Q R k
  | Errno k => forall e, always Q R (k e)
  end.

Definition event_ok (Q : call -> bool) (R : output -> bool) (ev : event)
  : bool :=
  match ev with
  | EvCall c _ _ => Q c
  | EvOut o => R o
  end.

Definition any_call (c : call) : bool := true.
Definition no_call (c : call) : bool := false.
Definition any_output (o : output) : bool := true.

Definition no_name_line (o : output) : bool :=
  match name_of o with
  | Some _ => false
  | None => true
  end.

(** The calls each part of the program can make. *)
Definition getblocks_calls (c : call) : bool :=
  match c with
  | c_fstat _ | c_ioctl_BLKGETSIZE _ => true
  | _ => false
  end.

Definition blkdiscard_all_calls (c : call) : bool :=
  match c with
  | c_fstat _ | c_ioctl_BLKGETSIZE64 _ | c_ioctl_BLKSSZGET _
  | c_ioctl_BLKDISCARD _ _ _ => true
  | _ => false
  end.

Definition write_sb_common_calls (c : call) : bool :=
  match c with
  | c_uuid_generate | c_is_zoned_device _ => true
  | _ => false
  end.

Definition write_sb_open_calls (c : call) : bool :=
  match c with
  | c_open _ _ | c_detail_dev _ | c_stop_backdev _ | c_unregister_cset _
  | c_sleep _ | c_indeterminate _ => true
  | _ => false
  end.

Definition write_sb_wipe_calls (c : call) : bool :=
  match c with
  | c_pread _ _ _ | c_pwrite _ _ _ _ => true
  | _ => false
  end.

Definition write_sb_probe_calls (c : call) : bool :=
  match c with
  | c_blkid_new_probe | c_blkid_probe_set_device _
  | c_blkid_probe_enable_partitions | c_blkid_do_probe => true
  | _ => false
  end.

Definition write_sb_format_calls (c : call) : bool :=
  (getblocks_calls c || write_sb_common_calls c || blkdiscard_all_calls c
   || match c with
      | c_pwrite _ _ _ _ | c_fsync _ | c_close _ => true
      | _ => false
      end)%bool.

Definition write_sb_calls (c : call) : bool :=
  (write_sb_open_calls c || write_sb_wipe_calls c || write_sb_probe_calls c
   || write_sb_format_calls c)%bool.

Definition get_blocksize_calls (c : call) : bool :=
  match c with
  | c_stat _ | c_open _ _ | c_ioctl_BLKSSZGET _ | c_close _ => true
  | _ => false
  end.

Definition make_bcache_parse_calls (c : call) : bool :=
  match c with
  | c_uuid_generate | c_uuid_parse _ | c_strdup _ => true
  | _ => false
  end.

(** The notice of lines 282-283, the warning of lines 752-753 and the
    message of lines 408-410. *)
Definition zoned_notice (dev : string) : event :=
  EvOut (o_fprintf stdout
    "Zoned device %s detected: convert to writethrough mode.\n\n" [a_str dev]).

Definition ioctl_offset_warning : event :=
  EvOut (o_fprintf stderr
    "WARNING. data_offset must be 0 when using IOCTL registration! Enforcing it...\n"
    []).

Definition still_busy_message : list event :=
  [EvOut (o_fprintf stderr "Bcache devices has not completely closed," []);
   EvOut (o_fprintf stderr "you can try it sooner.\n" [])].

(** The label fits when the caller has checked it (make.c, line 682). *)
Definition label_fits (sbc : sb_context) : Prop :=
  Z.of_nat (String.length (sbc_label sbc)) < SB_LABEL_SIZE.

(** What is relied on from the header's [set_bucket_size]: it stores the
    bucket size, and leaves the label array alone. *)
Definition set_bucket_size_stores (b : Z) : Prop :=
  forall sb, sb_bucket_size (set_bucket_size sb b) = b
          /\ sb_label (set_bucket_size sb b) = sb_label sb.

(** What is relied on from the header's cache-mode accessors: the mode read
    back from the flags is the one last stored. *)
Definition cache_mode_stored : Prop :=
  forall f v,
    v = CACHE_MODE_WRITEBACK \/ v = CACHE_MODE_WRITETHROUGH ->
    flags_BDEV_CACHE_MODE (flags_SET_BDEV_CACHE_MODE f v) = v.

(** The messages of lines 436-438 and of lines 452-454. *)
Definition already_bcache (dev : string) : list event :=
  [EvOut (o_fprintf stderr "Already a bcache device on %s," [a_str dev]);
   EvOut (o_fprintf stderr "overwrite with --wipe-bcache or --force\n" [])].

Definition non_bcache_superblock (dev : string) : list event :=
  [EvOut (o_fprintf stderr "Device %s already has a non-bcache superblock,"
            [a_str dev]);
   EvOut (o_fprintf stderr "remove it using wipefs and wipefs -a\n" [])].

(** The message of lines 315-316. *)
Definition not_enough_buckets (nbuckets : Z) : event :=
  EvOut (o_fprintf stderr "Not enough buckets: %llu, need %u\n"
           [a_int nbuckets; a_int 128]).

(** One option changes the devices and the kind the way [arg_step] says. *)
Definition follows_arg_step (o : getopt_ret) (l l1 : locals) : Prop :=
  let '(dc, db, bdev') := arg_step o (l_bdev l) in
  l_cache_devices l1 = (l_cache_devices l ++ dc)%list /\
  l_backing_devices l1 = (l_backing_devices l ++ db)%list /\
  l_bdev l1 = bdev'.


(** Calls that hand the control device nothing but records with a zero
    data offset. *)
Definition registers_zero_offset (c : call) : bool :=
  match c with
  | c_ioctl_BCH_IOCTL_REGISTER_DEVICE _ cmd =>
      sb_data_offset (cmd_sb cmd) =? 0
  | _ => true
  end.

(** Traces made of rounds of [sleep(3)] followed by an exclusive open of
    [dev], with the message of lines 400-401 after an open that failed;
    [Some k] when there are [k] rounds. *)
Fixpoint paced_opens (dev : string) (t : list event) : option nat :=
  match t with
  | [] => Some O
  | EvCall (c_sleep 3) _ _ :: t1 =>
      match t1 with
      | EvCall c fd _ :: t2 =>
          match c return reply c -> option nat with
          | c_open path [O_RDWR; O_EXCL] => fun fd =>
              if String.eqb path dev then
                if fd =? -1 then
                  match t2 with
                  | EvOut (o_fprintf stdout fmt []) :: t3 =>
                      if String.eqb fmt
                           "Waiting for bcache device to be closed.\n"
                      then option_map S (paced_opens dev t3) else None
                  | _ => None
                  end
                else match t2 with [] => Some 1%nat | _ => None end
              else None
          | _ => fun _ => None
          end fd
      | _ => None
      end
  | _ => None
  end.

Definition is_fsync (ev : event) : bool :=
  match ev with
  | EvCall (c_fsync _) _ _ => true
  | _ => false
  end.


(** ** Further observations *)

(** Strings that begin, end, or are made of white space only. *)
Definition starts_with_space (s : string) : bool :=
  match s with
  | String c _ => isspace c
  | EmptyString => false
  end.

Fixpoint ends_with_space (s : string) : bool :=
  match s with
  | EmptyString => false
  | String c EmptyString => isspace c
  | String _ s' => ends_with_space s'
  end.

Fixpoint all_spaces (s : string) : bool :=
  match s with
  | EmptyString => true
  | String c s' => (isspace c && all_spaces s')%bool
  end.

Definition power_of_two (v : Z) : Prop := exists k, 0 <= k /\ v = 2 ^ k.

(** What the option loop of [make_bcache] keeps true of the two sizes, of
    the label and of the data offset. *)
Definition sizes_ok (l : locals) : Prop :=
  (power_of_two (l_bucket_size l) /\ l_bucket_size l <= UINT_MAX) /\
  (l_block_size l = 0 \/
   power_of_two (l_block_size l) /\ l_block_size l <= USHRT_MAX).

Definition label_ok (l : locals) : Prop :=
  Z.of_nat (String.length (l_label l)) < SB_LABEL_SIZE.

Definition offset_ok (l : locals) : Prop :=
  BDEV_DATA_START_DEFAULT <= l_data_offset l < 2 ^ 64.

(** Programs that never divide by zero and never store past the end of an
    array, whatever the replies. *)
Fixpoint no_fault {A : Type} (p : prog A) : Prop :=
  match p with
  | Ret _ | Exit _ => True
  | Sys c k => forall r, no_fault (k r)
  | Out o k => no_fault k
  | Errno k => forall e, no_fault (k e)
  | Fault => False
  end.

(** What is relied on from the header's [set_bucket_size] where the rest of
    the superblock matters: it leaves the label array alone, and the
    bucket size it stores is not zero. *)
Definition set_bucket_size_keeps_label (b : Z) : Prop :=
  forall sb, sb_label (set_bucket_size sb b) = sb_label sb.

Definition set_bucket_size_not_zero (b : Z) : Prop :=
  forall sb, sb_bucket_size (set_bucket_size sb b) <> 0.

(** A context [make_bcache] can hand to [write_sb] and [write_sb_ioctl]. *)
Definition sbc_ok (sbc : sb_context) : Prop :=
  label_fits sbc /\ 1 <= sbc_bucket_size sbc <= UINT_MAX.

(** The ranges (start, length) handed to [BLKDISCARD]. *)
Fixpoint discards (t : list event) : list (Z * Z) :=
  match t with
  | [] => []
  | EvCall (c_ioctl_BLKDISCARD _ range0 range1) _ _ :: t' =>
      (range0, range1) :: discards t'
  | _ :: t' => discards t'
  end.

(** The size in bytes [BLKGETSIZE64] gave, if it was asked. *)
Fixpoint device_bytes (t : list event) : option Z :=
  match t with
  | [] => None
  | EvCall c r _ :: t' =>
      match c return reply c -> option Z with
      | c_ioctl_BLKGETSIZE64 _ => fun r => Some (u64 (snd r))
      | _ => fun _ => device_bytes t'
      end r
  | EvOut _ :: t' => device_bytes t'
  end.

(** A [BLKDISCARD] that succeeded. *)
Definition discard_done (ev : event) : bool :=
  match ev with
  | EvCall c r _ =>
      match c return reply c -> bool with
      | c_ioctl_BLKDISCARD _ _ _ => fun r => r =? 0
      | _ => fun _ => false
      end r
  | EvOut _ => false
  end.

(** Calls that take a device away from the running driver, or wait for
    it (lines 377-406). *)
Definition is_quiesce_call (c : call) : bool :=
  match c with
  | c_detail_dev _ | c_stop_backdev _ | c_unregister_cset _ | c_sleep _
  | c_indeterminate _ => true
  | _ => false
  end.

Definition quiesces (ev : event) : bool :=
  match ev with
  | EvCall c _ _ => is_quiesce_call c
  | EvOut _ => false
  end.

Definition is_open_call (c : call) : bool :=
  match c with
  | c_open _ _ => true
  | _ => false
  end.

(** Calls that change the bytes of a device without going through the
    driver. *)
Definition is_direct_write_call (c : call) : bool :=
  match c with
  | c_pwrite _ _ _ _ | c_ioctl_BLKDISCARD _ _ _ => true
  | _ => false
  end.

Definition writes_directly (ev : event) : bool :=
  match ev with
  | EvCall c _ _ => is_direct_write_call c
  | EvOut _ => false
  end.

Definition is_discard_call (c : call) : bool :=
  match c with
  | c_ioctl_BLKDISCARD _ _ _ => true
  | _ => false
  end.

Definition is_register_call (c : call) : bool :=
  match c with
  | c_ioctl_BCH_IOCTL_REGISTER_DEVICE _ _ => true
  | _ => false
  end.

(** The message of lines 414-415, for [errno] holding [e]. *)
Definition cannot_open (dev : string) (e : Z) : event :=
  EvOut (o_fprintf stderr "Can't open dev %s: %s\n"
           [a_str dev; a_strerror e]).

(** Programs that come back to their caller, whatever the replies. *)
Fixpoint comes_back {A : Type} (p : prog A) : Prop :=
  match p with
  | Ret _ => True
  | Sys c k => forall r, comes_back (k r)
  | Out o k => comes_back k
  | Errno k => forall e, comes_back (k e)
  | Exit _ | Fault => False
  end.

(** The image [write_sb] writes for a superblock (lines 458, 474-477). *)
Definition sb_disk_image (sb : cache_sb) : list byte :=
  let sb_disk :=
    to_cache_sb_disk (repeat x00 (Z.to_nat sizeof_cache_sb_disk)) sb in
  sb_disk_set_csum sb_disk (cpu_to_le64 (csum_set sb_disk)).

(** The two writes of lines 479 and 484, with what they returned. *)
Definition zero_start (fd n e : Z) : event :=
  EvCall (c_pwrite fd (repeat x00 (Z.to_nat SB_START)) SB_START 0) n e.

Definition put_superblock (fd : Z) (sb : cache_sb) (n e : Z) : event :=
  EvCall (c_pwrite fd (sb_disk_image sb) sizeof_cache_sb_disk SB_START) n e.

(** Programs that hand the control device records for the devices named
    [l], in that order: all of them when the program returns, the first
    few of them when it does not. *)
Fixpoint registers {A : Type} (p : prog A) (l : list string) : Prop :=
  match p with
  | Ret _ => l = []
  | Sys c k =>
      match c as c0 return (reply c0 -> prog A) -> Prop with
      | c_ioctl_BCH_IOCTL_REGISTER_DEVICE _ cmd => fun k =>
          match l with
          | d :: l' => cmd_dev_name cmd = d /\ forall r, registers (k r) l'
          | [] => False
          end
      | _ => fun k => forall r, registers (k r) l
      end k
  | Out o k => registers k l
  | Errno k => forall e, registers (k e) l
  | Exit _ | Fault => True
  end.

(** The name [write_sb_ioctl] gives the driver for a device (line 545). *)
Definition dev_name_of (dev : string) : string :=
  substring 0 (Z.to_nat (BDEVNAME_SIZE - 1)) dev.

(** Calls that look for what a device already holds (lines 423-456). *)
Definition looks_at_superblock (ev : event) : bool :=
  match ev with
  | EvCall c _ _ => (write_sb_probe_calls c
                     || match c with c_pread _ _ _ => true | _ => false end)%bool
  | EvOut _ => false
  end.

(** [stat] succeeded and found a block device. *)
Definition stat_found_block (ev : event) : bool :=
  match ev with
  | EvCall c r _ =>
      match c return reply c -> bool with
      | c_stat _ => fun r => ((fst r =? 0) && st_isblk (snd r))%bool
      | _ => fun _ => false
      end r
  | EvOut _ => false
  end.

(** The calls [write_sb_ioctl] can make. *)
Definition write_sb_ioctl_calls (c : call) : bool :=
  (getblocks_calls c || write_sb_common_calls c
   || match c with
      | c_open _ _ | c_close _ | c_stat _
      | c_ioctl_BCH_IOCTL_REGISTER_DEVICE _ _ => true
      | _ => false
      end)%bool.

(** The sizes [hatoi_validate] lets through. *)
Definition valid_size (s : string) (max : Z) : bool :=
  let v := hatoi s in
  ((Z.land v (u64 (v - 1)) =? 0) && negb (v / 512 >? max)
   && negb (v / 512 =? 0))%bool.

(** Options the loop of lines 636-702 stops at, whatever the environment:
    a bad bucket or block size, a data offset below the default, a label
    that does not fit, [-h], and a device given before [-C] or [-B]. *)
Definition refused_option (o : getopt_ret) (bdev : Z) : bool :=
  match o with
  | opt c optarg =>
      if c =? chr "C" then false
      else if c =? chr "B" then false
      else if c =? chr "b" then negb (valid_size optarg UINT_MAX)
      else if c =? chr "w" then negb (valid_size optarg USHRT_MAX)
      else if c =? chr "p" then false
      else if c =? chr "o" then
        u64 (fst (strtoll optarg)) <? u64 BDEV_DATA_START_DEFAULT
      else if c =? chr "u" then false
      else if c =? chr "l" then
        Z.of_nat (String.length optarg) >=? SB_LABEL_SIZE
      else if c =? chr "h" then true
      else if c =? 1 then bdev =? -1
      else false
  | opt_flag _ => false
  end.

Fixpoint refuses (opts : list getopt_ret) (bdev : Z) : bool :=
  match opts with
  | [] => false
  | o :: opts' =>
      (refused_option o bdev || refuses opts' (snd (arg_step o bdev)))%bool
  end.

(** The messages of lines 705-706. *)
Definition no_device_supplied : list event :=
  [EvOut (o_fprintf stderr "Please supply a device\n" []);
   EvOut (o_fprintf stderr usage_text [])].

(** The calls to [check_data_offset_for_zoned_device]: the data offset
    each was given, and what it answered. *)
Fixpoint offset_checks (t : list event) : list (Z * callee Z) :=
  match t with
  | [] => []
  | EvCall c r _ :: t' =>
      match c return reply c -> list (Z * callee Z) with
      | c_check_data_offset_for_zoned_device _ d => fun r =>
          (d, r) :: offset_checks t'
      | _ => fun _ => offset_checks t'
      end r
  | EvOut _ :: t' => offset_checks t'
  end.

(** A list of such calls, each given the offset the one before it left,
    starting from [d]. *)
Fixpoint chained (d : Z) (l : list (Z * callee Z)) : Prop :=
  match l with
  | [] => True
  | (a, r) :: l' =>
      a = d /\
      match r with
      | Returns d' => chained d' l'
      | Exits _ => l' = []
      end
  end.

Definition is_offset_check (c : call) : bool :=
  match c with
  | c_check_data_offset_for_zoned_device _ _ => true
  | _ => false
  end.

(** The read of line 423 gave a whole record. *)
Definition full_read (ev : event) : bool :=
  match ev with
  | EvCall c r _ =>
      match c return reply c -> bool with
      | c_pread _ count offset => fun r =>
          ((count =? sizeof_cache_sb_disk) && (offset =? SB_START)
           && (fst r =? sizeof_cache_sb_disk))%bool
      | _ => fun _ => false
      end r
  | EvOut _ => false
  end.

(** blkid found nothing: [blkid_do_probe] did not return 0. *)
Definition probe_passed (ev : event) : bool :=
  match ev with
  | EvCall c r _ =>
      match c return reply c -> bool with
      | c_blkid_do_probe => fun r => negb (r =? 0)
      | _ => fun _ => false
      end r
  | EvOut _ => false
  end.

(** Calls that destroy what the device held: a discard, or a write at the
    very start of the device. *)
Definition destroys (ev : event) : bool :=
  match ev with
  | EvCall (c_ioctl_BLKDISCARD _ _ _) _ _ => true
  | EvCall (c_pwrite _ _ _ offset) _ _ => offset =? 0
  | _ => false
  end.

(** The calls of lines 423-441. *)
Definition write_sb_wipe_calls_at (c : call) : bool :=
  match c with
  | c_pread _ _ _ => true
  | c_pwrite _ _ _ offset => offset =? SB_START
  | _ => false
  end.

(** The argument of an option, when it is the option [c]; the argument of
    the last option [c] of a command line. *)
Definition optarg_of (c : Z) (o : getopt_ret) : option string :=
  match o with
  | opt c' optarg => if c' =? c then Some optarg else None
  | opt_flag _ => None
  end.

Fixpoint last_optarg (c : Z) (opts : list getopt_ret) : option string :=
  match opts with
  | [] => None
  | o :: opts' =>
      match last_optarg c opts' with
      | Some a => Some a
      | None => optarg_of c o
      end
  end.

Definition flag_var_eqb (f g : flag_var) : bool :=
  match f, g with
  | f_writeback, f_writeback | f_wipe_bcache, f_wipe_bcache
  | f_discard, f_discard | f_force, f_force | f_use_ioctl, f_use_ioctl => true
  | _, _ => false
  end.

Definition sets_flag (f : flag_var) (o : getopt_ret) : bool :=
  match o with
  | opt_flag g => flag_var_eqb f g
  | opt _ _ => false
  end.

(** The variables of [make_bcache] an option writes without asking the
    environment. *)
Definition option_values (l : locals)
  : string * Z * Z * Z * (bool * bool * bool * bool * bool) :=
  (l_label l, l_data_offset l, l_bucket_size l, l_block_size l,
   (l_writeback l, l_discard l, l_wipe_bcache l, l_force l, l_use_ioctl l)).

(** The same variables after the options [opts], from the values [v]. *)
Definition values_after (opts : list getopt_ret)
    (v : string * Z * Z * Z * (bool * bool * bool * bool * bool))
  : string * Z * Z * Z * (bool * bool * bool * bool * bool) :=
  let '(label, data_offset, bucket_size, block_size,
        (writeback, discard, wipe_bcache, force, use_ioctl)) := v in
  (match last_optarg (chr "l") opts with Some a => a | None => label end,
   match last_optarg (chr "o") opts with
   | Some a => u64 (fst (strtoll a))
   | None => data_offset
   end,
   match last_optarg (chr "b") opts with
   | Some a => u32 (hatoi a / 512)
   | None => bucket_size
   end,
   match last_optarg (chr "w") opts with
   | Some a => u32 (hatoi a / 512)
   | None => block_size
   end,
   ((writeback || existsb (sets_flag f_writeback) opts)%bool,
    (discard || existsb (sets_flag f_discard) opts)%bool,
    (wipe_bcache || existsb (sets_flag f_wipe_bcache) opts)%bool,
    (force || existsb (sets_flag f_force) opts)%bool,
    (use_ioctl || existsb (sets_flag f_use_ioctl) opts)%bool)).

(** Requests to the driver to let go of a device. *)
Definition is_release_call (c : call) : bool :=
  match c with
  | c_stop_backdev _ | c_unregister_cset _ => true
  | _ => false
  end.

Definition releases (ev : event) : bool :=
  match ev with
  | EvCall c _ _ => is_release_call c
  | EvOut _ => false
  end.

(** The calls of the loop of lines 396-406 and of the test after it. *)
Definition write_sb_reopen_calls (c : call) : bool :=
  match c with
  | c_open _ _ | c_sleep _ | c_indeterminate _ => true
  | _ => false
  end.

(** The block sizes, in sectors, that the calls of [get_blocksize] found:
    [st_blksize] for what is not a block device, the logical block size
    for a block device. *)
Fixpoint block_sizes_found (t : list event) : list Z :=
  match t with
  | [] => []
  | EvCall c r _ :: t' =>
      match c return reply c -> list Z with
      | c_stat _ => fun r =>
          if ((fst r =? 0) && negb (st_isblk (snd r)))%bool
          then u32 (Z.quot (st_blksize (snd r)) 512) :: block_sizes_found t'
          else block_sizes_found t'
      | c_ioctl_BLKSSZGET _ => fun r =>
          if fst r =? 0
          then u32 (snd r) / 512 :: block_sizes_found t'
          else block_sizes_found t'
      | _ => fun _ => block_sizes_found t'
      end r
  | EvOut _ :: t' => block_sizes_found t'
  end.

(** The descriptor a call works on. *)
Definition call_fd (c : call) : option Z :=
  match c with
  | c_close fd | c_fstat fd | c_ioctl_BLKGETSIZE fd | c_ioctl_BLKGETSIZE64 fd
  | c_ioctl_BLKSSZGET fd | c_ioctl_BLKDISCARD fd _ _
  | c_ioctl_BCH_IOCTL_REGISTER_DEVICE fd _ | c_pread fd _ _
  | c_pwrite fd _ _ _ | c_fsync fd | c_blkid_probe_set_device fd => Some fd
  | _ => None
  end.

(** What the last [open] of a trace returned. *)
Fixpoint last_open (t : list event) : option Z :=
  match t with
  | [] => None
  | EvCall c r _ :: t' =>
      match last_open t' with
      | Some fd => Some fd
      | None =>
          match c return reply c -> option Z with
          | c_open _ _ => fun r => Some r
          | _ => fun _ => None
          end r
      end
  | EvOut _ :: t' => last_open t'
  end.

(** Calls that open nothing and work on the descriptor [fd], if on any. *)
Definition on_fd (fd : Z) (c : call) : bool :=
  (negb (is_open_call c)
   && match call_fd c with
      | Some f => f =? fd
      | None => true
      end)%bool.

(** ** What a trace shows of the formatting of devices *)






(** ** The warning of lines 752-753 *)

Definition is_offset_warning (ev : event) : bool :=
  match ev with
  | EvOut (o_fprintf stderr fmt []) =>
      String.eqb fmt
        "WARNING. data_offset must be 0 when using IOCTL registration! Enforcing it...\n"
  | _ => false
  end.

Definition no_offset_warning (o : output) : bool :=
  negb (is_offset_warning (EvOut o)).

(** How often the warning was printed. *)
Definition offset_warnings (t : list event) : nat :=
  List.length (filter is_offset_warning t).

(** [check_data_offset_for_zoned_device] came back and left an offset
    that is not zero. *)
Definition left_nonzero (x : Z * callee Z) : bool :=
  match snd x with
  | Returns off => negb (off =? 0)
  | Exits _ => false
  end.

(** In how many turns of the loop of lines 747-760 the data offset was
    not zero after the check of line 748. *)
Definition nonzero_offsets (t : list event) : nat :=
  List.length (filter left_nonzero (offset_checks t)).

(** Every record handed to the control device came after a warning
    printed since the record before it; [warned] tells whether one was
    printed since then. *)
Fixpoint each_registration_warned (warned : bool) (t : list event) : bool :=
  match t with
  | [] => true
  | EvCall c _ _ :: t' =>
      if is_register_call c
      then (warned && each_registration_warned false t')%bool
      else each_registration_warned warned t'
  | ev :: t' =>
      each_registration_warned (warned || is_offset_warning ev)%bool t'
  end.

(** What follows the first record handed to the control device. *)
Fixpoint after_registration (t : list event) : list event :=
  match t with
  | [] => []
  | EvCall c _ _ :: t' =>
      if is_register_call c then t' else after_registration t'
  | _ :: t' => after_registration t'
  end.

End Make.

(** ** An instance of the headers, and environments to run the model in

    The constants and the layout of the on-disk record are those of the
    Linux bcache format.  The instance serves to run the model on concrete
    command lines; the theorems below hold for every instance. *)
Module Linux.

Local Open Scope list_scope.

Definition byte_of_Z (z : Z) : byte :=
  match Byte.of_N (Z.to_N (z mod 256)) with
  | Some b => b
  | None => x00
  end.

(** [n] bytes of [z], least significant first. *)
Fixpoint le (n : nat) (z : Z) : list byte :=
  match n with
  | O => []
  | S n' => byte_of_Z z :: le n' (z / 256)
  end.

Definition crc64_poly : Z := 0x42F0E1EBA9EA3693.

Fixpoint crc64_bits (n : nat) (crc : Z) : Z :=
  match n with
  | O => crc
  | S n' =>
      crc64_bits n'
        (if Z.testbit crc 63 then Z.lxor (u64 (Z.shiftl crc 1)) crc64_poly
         else u64 (Z.shiftl crc 1))
  end.

Definition crc64_byte (crc : Z) (b : byte) : Z :=
  crc64_bits 8 (Z.lxor crc (Z.shiftl (Z.of_N (Byte.to_N b)) 56)).

Definition bch_crc64 (data : list byte) : Z :=
  Z.lxor (fold_left crc64_byte data ULLONG_MAX) ULLONG_MAX.

(** [BITMASK(name, struct cache_sb, flags, offset, size)] *)
Definition bitmask_get (offset size : Z) (flags : Z) : Z :=
  Z.land (Z.shiftr flags offset) (2 ^ size - 1).

Definition bitmask_set (offset size : Z) (flags v : Z) : Z :=
  Z.lor (Z.land flags (not64 (Z.shiftl (2 ^ size - 1) offset)))
        (Z.shiftl (Z.land v (2 ^ size - 1)) offset).

Definition magic : list byte :=
  [xc6; x85; x73; xf6; x4e; x1a; x45; xca;
   x82; x65; xf5; x7f; x48; xba; x6d; x81].

Definition is_bdev (version : Z) : bool :=
  ((version =? 1) || (version =? 4) || (version =? 6))%bool.

Definition large_bucket (sb : cache_sb) (bucket_size : Z) : cache_sb :=
  let big := bucket_size >? USHRT_MAX in
  mk_cache_sb (sb_offset sb) (if big then 5 else sb_version sb) (sb_magic sb)
    (sb_uuid sb) (sb_set_uuid sb) (sb_label sb) (sb_flags sb) (sb_nbuckets sb)
    (sb_block_size sb) (sb_nr_in_set sb) (sb_nr_this_dev sb)
    (sb_data_offset sb) (sb_first_bucket sb) bucket_size
    (if big then [1] else sb_rest sb).

(** The little-endian record; the first eight bytes are the checksum. *)
Definition encode (dst : list byte) (sb : cache_sb) : list byte :=
  firstn 8 dst
  ++ le 8 (sb_offset sb) ++ le 8 (sb_version sb)
  ++ firstn 16 (sb_magic sb) ++ firstn 16 (sb_uuid sb)
  ++ firstn 16 (sb_set_uuid sb)
  ++ map byte_of_ascii (firstn 32 (sb_label sb))
  ++ le 8 (sb_flags sb) ++ le 8 0 ++ repeat x00 64
  ++ le 8 (if is_bdev (sb_version sb) then sb_data_offset sb
           else sb_nbuckets sb)
  ++ le 2 (sb_block_size sb) ++ le 2 (sb_bucket_size sb)
  ++ le 2 (sb_nr_in_set sb) ++ le 2 (sb_nr_this_dev sb)
  ++ le 4 0 ++ le 2 (sb_first_bucket sb) ++ le 2 0
  ++ repeat x00 2048
  ++ le 2 (sb_bucket_size sb / 2 ^ 16) ++ repeat x00 6.

Definition hdr : bcache_h := {|
  SB_SECTOR := 8;
  SB_START := 4096;
  SB_LABEL_SIZE := 32;
  BDEV_DATA_START_DEFAULT := 16;
  BCACHE_SB_VERSION_CDEV := 0;
  BCACHE_SB_VERSION_BDEV := 1;
  BCACHE_SB_VERSION_CDEV_WITH_UUID := 3;
  BCACHE_SB_VERSION_BDEV_WITH_OFFSET := 4;
  CACHE_MODE_WRITETHROUGH := 0;
  CACHE_MODE_WRITEBACK := 1;
  bcache_magic := magic;
  sizeof_cache_sb_disk := 2264;
  sb_disk_magic := fun img => firstn 16 (skipn 24 img);
  version_is_bdev := is_bdev;
  flags_BDEV_CACHE_MODE := bitmask_get 0 4;
  flags_SET_BDEV_CACHE_MODE := bitmask_set 0 4;
  flags_SET_CACHE_DISCARD := bitmask_set 1 1;
  flags_SET_CACHE_REPLACEMENT := bitmask_set 2 3;
  to_block_size_t := u16;
  set_bucket_size := large_bucket;
  to_cache_sb_disk := encode;
  csum_set := fun img => bch_crc64 (firstn 200 (skipn 8 img));
  cpu_to_le64 := fun v => v;
  sb_disk_set_csum := fun img v => le 8 v ++ skipn 8 img
|}.

(** A device and a driver for the model to talk to. *)
Record scenario : Type := mk_scenario {
  sc_busy : nat;          (* exclusive opens that fail with EBUSY first *)
  sc_type : Z;            (* the type detail_dev reports *)
  sc_indeterminate : bool;
  sc_disk : list byte;    (* the record at SB_START *)
  sc_probe : Z;           (* what blkid_do_probe returns *)
  sc_blocks : Z;          (* device size in sectors *)
  sc_sector_size : Z;     (* logical block size in bytes *)
  sc_zoned : bool;
  sc_fsync : Z
}.

Definition last_errno (h : list event) : Z :=
  fold_left (fun e ev => match ev with EvCall _ _ e' => e' | EvOut _ => e end)
    h 0.

Definition exclusive_opens (h : list event) : nat :=
  List.length
    (filter (fun ev =>
       match ev with
       | EvCall (c_open _ [O_RDWR; O_EXCL]) _ _ => true
       | _ => false
       end) h).

Definition scenario_env (s : scenario) : env := fun h c =>
  let e := last_errno h in
  let st := mk_stat true 0 4096 in
  match c return reply c * Z with
  | c_open _ [O_RDWR; O_EXCL] =>
      if (exclusive_opens h <? sc_busy s)%nat then (-1, 16) else (3, e)
  | c_open _ _ => (4, e)
  | c_close _ => (0, e)
  | c_fstat _ => ((0, st), e)
  | c_stat _ => ((0, st), e)
  | c_ioctl_BLKGETSIZE _ => ((0, sc_blocks s), e)
  | c_ioctl_BLKGETSIZE64 _ => ((0, 512 * sc_blocks s), e)
  | c_ioctl_BLKSSZGET _ => ((0, sc_sector_size s), e)
  | c_ioctl_BLKDISCARD _ _ _ => (0, e)
  | c_ioctl_BCH_IOCTL_REGISTER_DEVICE _ _ => (0, e)
  | c_pread fd count _ =>
      if fd <? 0 then ((-1, []), 9) else ((count, sc_disk s), e)
  | c_pwrite _ _ count _ => (count, e)
  | c_fsync _ => if sc_fsync s =? 0 then (0, e) else (sc_fsync s, 5)
  | c_sleep _ => (0, e)
  | c_strdup _ => (true, e)
  | c_uuid_generate => (repeat x2a 16, e)
  | c_uuid_parse _ => ((0, repeat x2b 16), e)
  | c_blkid_new_probe => (true, e)
  | c_blkid_probe_set_device _ => (0, e)
  | c_blkid_probe_enable_partitions => (0, e)
  | c_blkid_do_probe => (sc_probe s, e)
  | c_detail_dev _ => (Returns (0, sc_type s, "cset"), e)
  | c_stop_backdev _ => (Returns 0, e)
  | c_unregister_cset _ => (Returns 0, e)
  | c_is_zoned_device _ => (Returns (sc_zoned s), e)
  | c_check_data_offset_for_zoned_device _ d => (Returns d, e)
  | c_indeterminate _ => (sc_indeterminate s, e)
  end.

(** An idle, blank, 1 GiB device with 512-byte sectors. *)
Definition blank : scenario :=
  mk_scenario 0 1 false (repeat x00 2264) 1 2097152 512 false 0.

(** The same device holding a bcache superblock. *)
Definition formatted : scenario :=
  mk_scenario 0 1 false (repeat x00 24 ++ magic ++ repeat x00 2224) 1
    2097152 512 false 0.

(** A backing device the driver holds and does not let go of in time; the
    stack slot of [opened] holds a non-zero byte. *)
Definition held : scenario :=
  mk_scenario 4 1 true (repeat x00 2264) 1 2097152 512 false 0.

(** A blank device whose [fsync] fails. *)
Definition failing_fsync : scenario :=
  mk_scenario 0 1 false (repeat x00 2264) 1 2097152 512 false (-1).

(** A blank device with 4096-byte logical blocks. *)
Definition blank_4k : scenario :=
  mk_scenario 0 1 false (repeat x00 2264) 1 2097152 4096 false 0.

(** A backing device the driver lets go of at the second retry. *)
Definition released : scenario :=
  mk_scenario 2 1 true (repeat x00 2264) 1 2097152 512 false 0.

(** A blank zoned device. *)
Definition zoned : scenario :=
  mk_scenario 0 1 false (repeat x00 2264) 1 2097152 512 true 0.

(** A blank device of 100000 sectors. *)
Definition small : scenario :=
  mk_scenario 0 1 false (repeat x00 2264) 1 100000 512 false 0.

(** A blank device on which blkid finds a signature. *)
Definition foreign : scenario :=
  mk_scenario 0 1 false (repeat x00 2264) 0 2097152 512 false 0.

(** Contexts: the defaults of [make_bcache] for 512-byte blocks, the same
    with [--writeback], with [--wipe-bcache], and with a data offset of 32
    sectors. *)
Definition sbc0 : sb_context :=
  mk_sb_context 1 1024 false false false 0 16 (repeat x07 16) "".

Definition sbc_writeback_on : sb_context :=
  mk_sb_context 1 1024 true false false 0 16 (repeat x07 16) "".

Definition sbc_wipe : sb_context :=
  mk_sb_context 1 1024 false false true 0 16 (repeat x07 16) "".

Definition sbc_offset32 : sb_context :=
  mk_sb_context 1 1024 false false false 0 32 (repeat x07 16) "".

(** The blank device in a process for which [strdup] finds no memory. *)
Definition out_of_memory : env := fun h c =>
  match c as c0 return reply c0 * Z with
  | c_strdup _ => (false, 12)
  | c0 => scenario_env blank h c0
  end.

End Linux.

(** * Properties *)

Section MakeFacts.

Context {hdr : bcache_h}.

(** ** Running programs *)

Lemma emit_prepend {A : Type} (ev : event) (t : list event) (r : result A) :
  emit ev (prepend t r) = prepend (ev :: t) r.
Proof. destruct r as [[o e] t']. reflexivity. Qed.

Lemma prepend_nil {A : Type} (r : result A) : prepend [] r = r.
Proof. destruct r as [[o e] t']. reflexivity. Qed.

Lemma outcome_prepend {A : Type} (t : list event) (r : result A) :
  outcome_of (prepend t r) = outcome_of r.
Proof. destruct r as [[o e] t']. reflexivity. Qed.

Lemma events_prepend {A : Type} (t : list event) (r : result A) :
  events_of (prepend t r) = (t ++ events_of r)%list.
Proof. destruct r as [[o e] t']. reflexivity. Qed.

Lemma outcome_emit {A : Type} (ev : event) (r : result A) :
  outcome_of (emit ev r) = outcome_of r.
Proof. destruct r as [[o e] t']. reflexivity. Qed.

Lemma events_emit {A : Type} (ev : event) (r : result A) :
  events_of (emit ev r) = ev :: events_of r.
Proof. destruct r as [[o e] t']. reflexivity. Qed.

Lemma run_bind {A B : Type} (p : prog A) (f : A -> prog B) E h e :
  run (bind p f) E h e =
  match run p E h e with
  | (Done a, e1, t1) => prepend t1 (run (f a) E (h ++ t1)%list e1)
  | (Exited s, e1, t1) => (Exited s, e1, t1)
  | (Faulted, e1, t1) => (Faulted, e1, t1)
  end.
Proof.
  revert h e.
  induction p as [a|c k IH|o k IH|k IH|s|]; intros h e; simpl.
  - rewrite app_nil_r. now rewrite prepend_nil.
  - destruct (E h c) as [r e1]. rewrite IH.
    destruct (run (k r) E (h ++ [EvCall c r e1])%list e1)
      as [[[a|s|] e2] t2]; simpl; try reflexivity.
    rewrite <- app_assoc. apply emit_prepend.
  - rewrite IH.
    destruct (run k E (h ++ [EvOut o])%list e)
      as [[[a|s|] e2] t2]; simpl; try reflexivity.
    rewrite <- app_assoc. apply emit_prepend.
  - apply IH.
  - reflexivity.
  - reflexivity.
Qed.

(** A program that makes no call runs the same in every environment. *)
Ltac exec :=
  cbn [run bind sys out errno exit ext printf fprintf perror putchar fflush
       emit prepend app outcome_of events_of errno_of fst snd negb andb orb].

(** ** The label loop *)

Lemma store_some (arr : list ascii) (i : nat) (c : ascii) :
  (i < List.length arr)%nat ->
  exists arr', store arr i c = Some arr' /\ List.length arr' = List.length arr.
Proof.
  revert i. induction arr as [|x arr IH]; intros i Hi; simpl in Hi.
  - lia.
  - destruct i as [|i]; simpl.
    + eexists; split; [reflexivity|reflexivity].
    + destruct (IH i) as (arr' & -> & Hlen); [lia|].
      eexists; split; [reflexivity|]. simpl. now rewrite Hlen.
Qed.

Lemma write_label_ret (src : list ascii) (i : nat) (arr : list ascii) :
  (i + List.length src < List.length arr)%nat ->
  exists arr', write_label src i arr = Ret arr'.
Proof.
  revert i arr. induction src as [|c src IH]; intros i arr Hlen; simpl in *.
  - destruct (store_some arr i zero) as (arr' & -> & _); [lia|]. eauto.
  - destruct (store_some arr i c) as (arr' & -> & Hl); [lia|].
    apply IH. lia.
Qed.

Lemma length_list_ascii_of_string (s : string) :
  List.length (list_ascii_of_string s) = String.length s.
Proof. induction s; simpl; congruence. Qed.

Lemma write_label_fits (sbc : sb_context) (arr : list ascii) :
  label_fits sbc ->
  List.length arr = Z.to_nat SB_LABEL_SIZE ->
  exists arr',
    write_label (list_ascii_of_string (sbc_label sbc)) 0 arr = Ret arr'.
Proof.
  intros Hfit Harr. apply write_label_ret.
  rewrite length_list_ascii_of_string, Harr. unfold label_fits in Hfit. lia.
Qed.

Lemma write_label_cases (src : list ascii) (i : nat) (arr : list ascii) :
  (exists arr', write_label src i arr = Ret arr')
  \/ write_label src i arr = Fault.
Proof.
  revert i arr. induction src as [|c src IH]; intros i arr; simpl.
  - destruct (store arr i zero); eauto.
  - destruct (store arr i c); eauto.
Qed.

(** Lines 350-353 make no call: the label is stored, or the loop runs off
    the end of the array. *)
Lemma run_write_label sbc sb E h e :
  exists o,
    run (lbl <- write_label (list_ascii_of_string (sbc_label sbc)) 0
                  (sb_label sb) ;;
         Ret (set_sb_label sb lbl)) E h e = (o, e, []) /\
    (o = Faulted \/ exists arr', o = Done (set_sb_label sb arr')) /\
    (label_fits sbc ->
     List.length (sb_label sb) = Z.to_nat SB_LABEL_SIZE ->
     exists arr', o = Done (set_sb_label sb arr')).
Proof.
  destruct (write_label_cases (list_ascii_of_string (sbc_label sbc)) 0
              (sb_label sb)) as [[arr' Harr]|Hf].
  - rewrite Harr. exists (Done (set_sb_label sb arr')).
    split; [reflexivity|]. split; eauto.
  - rewrite Hf. exists Faulted. split; [reflexivity|]. split; [auto|].
    intros Hfit Hlen.
    destruct (write_label_fits sbc (sb_label sb) Hfit Hlen) as [arr' Harr].
    congruence.
Qed.

(** ** Trace invariants *)

Lemma always_bind {A B : Type} Q R (p : prog A) (f : A -> prog B) :
  always Q R p -> (forall a, always Q R (f a)) -> always Q R (bind p f).
Proof.
  intros Hp Hf. induction p as [a|c k IH|o k IH|k IH|s|]; simpl in *; auto.
  - destruct Hp as [Hc Hk]. split; auto.
  - destruct Hp as [Ho Hk]. split; auto.
Qed.

Lemma always_mono {A : Type} (Q Q' : call -> bool) (R R' : output -> bool)
    (p : prog A) :
  (forall c, Q c = true -> Q' c = true) ->
  (forall o, R o = true -> R' o = true) ->
  always Q R p -> always Q' R' p.
Proof.
  intros HQ HR. induction p as [a|c k IH|o k IH|k IH|s|]; simpl; auto.
  - intros [Hc Hk]. split; auto.
  - intros [Ho Hk]. split; auto.
Qed.

Lemma always_run {A : Type} Q R (p : prog A) E h e :
  always Q R p -> forallb (event_ok Q R) (events_of (run p E h e)) = true.
Proof.
  revert h e. induction p as [a|c k IH|o k IH|k IH|s|]; intros h e Hp;
    simpl in *; auto.
  - destruct Hp as [Hc Hk]. destruct (E h c) as [r e1].
    rewrite events_emit. simpl. rewrite Hc. simpl. now apply IH.
  - destruct Hp as [Ho Hk]. rewrite events_emit. simpl. rewrite Ho.
    simpl. now apply IH.
Qed.

(** One step through a program for the goals [always Q R p]. *)
Ltac always_step :=
  match goal with
  | |- always _ _ (bind _ _) => apply always_bind; [| intros]
  | |- always _ _ (if ?b then _ else _) => destruct b
  | |- always _ _ (match ?x with _ => _ end) => destruct x
  | |- always _ _ (sys _) => split; [reflexivity | intros; exact I]
  | |- always _ _ (out _) => split; [reflexivity | exact I]
  | |- always _ _ (printf _ _) => split; [reflexivity | exact I]
  | |- always _ _ (fprintf _ _ _) => split; [reflexivity | exact I]
  | |- always _ _ (putchar _) => split; [reflexivity | exact I]
  | |- always _ _ (fflush _) => split; [reflexivity | exact I]
  | |- always _ _ (perror _) => intro; split; [reflexivity | exact I]
  | |- always _ _ errno => intro; exact I
  | |- always _ _ (ext ?r) => destruct r; exact I
  | |- always _ _ (udiv _ _) => unfold udiv
  | |- always _ _ (Sys _ _) => split; [reflexivity | intros]
  | |- always _ _ (Out _ _) => split; [reflexivity |]
  | |- always _ _ (Errno _) => intro
  | |- always _ _ (Ret _) => exact I
  | |- always _ _ (exit _) => exact I
  | |- always _ _ (Exit _) => exact I
  | |- always _ _ Fault => exact I
  | |- always _ _ usage => unfold usage
  | |- always _ _ _ => solve [eauto]
  end.

Ltac always_auto := repeat always_step.

Lemma getblocks_always fd :
  always getblocks_calls no_name_line (getblocks fd).
Proof. unfold getblocks. always_auto. Qed.

Lemma blkdiscard_all_always path fd :
  always blkdiscard_all_calls no_name_line (blkdiscard_all path fd).
Proof. unfold blkdiscard_all. always_auto. Qed.

Lemma write_label_always src i arr :
  always (A:=list ascii) (fun _ => false) (fun _ => false)
    (write_label src i arr).
Proof.
  revert i arr. induction src as [|c src IH]; intros i arr; simpl.
  - destruct (store arr i zero); exact I.
  - destruct (store arr i c); [apply IH|exact I].
Qed.

Lemma write_sb_common_always dev sbc bdev nb :
  always write_sb_common_calls any_output (write_sb_common dev sbc bdev nb).
Proof.
  unfold write_sb_common, write_sb_common_bdev, write_sb_common_cdev.
  always_auto;
    eapply always_mono; try apply write_label_always; discriminate.
Qed.

Lemma write_sb_reopen_always n dev fd opened :
  always write_sb_open_calls no_name_line (write_sb_reopen n dev fd opened).
Proof.
  revert fd opened. induction n as [|n IH]; intros fd opened; simpl.
  - exact I.
  - split; [reflexivity|]. intros _. split; [reflexivity|]. intros fd'.
    destruct (fd' =? -1); simpl; auto.
Qed.

Lemma write_sb_open_always dev force :
  always write_sb_open_calls no_name_line (write_sb_open dev force).
Proof.
  unfold write_sb_open.
  pose proof write_sb_reopen_always. always_auto.
Qed.

Lemma write_sb_wipe_always dev fd wipe force :
  always write_sb_wipe_calls no_name_line (write_sb_wipe dev fd wipe force).
Proof. unfold write_sb_wipe. always_auto. Qed.

Lemma write_sb_probe_always dev fd :
  always write_sb_probe_calls no_name_line (write_sb_probe dev fd).
Proof. unfold write_sb_probe. always_auto. Qed.

Lemma write_sb_put_always dev fd sbc sb :
  always write_sb_format_calls no_name_line (write_sb_put dev fd sbc sb).
Proof.
  unfold write_sb_put.
  assert (Hd : always write_sb_format_calls no_name_line
                 (blkdiscard_all dev fd)).
  { eapply always_mono; [| |apply blkdiscard_all_always]; auto.
    intros c Hc. unfold write_sb_format_calls. rewrite Hc.
    now rewrite !orb_true_r. }
  always_auto.
Qed.

Lemma write_sb_format_always dev fd sbc bdev :
  always write_sb_format_calls any_output (write_sb_format dev fd sbc bdev).
Proof.
  unfold write_sb_format.
  assert (Hg : always write_sb_format_calls any_output (getblocks fd)).
  { eapply always_mono; [| |apply getblocks_always]; auto.
    intros c Hc. unfold write_sb_format_calls. now rewrite Hc. }
  assert (Hc : forall nb, always write_sb_format_calls any_output
                 (write_sb_common dev sbc bdev nb)).
  { intros nb. eapply always_mono; [| |apply write_sb_common_always]; auto.
    intros c Hc. unfold write_sb_format_calls. rewrite Hc.
    now rewrite !orb_true_r. }
  assert (Hp : forall sb, always write_sb_format_calls any_output
                 (write_sb_put dev fd sbc sb)).
  { intros sb. eapply always_mono; [| |apply write_sb_put_always]; auto. }
  always_auto.
Qed.

Lemma write_sb_always dev sbc bdev force :
  always write_sb_calls any_output (write_sb dev sbc bdev force).
Proof.
  unfold write_sb.
  apply always_bind;
    [|intros fd; apply always_bind;
        [|intros _; apply always_bind; [|intros _]]].
  - eapply always_mono; [| |apply write_sb_open_always]; auto.
    intros c Hc. unfold write_sb_calls. now rewrite Hc.
  - eapply always_mono; [| |apply write_sb_wipe_always]; auto.
    intros c Hc. unfold write_sb_calls. rewrite Hc. now rewrite !orb_true_r.
  - eapply always_mono; [| |apply write_sb_probe_always]; auto.
    intros c Hc. unfold write_sb_calls. rewrite Hc. now rewrite !orb_true_r.
  - eapply always_mono; [| |apply write_sb_format_always]; auto.
    intros c Hc. unfold write_sb_calls. rewrite Hc. now rewrite !orb_true_r.
Qed.

Lemma get_blocksize_always path :
  always get_blocksize_calls no_name_line (get_blocksize path).
Proof. unfold get_blocksize. always_auto. Qed.



Lemma existsb_none (P : event -> bool) Q R t :
  (forall ev, event_ok Q R ev = true -> P ev = false) ->
  forallb (event_ok Q R) t = true -> existsb P t = false.
Proof.
  intros HP. induction t as [|ev t IH]; simpl; auto.
  intros H. apply andb_true_iff in H. destruct H as [Hev Ht].
  rewrite (HP ev Hev). simpl. auto.
Qed.

(** ** write_sb_common *)

Lemma head_label (sbc : sb_context) (bdev : bool) (u : uuid_t) :
  sb_label (write_sb_common_head sbc bdev u)
  = repeat zero (Z.to_nat SB_LABEL_SIZE).
Proof. reflexivity. Qed.

Lemma head_version (sbc : sb_context) (bdev : bool) (u : uuid_t) :
  sb_version (write_sb_common_head sbc bdev u)
  = if bdev then BCACHE_SB_VERSION_BDEV else BCACHE_SB_VERSION_CDEV.
Proof. reflexivity. Qed.

(** A cache device: the run of [write_sb_common] after [uuid_generate]. *)
Lemma run_write_sb_common_cache dev sbc nb E h e u e1 :
  version_is_bdev BCACHE_SB_VERSION_CDEV = false ->
  set_bucket_size_stores (sbc_bucket_size sbc) ->
  sbc_bucket_size sbc <> 0 ->
  E h c_uuid_generate = (u, e1) ->
  (nb < 128 ->
   run (write_sb_common dev sbc false nb) E h e =
     (Exited EXIT_FAILURE, e1,
      [EvCall c_uuid_generate u e1;
       EvOut (o_fprintf stderr "Not enough buckets: %llu, need %u\n"
                [a_int nb; a_int 128])])) /\
  (128 <= nb ->
   exists sb0 t o,
     run (write_sb_common dev sbc false nb) E h e =
       (o, e1, EvCall c_uuid_generate u e1 :: t) /\
     (o = Faulted \/ exists arr', o = Done (set_sb_label sb0 arr')) /\
     (label_fits sbc -> exists arr', o = Done (set_sb_label sb0 arr')) /\
     sb_nbuckets sb0 = nb /\
     sb_first_bucket sb0 = 23 / sbc_bucket_size sbc + 1 /\
     names_printed t = [dev] /\
     forallb (event_ok (fun _ => false) any_output) t = true).
Proof.
  intros Hc Hs Hb HE.
  destruct (Hs (write_sb_common_head sbc false u)) as [Hsz Hlbl].
  unfold write_sb_common. exec. rewrite HE.
  unfold SB_IS_BDEV. rewrite head_version, Hc.
  unfold write_sb_common_cdev, udiv.
  cbn [sb_bucket_size set_sb_nr_in_set set_sb_nbuckets].
  rewrite Hsz. destruct (Z.eqb_spec (sbc_bucket_size sbc) 0) as [|_];
    [contradiction|].
  exec. cbn [sb_nbuckets set_sb_first_bucket set_sb_nr_in_set set_sb_nbuckets].
  replace (Z.shiftl 1 7) with 128 by reflexivity.
  split.
  - intros Hlt. apply Z.ltb_lt in Hlt. rewrite Hlt. reflexivity.
  - intros Hge. apply Z.ltb_ge in Hge. rewrite Hge. exec.
    match goal with
    | |- context [run (bind (write_label _ _ (sb_label ?sb)) _) ?E ?h ?e] =>
        destruct (run_write_label sbc sb E h e) as (o & Hrun & Ho & Hfit);
        exists sb
    end.
    rewrite Hrun. exec. do 2 eexists. split; [reflexivity|].
    split; [exact Ho|]. split.
    { intros Hf. apply Hfit; [exact Hf|].
      cbn [sb_label SET_CACHE_REPLACEMENT SET_CACHE_DISCARD set_sb_flags
           set_sb_first_bucket set_sb_nr_in_set set_sb_nbuckets].
      rewrite Hlbl, head_label. apply repeat_length. }
    repeat split; reflexivity.
Qed.

Lemma head_flags (sbc : sb_context) (bdev : bool) (u : uuid_t) :
  sb_flags (write_sb_common_head sbc bdev u) = 0.
Proof. reflexivity. Qed.

Lemma data_offset_label sb d :
  sb_label (write_sb_common_data_offset sb d) = sb_label sb.
Proof.
  unfold write_sb_common_data_offset.
  destruct (negb _); [|reflexivity]. now destruct (_ <? _).
Qed.

Lemma data_offset_flags sb d :
  sb_flags (write_sb_common_data_offset sb d) = sb_flags sb.
Proof.
  unfold write_sb_common_data_offset.
  destruct (negb _); [|reflexivity]. now destruct (_ <? _).
Qed.

Lemma data_offset_version sb d :
  sb_version (write_sb_common_data_offset sb d) =
  if negb (d =? BDEV_DATA_START_DEFAULT) then
    if sb_version sb <? BCACHE_SB_VERSION_BDEV_WITH_OFFSET
    then BCACHE_SB_VERSION_BDEV_WITH_OFFSET else sb_version sb
  else sb_version sb.
Proof.
  unfold write_sb_common_data_offset.
  destruct (negb _); [|reflexivity]. now destruct (_ <? _).
Qed.

Lemma data_offset_data_offset sb d :
  sb_data_offset (write_sb_common_data_offset sb d) =
  if negb (d =? BDEV_DATA_START_DEFAULT) then d else sb_data_offset sb.
Proof.
  unfold write_sb_common_data_offset.
  destruct (negb _); [|reflexivity]. now destruct (_ <? _).
Qed.

(** A backing device: the run of [write_sb_common] after [uuid_generate]
    and [is_zoned_device]. *)
Lemma run_write_sb_common_backing dev sbc nb E h e u e1 zoned e2 :
  version_is_bdev BCACHE_SB_VERSION_BDEV = true ->
  E h c_uuid_generate = (u, e1) ->
  E (h ++ [EvCall c_uuid_generate u e1])%list (c_is_zoned_device dev)
    = (Returns zoned, e2) ->
  let f := flags_SET_BDEV_CACHE_MODE 0
             (if sbc_writeback sbc then CACHE_MODE_WRITEBACK
              else CACHE_MODE_WRITETHROUGH) in
  let downgrade :=
    (zoned && (flags_BDEV_CACHE_MODE f =? CACHE_MODE_WRITEBACK))%bool in
  let d := sbc_data_offset sbc in
  exists sb0 t o,
    run (write_sb_common dev sbc true nb) E h e =
      (o, e2,
       EvCall c_uuid_generate u e1
       :: EvCall (c_is_zoned_device dev) (Returns zoned) e2
       :: ((if downgrade then [zoned_notice dev] else []) ++ t)%list) /\
    (o = Faulted \/ exists arr', o = Done (set_sb_label sb0 arr')) /\
    (label_fits sbc -> exists arr', o = Done (set_sb_label sb0 arr')) /\
    sb_flags sb0 =
      (if downgrade then flags_SET_BDEV_CACHE_MODE f CACHE_MODE_WRITETHROUGH
       else f) /\
    sb_version sb0 =
      (if negb (d =? BDEV_DATA_START_DEFAULT) then
         if BCACHE_SB_VERSION_BDEV <? BCACHE_SB_VERSION_BDEV_WITH_OFFSET
         then BCACHE_SB_VERSION_BDEV_WITH_OFFSET else BCACHE_SB_VERSION_BDEV
       else BCACHE_SB_VERSION_BDEV) /\
    sb_data_offset sb0 =
      (if negb (d =? BDEV_DATA_START_DEFAULT) then d else 0) /\
    names_printed t = [dev] /\
    ~ In (zoned_notice dev) t /\
    forallb (event_ok (fun _ => false) any_output) t = true.
Proof.
  intros Hb HE1 HE2 f downgrade d.
  unfold write_sb_common. exec. rewrite HE1.
  unfold SB_IS_BDEV. rewrite head_version, Hb.
  unfold write_sb_common_bdev. exec. rewrite HE2. exec.
  unfold BDEV_CACHE_MODE, SET_BDEV_CACHE_MODE.
  cbn [sb_flags set_sb_flags]. rewrite !head_flags.
  fold f. fold downgrade. fold d.
  unfold zoned_notice.
  destruct downgrade; exec;
    match goal with
    | |- context [run (bind (write_label _ _ (sb_label ?sb)) _) ?E ?h ?e] =>
        destruct (run_write_label sbc sb E h e) as (o & Hrun & Ho & Hfit);
        exists sb
    end;
    rewrite Hrun; exec;
    (do 2 eexists; split; [reflexivity|]; split; [exact Ho|]; split;
     [intros Hf; apply Hfit; [exact Hf|];
      rewrite data_offset_label; cbn [sb_label set_sb_flags];
      rewrite head_label; apply repeat_length|];
     rewrite data_offset_flags, data_offset_version, data_offset_data_offset;
     repeat split; try reflexivity;
     intros Hin; simpl in Hin;
     repeat (destruct Hin as [Hin|Hin]; [discriminate Hin|]); exact Hin).
Qed.

(** When [is_zoned_device] does not come back, neither does
    [write_sb_common]. *)
Lemma run_write_sb_common_backing_exits dev sbc nb E h e u e1 s e2 :
  version_is_bdev BCACHE_SB_VERSION_BDEV = true ->
  E h c_uuid_generate = (u, e1) ->
  E (h ++ [EvCall c_uuid_generate u e1])%list (c_is_zoned_device dev)
    = (Exits s, e2) ->
  run (write_sb_common dev sbc true nb) E h e =
    (Exited s, e2,
     [EvCall c_uuid_generate u e1;
      EvCall (c_is_zoned_device dev) (Exits s) e2]).
Proof.
  intros Hb HE1 HE2.
  unfold write_sb_common. exec. rewrite HE1.
  unfold SB_IS_BDEV. rewrite head_version, Hb.
  unfold write_sb_common_bdev. exec. rewrite HE2. reflexivity.
Qed.

(** C6: building the superblock of a backing device.  When [is_zoned_device]
    answers [zoned], the superblock is built and its cache mode is
    writeback exactly when writeback was asked for and the device is not
    zoned, and writethrough otherwise; the notice of lines 282-283 is
    printed exactly when writeback was asked for on a zoned device. *)
Theorem zoned_writeback_downgrade dev sbc nb E h e :
  version_is_bdev BCACHE_SB_VERSION_BDEV = true ->
  cache_mode_stored ->
  CACHE_MODE_WRITEBACK <> CACHE_MODE_WRITETHROUGH ->
  label_fits sbc ->
  let r := run (write_sb_common dev sbc true nb) E h e in
  forall zoned, zoned_reply (events_of r) = Some zoned ->
  exists sb,
    outcome_of r = Done sb /\
    BDEV_CACHE_MODE sb =
      (if sbc_writeback sbc then
         if zoned then CACHE_MODE_WRITETHROUGH else CACHE_MODE_WRITEBACK
       else CACHE_MODE_WRITETHROUGH) /\
    (In (zoned_notice dev) (events_of r)
     <-> sbc_writeback sbc = true /\ zoned = true).
Proof.
  intros Hb Hmode Hne Hfit r zoned. subst r.
  destruct (E h c_uuid_generate) as [u e1] eqn:HE1.
  destruct (E (h ++ [EvCall c_uuid_generate u e1])%list
              (c_is_zoned_device dev)) as [[z|s] e2] eqn:HE2.
  - destruct (run_write_sb_common_backing dev sbc nb E h e u e1 z e2 Hb HE1 HE2)
      as (sb0 & t & o & Hrun & _ & Hdone & Hflags & _ & _ & _ & Hnot & _).
    destruct (Hdone Hfit) as [arr' ->].
    rewrite Hrun. cbn [events_of outcome_of fst snd zoned_reply].
    intros Hz. injection Hz as ->.
    exists (set_sb_label sb0 arr'). split; [reflexivity|].
    unfold BDEV_CACHE_MODE. cbn [sb_flags set_sb_label]. rewrite Hflags.
    destruct (sbc_writeback sbc).
    + rewrite (Hmode 0 CACHE_MODE_WRITEBACK) by auto.
      rewrite Z.eqb_refl, andb_true_r.
      destruct zoned.
      * rewrite Hmode by auto. split; [reflexivity|].
        split; [auto|]. intros _. right. right. left. reflexivity.
      * rewrite Hmode by auto. split; [reflexivity|].
        split; [|intros [_ H]; discriminate H].
        intros [H|[H|H]]; try discriminate H. contradiction.
    + rewrite (Hmode 0 CACHE_MODE_WRITETHROUGH) by auto.
      destruct (Z.eqb_spec CACHE_MODE_WRITETHROUGH CACHE_MODE_WRITEBACK)
        as [Heq|_]; [congruence|].
      rewrite andb_false_r. rewrite Hmode by auto. split; [reflexivity|].
      split; [|intros [H _]; discriminate H].
      intros [H|[H|H]]; try discriminate H. contradiction.
  - rewrite (run_write_sb_common_backing_exits dev sbc nb E h e u e1 s e2
               Hb HE1 HE2).
    cbn. discriminate.
Qed.

(** C8: building the superblock of a backing device.  With a data offset
    other than [BDEV_DATA_START_DEFAULT] the version becomes
    [BCACHE_SB_VERSION_BDEV_WITH_OFFSET] and the offset is stored; with the
    default offset the version stays [BCACHE_SB_VERSION_BDEV] and the
    offset member keeps the zero of [memset].  The superblock is built
    whenever [is_zoned_device] comes back. *)
Theorem backing_version_and_data_offset dev sbc nb E h e :
  version_is_bdev BCACHE_SB_VERSION_BDEV = true ->
  BCACHE_SB_VERSION_BDEV < BCACHE_SB_VERSION_BDEV_WITH_OFFSET ->
  let d := sbc_data_offset sbc in
  let r := run (write_sb_common dev sbc true nb) E h e in
  (forall sb, outcome_of r = Done sb ->
     (d <> BDEV_DATA_START_DEFAULT ->
      sb_version sb = BCACHE_SB_VERSION_BDEV_WITH_OFFSET /\
      sb_data_offset sb = d) /\
     (d = BDEV_DATA_START_DEFAULT ->
      sb_version sb = BCACHE_SB_VERSION_BDEV /\ sb_data_offset sb = 0)) /\
  (label_fits sbc ->
   forall zoned, zoned_reply (events_of r) = Some zoned ->
   exists sb, outcome_of r = Done sb).
Proof.
  intros Hb Hlt d r. subst r.
  destruct (E h c_uuid_generate) as [u e1] eqn:HE1.
  destruct (E (h ++ [EvCall c_uuid_generate u e1])%list
              (c_is_zoned_device dev)) as [[z|s] e2] eqn:HE2.
  - destruct (run_write_sb_common_backing dev sbc nb E h e u e1 z e2 Hb HE1 HE2)
      as (sb0 & t & o & Hrun & Ho & Hdone & _ & Hver & Hoff & _).
    rewrite Hrun. cbn [outcome_of events_of fst snd]. fold d in Hver, Hoff.
    apply Z.ltb_lt in Hlt. rewrite Hlt in Hver.
    split.
    + intros sb Hsb. destruct Ho as [->|[arr' ->]]; [discriminate|].
      injection Hsb as <-. cbn [sb_version sb_data_offset set_sb_label].
      rewrite Hver, Hoff. split; intros Hd.
      * apply Z.eqb_neq in Hd. rewrite Hd. auto.
      * apply Z.eqb_eq in Hd. rewrite Hd. auto.
    + intros Hfit zoned _. destruct (Hdone Hfit) as [arr' ->]. eauto.
  - rewrite (run_write_sb_common_backing_exits dev sbc nb E h e u e1 s e2
               Hb HE1 HE2).
    cbn. split; [discriminate|]. intros _ zoned H. discriminate H.
Qed.

(** C9: building the superblock of a cache device with bucket size [B].
    Every superblock built has [first_bucket = 23 / B + 1], in integers, and
    one is built whenever [B] is positive, there are at least 128 buckets
    and the label fits. *)
Theorem first_bucket_formula dev sbc nb E h e :
  version_is_bdev BCACHE_SB_VERSION_CDEV = false ->
  set_bucket_size_stores (sbc_bucket_size sbc) ->
  let B := sbc_bucket_size sbc in
  let r := run (write_sb_common dev sbc false nb) E h e in
  (forall sb, outcome_of r = Done sb -> sb_first_bucket sb = 23 / B + 1) /\
  (0 < B -> 128 <= nb -> label_fits sbc ->
   exists sb,
     outcome_of r = Done sb /\
     sb_first_bucket sb = 23 / B + 1 /\
     1 <= sb_first_bucket sb <= 24).
Proof.
  intros Hc Hs B r. subst r.
  destruct (E h c_uuid_generate) as [u e1] eqn:HE.
  destruct (Z.eq_dec B 0) as [HB0|HB0].
  - split; [|intros HB; lia].
    intros sb. unfold write_sb_common. exec. rewrite HE.
    unfold SB_IS_BDEV. rewrite head_version, Hc.
    unfold write_sb_common_cdev, udiv.
    cbn [sb_bucket_size set_sb_nr_in_set set_sb_nbuckets].
    destruct (Hs (write_sb_common_head sbc false u)) as [-> _].
    fold B. rewrite HB0. cbn. discriminate.
  - destruct (run_write_sb_common_cache dev sbc nb E h e u e1 Hc Hs HB0 HE)
      as [Hsmall Hlarge].
    destruct (Z.lt_ge_cases nb 128) as [Hnb|Hnb].
    + rewrite (Hsmall Hnb). cbn. split; [discriminate|]. intros; lia.
    + destruct (Hlarge Hnb)
        as (sb0 & t & o & Hrun & Ho & Hdone & _ & Hfb & _).
      rewrite Hrun. cbn [outcome_of fst snd]. fold B in Hfb. split.
      * intros sb Hsb. destruct Ho as [->|[arr' ->]]; [discriminate|].
        injection Hsb as <-. exact Hfb.
      * intros HB _ Hfit. destruct (Hdone Hfit) as [arr' ->].
        exists (set_sb_label sb0 arr'). split; [reflexivity|].
        cbn [sb_first_bucket set_sb_label]. rewrite Hfb.
        split; [reflexivity|].
        assert (0 <= 23 / B <= 23).
        { split; [apply Z.div_pos; lia|].
          apply Z.div_le_upper_bound; nia. }
        lia.
Qed.

(** ** write_sb: the checks of lines 420-456 *)

(** Destruct the reply of the next call in a goal about [run]. *)
Ltac step E :=
  match goal with
  | |- context [E ?h ?c] =>
      let r := fresh "r" in
      let e := fresh "e" in
      let HE := fresh "HE" in
      destruct (E h c) as [r e] eqn:HE; exec
  end.

Ltac branch :=
  match goal with
  | |- context [run (if ?b then _ else _) _ _ _] =>
      let Hb := fresh "Hb" in destruct b eqn:Hb; exec
  end.

Lemma write_sb_wipe_magic dev fd wipe force E h e :
  let r := run (write_sb_wipe dev fd wipe force) E h e in
  existsb reads_bcache_magic (events_of r) = true ->
  (wipe = false -> force = false ->
   outcome_of r = Exited EXIT_FAILURE /\
   exists ev,
     events_of r = (ev :: already_bcache dev)%list /\
     writes_device ev = false) /\
  (wipe = true \/ force = true ->
   exists buf e1 w e2 post,
     events_of r =
       EvCall (c_pread fd sizeof_cache_sb_disk SB_START)
         (sizeof_cache_sb_disk, buf) e1
       :: EvCall (c_pwrite fd (repeat x00 (Z.to_nat SB_START))
                    sizeof_cache_sb_disk SB_START) w e2
       :: post).
Proof.
  intros r. subst r. unfold write_sb_wipe. exec.
  step E. destruct r as [n buf]. exec.
  destruct (Z.eqb_spec n sizeof_cache_sb_disk) as [->|Hn]; exec.
  2:{ cbn [emit events_of snd fst existsb reads_bcache_magic].
      apply Z.eqb_neq in Hn. rewrite Hn, !andb_false_r. discriminate. }
  destruct (memcmp_eq (sb_disk_magic buf) bcache_magic 16) eqn:Hm.
  - intros _. split.
    + intros -> ->. exec. split; [reflexivity|].
      eexists. split; reflexivity.
    + intros Hw.
      assert (Hw' : (if force then true else wipe) = true).
      { destruct Hw as [->| ->]; [now destruct force|reflexivity]. }
      rewrite Hw'. exec. step E. branch; do 5 eexists; reflexivity.
  - exec. cbn [existsb reads_bcache_magic fst snd].
    rewrite Hm, !andb_false_r. discriminate.
Qed.

Lemma write_sb_probe_finds dev fd E h e :
  let r := run (write_sb_probe dev fd) E h e in
  (existsb probe_finds_signature (events_of r) = true ->
   outcome_of r = Exited EXIT_FAILURE /\
   exists pre, events_of r = (pre ++ non_bcache_superblock dev)%list) /\
  ((forall h', fst (E h' c_blkid_do_probe) = 0) ->
   outcome_of r <> Done tt).
Proof.
  intros r. subst r. unfold write_sb_probe. exec.
  step E. destruct r; exec;
    [|split; [discriminate|intros _; discriminate]].
  step E. branch; [split; [discriminate|intros _; discriminate]|].
  step E. branch; [split; [discriminate|intros _; discriminate]|].
  step E. branch.
  - split; [|intros _; discriminate].
    intros _. split; [reflexivity|].
    eexists [_; _; _; _]. reflexivity.
  - split.
    + cbn [events_of emit snd existsb probe_finds_signature orb].
      match goal with Hx : (_ =? 0) = false |- _ => rewrite Hx end.
      discriminate.
    + intros Hall.
      match goal with
      | HE : E ?hh c_blkid_do_probe = (?x, _),
        Hx : (?x =? 0) = false |- _ =>
          specialize (Hall hh); rewrite HE in Hall; cbn in Hall;
          rewrite Hall in Hx; discriminate Hx
      end.
Qed.

(** ** write_sb as a whole *)

(** What the parts of [write_sb] cannot do. *)
Lemma open_does_not_read_or_write ev :
  event_ok write_sb_open_calls no_name_line ev = true ->
  reads_bcache_magic ev = false /\ writes_device ev = false
  /\ probe_finds_signature ev = false.
Proof. destruct ev as [c r e|o]; [destruct c|]; simpl; auto; discriminate. Qed.

Lemma wipe_does_not_probe ev :
  event_ok write_sb_wipe_calls no_name_line ev = true ->
  probe_finds_signature ev = false.
Proof. destruct ev as [c r e|o]; [destruct c|]; simpl; auto; discriminate. Qed.

Lemma probe_does_not_read_or_write ev :
  event_ok write_sb_probe_calls no_name_line ev = true ->
  reads_bcache_magic ev = false /\ writes_device ev = false.
Proof. destruct ev as [c r e|o]; [destruct c|]; simpl; auto; discriminate. Qed.

Lemma format_does_not_read_or_probe ev :
  event_ok write_sb_format_calls any_output ev = true ->
  reads_bcache_magic ev = false /\ probe_finds_signature ev = false.
Proof. destruct ev as [c r e|o]; [destruct c|]; simpl; auto; discriminate. Qed.

(** The events of the four parts of a run of [write_sb]. *)
Lemma write_sb_parts dev sbc bdev force E h e :
  let r := run (write_sb dev sbc bdev force) E h e in
  let r0 := run (write_sb_open dev force) E h e in
  forallb (event_ok write_sb_open_calls no_name_line) (events_of r0) = true /\
  match outcome_of r0 with
  | Done fd =>
      let h1 := (h ++ events_of r0)%list in
      let r1 := run (write_sb_wipe dev fd (sbc_wipe_bcache sbc) force) E h1
                  (errno_of r0) in
      match outcome_of r1 with
      | Done _ =>
          let h2 := (h1 ++ events_of r1)%list in
          let r2 := run (write_sb_probe dev fd) E h2 (errno_of r1) in
          match outcome_of r2 with
          | Done _ =>
              let h3 := (h2 ++ events_of r2)%list in
              let r3 := run (write_sb_format dev fd sbc bdev) E h3
                          (errno_of r2) in
              outcome_of r = outcome_of r3 /\
              events_of r =
                (events_of r0 ++ events_of r1 ++ events_of r2
                 ++ events_of r3)%list /\
              forallb (event_ok write_sb_format_calls any_output)
                (events_of r3) = true
          | o =>
              outcome_of r = o /\
              events_of r = (events_of r0 ++ events_of r1 ++ events_of r2)%list
          end /\
          forallb (event_ok write_sb_probe_calls no_name_line)
            (events_of r2) = true
      | o =>
          outcome_of r = o /\
          events_of r = (events_of r0 ++ events_of r1)%list
      end
  | Exited s => outcome_of r = Exited s /\ events_of r = events_of r0
  | Faulted => outcome_of r = Faulted /\ events_of r = events_of r0
  end.
Proof.
  cbv zeta. split; [apply always_run, write_sb_open_always|].
  unfold write_sb. rewrite run_bind.
  destruct (run (write_sb_open dev force) E h e) as [[[fd|s|] e0] t0];
    cbn [outcome_of events_of errno_of fst snd]; auto.
  rewrite run_bind.
  destruct (run (write_sb_wipe dev fd (sbc_wipe_bcache sbc) force) E
              (h ++ t0)%list e0) as [[[[]|s|] e1] t1];
    cbn [outcome_of events_of errno_of fst snd prepend]; auto.
  rewrite run_bind.
  pose proof (always_run _ _ _ E ((h ++ t0) ++ t1)%list e1
                (write_sb_probe_always dev fd)) as Hp.
  destruct (run (write_sb_probe dev fd) E ((h ++ t0) ++ t1)%list e1)
    as [[[[]|s|] e2] t2];
    cbn [outcome_of events_of errno_of fst snd prepend] in *; auto.
  pose proof (always_run _ _ _ E (((h ++ t0) ++ t1) ++ t2)%list e2
                (write_sb_format_always dev fd sbc bdev)) as Hf.
  destruct (run (write_sb_format dev fd sbc bdev) E
              (((h ++ t0) ++ t1) ++ t2)%list e2) as [[o3 e3] t3].
  cbn [outcome_of events_of errno_of fst snd prepend] in *. auto.
Qed.

(** C1: the direct write path.  When the read at [SB_START] gives a record
    with the bcache magic: without [--wipe-bcache] and without [--force]
    the run ends in [exit(EXIT_FAILURE)] after the message of lines 436-438
    and nothing has been written to the device; with either flag the very
    next call is the write of zeroes over that record.  When blkid finds a
    signature the run ends in [exit(EXIT_FAILURE)] after the message of
    lines 452-454, whatever the flags; and no run succeeds in an
    environment where blkid always finds one. *)
Theorem existing_superblock_guard dev sbc bdev force E h e :
  let r := run (write_sb dev sbc bdev force) E h e in
  (existsb reads_bcache_magic (events_of r) = true ->
   (sbc_wipe_bcache sbc = false -> force = false ->
    outcome_of r = Exited EXIT_FAILURE /\
    existsb writes_device (events_of r) = false /\
    exists pre, events_of r = (pre ++ already_bcache dev)%list) /\
   (sbc_wipe_bcache sbc = true \/ force = true ->
    exists pre fd buf e1 w e2 post,
      events_of r =
        (pre
         ++ EvCall (c_pread fd sizeof_cache_sb_disk SB_START)
              (sizeof_cache_sb_disk, buf) e1
         :: EvCall (c_pwrite fd (repeat x00 (Z.to_nat SB_START))
                      sizeof_cache_sb_disk SB_START) w e2
         :: post)%list /\
      existsb writes_device pre = false)) /\
  (existsb probe_finds_signature (events_of r) = true ->
   outcome_of r = Exited EXIT_FAILURE /\
   exists pre, events_of r = (pre ++ non_bcache_superblock dev)%list) /\
  ((forall h', fst (E h' c_blkid_do_probe) = 0) -> outcome_of r <> Done tt).
Proof.
  intros r.
  pose proof (write_sb_parts dev sbc bdev force E h e) as Hparts.
  cbv zeta in Hparts. fold r in Hparts. destruct Hparts as [H0 Hparts].
  set (r0 := run (write_sb_open dev force) E h e) in *.
  assert (H0r : existsb reads_bcache_magic (events_of r0) = false).
  { eapply existsb_none; [|exact H0].
    intros ev Hev. now apply open_does_not_read_or_write. }
  assert (H0w : existsb writes_device (events_of r0) = false).
  { eapply existsb_none; [|exact H0].
    intros ev Hev. now apply open_does_not_read_or_write. }
  assert (H0p : existsb probe_finds_signature (events_of r0) = false).
  { eapply existsb_none; [|exact H0].
    intros ev Hev. now apply open_does_not_read_or_write. }
  destruct (outcome_of r0) as [fd|s|].
  2,3: destruct Hparts as [Ho Hev]; rewrite Ho, Hev, H0r, H0p;
       repeat split; discriminate.
  set (r1 := run (write_sb_wipe dev fd (sbc_wipe_bcache sbc) force) E
               (h ++ events_of r0)%list (errno_of r0)) in *.
  pose proof (write_sb_wipe_magic dev fd (sbc_wipe_bcache sbc) force E
                (h ++ events_of r0)%list (errno_of r0)) as Hmagic.
  cbv zeta in Hmagic. fold r1 in Hmagic.
  assert (H1p : existsb probe_finds_signature (events_of r1) = false).
  { eapply existsb_none;
      [|apply always_run, (write_sb_wipe_always dev fd)].
    apply wipe_does_not_probe. }
  assert (Hgoal_magic :
    forall rest,
      events_of r = (events_of r0 ++ events_of r1 ++ rest)%list ->
      existsb reads_bcache_magic rest = false ->
      (outcome_of r1 = Exited EXIT_FAILURE -> rest = [] /\
         outcome_of r = Exited EXIT_FAILURE) ->
      existsb reads_bcache_magic (events_of r) = true ->
      (sbc_wipe_bcache sbc = false -> force = false ->
       outcome_of r = Exited EXIT_FAILURE /\
       existsb writes_device (events_of r) = false /\
       exists pre, events_of r = (pre ++ already_bcache dev)%list) /\
      (sbc_wipe_bcache sbc = true \/ force = true ->
       exists pre fd buf e1 w e2 post,
         events_of r =
           (pre
            ++ EvCall (c_pread fd sizeof_cache_sb_disk SB_START)
                 (sizeof_cache_sb_disk, buf) e1
            :: EvCall (c_pwrite fd (repeat x00 (Z.to_nat SB_START))
                         sizeof_cache_sb_disk SB_START) w e2
            :: post)%list /\
         existsb writes_device pre = false)).
  { intros rest Hev Hrest Hexit Hread.
    rewrite Hev, !existsb_app, H0r, Hrest, orb_false_r in Hread.
    cbn [orb] in Hread. destruct (Hmagic Hread) as [Hno Hyes]. split.
    - intros Hw Hf. destruct (Hno Hw Hf) as (Ho1 & ev & Hev1 & Hevw).
      destruct (Hexit Ho1) as [-> Ho]. split; [exact Ho|].
      rewrite Hev, Hev1, app_nil_r. split.
      + rewrite existsb_app, H0w. cbn. now rewrite Hevw.
      + exists (events_of r0 ++ [ev])%list. now rewrite <- app_assoc.
    - intros Hw.
      destruct (Hyes Hw) as (buf & e1 & w & e2 & post & Hev1).
      exists (events_of r0), fd, buf, e1, w, e2, (post ++ rest)%list.
      split; [|exact H0w]. rewrite Hev, Hev1. reflexivity. }
  destruct (outcome_of r1) as [[]|s|] eqn:Ho1.
  2,3: destruct Hparts as [Ho Hev]; split;
       [apply (Hgoal_magic []);
        [now rewrite app_nil_r|reflexivity|
         intros Hs; split; [reflexivity|now rewrite Ho, Hs]]
       |rewrite Ho, Hev, existsb_app, H0p, H1p; split; discriminate].
  destruct Hparts as [Hparts H2].
  set (r2 := run (write_sb_probe dev fd) E
               ((h ++ events_of r0) ++ events_of r1)%list (errno_of r1)) in *.
  pose proof (write_sb_probe_finds dev fd E
                ((h ++ events_of r0) ++ events_of r1)%list (errno_of r1))
    as Hprobe.
  cbv zeta in Hprobe. fold r2 in Hprobe. destruct Hprobe as [Hfound Hnever].
  assert (H2r : existsb reads_bcache_magic (events_of r2) = false).
  { eapply existsb_none; [|exact H2].
    intros ev Hev. now apply probe_does_not_read_or_write. }
  destruct (outcome_of r2) as [[]|s|] eqn:Ho2.
  - destruct Hparts as (Ho & Hev & H3).
    set (r3 := run (write_sb_format dev fd sbc bdev) E
                 (((h ++ events_of r0) ++ events_of r1) ++ events_of r2)%list
                 (errno_of r2)) in *.
    assert (H3r : existsb reads_bcache_magic (events_of r3) = false).
    { eapply existsb_none; [|exact H3].
      intros ev Hev'. now apply format_does_not_read_or_probe. }
    assert (H3p : existsb probe_finds_signature (events_of r3) = false).
    { eapply existsb_none; [|exact H3].
      intros ev Hev'. now apply format_does_not_read_or_probe. }
    split; [|split].
    + apply (Hgoal_magic (events_of r2 ++ events_of r3)%list);
        [exact Hev|now rewrite existsb_app, H2r, H3r|discriminate].
    + rewrite Hev, !existsb_app, H0p, H1p, H3p, orb_false_r. cbn [orb].
      intros Hp. destruct (Hfound Hp) as [Hx _]. discriminate Hx.
    + intros Hall. exfalso. now apply (Hnever Hall).
  - destruct Hparts as (Ho & Hev). split; [|split].
    + apply (Hgoal_magic (events_of r2)); [exact Hev|exact H2r|discriminate].
    + rewrite Ho, Hev, !existsb_app, H0p, H1p. cbn [orb].
      intros Hp. destruct (Hfound Hp) as [Hx [pre Hpre]].
      split; [exact Hx|].
      exists (events_of r0 ++ events_of r1 ++ pre)%list.
      rewrite Hpre, <- !app_assoc. reflexivity.
    + rewrite Ho. discriminate.
  - destruct Hparts as (Ho & Hev). split; [|split].
    + apply (Hgoal_magic (events_of r2)); [exact Hev|exact H2r|discriminate].
    + rewrite Ho, Hev, !existsb_app, H0p, H1p. cbn [orb].
      intros Hp. destruct (Hfound Hp) as [Hx _]. discriminate Hx.
    + rewrite Ho. discriminate.
Qed.

(** C2: formatting a cache device of [S] sectors with buckets of [B]
    sectors (lines 458-491 of [write_sb], where [S] is what [getblocks]
    returns).  The bucket count is [S / B] in integers.  Below 128 the run
    ends in [exit(EXIT_FAILURE)] after the message of lines 315-316 and
    before anything is written; from 128 on the superblock is built with
    [nbuckets = S / B], and that superblock is the one put on the device. *)
Theorem bucket_count_floor dev fd sbc E h e S e1 t1 :
  version_is_bdev BCACHE_SB_VERSION_CDEV = false ->
  set_bucket_size_stores (sbc_bucket_size sbc) ->
  0 < sbc_bucket_size sbc ->
  run (getblocks fd) E h e = (Done S, e1, t1) ->
  let B := sbc_bucket_size sbc in
  let r := run (write_sb_format dev fd sbc false) E h e in
  (S / B < 128 ->
   outcome_of r = Exited EXIT_FAILURE /\
   (exists pre, events_of r = (pre ++ [not_enough_buckets (S / B)])%list) /\
   existsb writes_device (events_of r) = false) /\
  (128 <= S / B -> label_fits sbc ->
   exists sb e2 t2,
     run (write_sb_common dev sbc false (S / B)) E (h ++ t1)%list e1
       = (Done sb, e2, t2) /\
     sb_nbuckets sb = S / B /\
     r = prepend (t1 ++ t2)
           (run (write_sb_put dev fd sbc sb) E ((h ++ t1) ++ t2)%list e2)).
Proof.
  intros Hc Hs HB Hg B r. subst r.
  assert (HB0 : sbc_bucket_size sbc <> 0) by lia.
  assert (Ht1 : existsb writes_device t1 = false).
  { pose proof (always_run _ _ _ E h e (getblocks_always fd)) as Ha.
    rewrite Hg in Ha. cbn [events_of snd] in Ha.
    eapply existsb_none; [|exact Ha].
    intros ev. destruct ev as [c r e'|o]; [destruct c|]; simpl; auto;
      discriminate. }
  unfold write_sb_format. rewrite run_bind, Hg. unfold udiv.
  apply Z.eqb_neq in HB0. rewrite HB0. apply Z.eqb_neq in HB0. exec. fold B.
  rewrite run_bind.
  destruct (E (h ++ t1)%list c_uuid_generate) as [u e2] eqn:HE.
  destruct (run_write_sb_common_cache dev sbc (S / B) E (h ++ t1)%list e1
              u e2 Hc Hs HB0 HE) as [Hsmall Hlarge].
  split.
  - intros Hlt. rewrite (Hsmall Hlt). cbn [prepend outcome_of events_of fst snd].
    split; [reflexivity|]. split.
    + exists (t1 ++ [EvCall c_uuid_generate u e2])%list.
      rewrite <- app_assoc. reflexivity.
    + rewrite existsb_app, Ht1. reflexivity.
  - intros Hge Hfit.
    destruct (Hlarge Hge) as (sb0 & t & o & Hrun & _ & Hdone & Hnb & _).
    destruct (Hdone Hfit) as [arr' ->].
    rewrite Hrun. do 3 eexists. split; [reflexivity|]. split; [exact Hnb|].
    destruct (run (write_sb_put dev fd sbc (set_sb_label sb0 arr')) E
                ((h ++ t1) ++ EvCall c_uuid_generate u e2 :: t)%list e2)
      as [[o3 e3] t3].
    cbn [prepend]. now rewrite <- app_assoc.
Qed.

(** ** The summaries printed *)









Lemma make_bcache_block_size_always devices b :
  always get_blocksize_calls no_name_line (make_bcache_block_size devices b).
Proof.
  revert b. induction devices as [|d devices IH]; intros b;
    cbn [make_bcache_block_size].
  - exact I.
  - apply always_bind; [apply get_blocksize_always|]. intros b'. apply IH.
Qed.


(** ** Results and exits *)

Lemma returns_bind {A B : Type} (Q : A -> Prop) (P : B -> Prop)
    (p : prog A) (f : A -> prog B) :
  returns Q p -> (forall a, Q a -> returns P (f a)) -> returns P (bind p f).
Proof.
  intros Hp Hf. induction p as [a|c k IH|o k IH|k IH|s|]; simpl in *; auto.
Qed.

Lemma returns_run {A : Type} (P : A -> Prop) (p : prog A) E h e a :
  returns P p -> outcome_of (run p E h e) = Done a -> P a.
Proof.
  revert h e. induction p as [a'|c k IH|o k IH|k IH|s|]; intros h e Hp;
    simpl in *.
  - intros Ha. injection Ha as <-. exact Hp.
  - destruct (E h c) as [r e1]. rewrite outcome_emit. apply IH, Hp.
  - rewrite outcome_emit. now apply IH.
  - now apply IH.
  - discriminate.
  - discriminate.
Qed.

Lemma returns_True {A : Type} (p : prog A) : returns (fun _ => True) p.
Proof. induction p; simpl; auto. Qed.

Lemma fails_only_bind {A B : Type} (p : prog A) (f : A -> prog B) :
  fails_only p -> (forall a, fails_only (f a)) -> fails_only (bind p f).
Proof.
  intros Hp Hf. induction p as [a|c k IH|o k IH|k IH|s|]; simpl in *; auto.
Qed.

Lemma fails_only_run {A : Type} (p : prog A) E h e :
  fails_only p ->
  (exists a, outcome_of (run p E h e) = Done a)
  \/ outcome_of (run p E h e) = Exited EXIT_FAILURE.
Proof.
  revert h e. induction p as [a'|c k IH|o k IH|k IH|s|]; intros h e Hp;
    simpl in *.
  - left. eexists. reflexivity.
  - destruct (E h c) as [r e1]. rewrite outcome_emit. apply IH, Hp.
  - rewrite outcome_emit. now apply IH.
  - now apply IH.
  - right. now subst s.
  - contradiction.
Qed.

(** ** The option loop *)

Lemma hatoi_validate_always s msg max :
  always make_bcache_parse_calls no_name_line (hatoi_validate s msg max).
Proof. unfold hatoi_validate. always_auto. Qed.

Lemma hatoi_validate_fails_only s msg max :
  fails_only (hatoi_validate s msg max).
Proof.
  unfold hatoi_validate.
  repeat match goal with
         | |- fails_only (if ?b then _ else _) => destruct b
         end; simpl; auto.
Qed.

Lemma read_string_list_always buf list :
  always make_bcache_parse_calls no_name_line (read_string_list buf list).
Proof. unfold read_string_list. always_auto. Qed.

Lemma read_string_list_fails_only buf list :
  fails_only (read_string_list buf list).
Proof.
  unfold read_string_list. simpl. intros d.
  destruct (negb d); simpl; auto. destruct (index_of _ _ _); simpl; auto.
Qed.

Lemma make_bcache_option_always o l :
  always make_bcache_parse_calls no_name_line (make_bcache_option o l).
Proof.
  pose proof hatoi_validate_always. pose proof read_string_list_always.
  unfold make_bcache_option. always_auto.
Qed.

Lemma make_bcache_option_fails_only o l :
  fails_only (make_bcache_option o l).
Proof.
  unfold make_bcache_option. destruct o as [c optarg|f]; [|destruct f; exact I].
  repeat match goal with
         | |- fails_only (if ?b then _ else _) => destruct b
         | |- fails_only (bind _ _) => apply fails_only_bind; [|intros]
         | |- fails_only (match ?x with _ => _ end) => destruct x
         | |- fails_only (hatoi_validate _ _ _) =>
             apply hatoi_validate_fails_only
         | |- fails_only (read_string_list _ _) =>
             apply read_string_list_fails_only
         | |- fails_only (sys _) => intro; exact I
         | |- fails_only (Ret _) => exact I
         | |- fails_only (fprintf _ _ _) => exact I
         | |- fails_only usage => reflexivity
         | |- fails_only (exit _) => reflexivity
         end.
Qed.

Lemma make_bcache_option_returns o l :
  returns (follows_arg_step o l) (make_bcache_option o l).
Proof.
  unfold make_bcache_option, follows_arg_step, arg_step.
  destruct o as [c optarg|f].
  2:{ destruct f; simpl; rewrite !app_nil_r; auto. }
  repeat match goal with
         | |- returns _ (if ?c =? ?k then _ else _) =>
             destruct (Z.eqb_spec c k) as [->|?]
         end;
    repeat match goal with
           | H : ?c <> ?k |- _ => apply Z.eqb_neq in H; rewrite ?H; clear H
           end;
    cbn [Z.eqb chr nat_of_ascii Z.of_nat Pos.eqb Pos.of_succ_nat Pos.succ
         N_of_ascii N_of_digits N.to_nat N.add N.mul Pos.add Pos.mul
         Pos.to_nat Pos.iter_op Nat.add];
    try (simpl; rewrite !app_nil_r; now auto).
  all: try (eapply returns_bind; [apply returns_True|];
            intros v _; simpl; rewrite !app_nil_r; now auto).
  all: try exact I.
  - destruct (_ <? _); simpl; [auto|rewrite !app_nil_r; auto].
  - simpl. intros [r u]. destruct (negb _); simpl; [auto|].
    rewrite !app_nil_r; auto.
  - destruct (_ >=? _); simpl; [auto|rewrite !app_nil_r; auto].
  - destruct (l_bdev l =? 0) eqn:H0; simpl; rewrite ?app_nil_r; auto.
Qed.

Lemma make_bcache_options_always opts l :
  always make_bcache_parse_calls no_name_line (make_bcache_options opts l).
Proof.
  revert l. induction opts as [|o opts IH]; intros l;
    cbn [make_bcache_options].
  - exact I.
  - apply always_bind; [apply make_bcache_option_always|]. intros l1. apply IH.
Qed.

Lemma make_bcache_options_fails_only opts l :
  fails_only (make_bcache_options opts l).
Proof.
  revert l. induction opts as [|o opts IH]; intros l;
    cbn [make_bcache_options].
  - exact I.
  - apply fails_only_bind; [apply make_bcache_option_fails_only|].
    intros l1. apply IH.
Qed.

Lemma make_bcache_options_returns opts l :
  returns
    (fun l' =>
       l_cache_devices l'
       = (l_cache_devices l ++ fst (device_args opts (l_bdev l)))%list /\
       l_backing_devices l'
       = (l_backing_devices l ++ snd (device_args opts (l_bdev l)))%list)
    (make_bcache_options opts l).
Proof.
  revert l. induction opts as [|o opts IH]; intros l;
    cbn [make_bcache_options device_args].
  - simpl. rewrite !app_nil_r. auto.
  - eapply returns_bind; [apply make_bcache_option_returns|].
    intros l1 Hl1. unfold follows_arg_step in Hl1.
    destruct (arg_step o (l_bdev l)) as [[dc db] bdev'].
    destruct Hl1 as (Hc & Hb & Hk).
    specialize (IH l1). rewrite Hc, Hb, Hk in IH.
    destruct (device_args opts bdev') as [cache backing].
    cbn [fst snd] in *. rewrite !app_assoc. exact IH.
Qed.

Lemma make_bcache_parse_returns opts :
  returns
    (fun l =>
       l_cache_devices l = fst (device_args opts (-1)) /\
       l_backing_devices l = snd (device_args opts (-1)))
    (make_bcache_parse opts).
Proof.
  unfold make_bcache_parse. simpl. intros u.
  apply (make_bcache_options_returns opts
           (mk_locals (-1) [] [] "" 0 1024 false false false false false 0
              BDEV_DATA_START_DEFAULT u)).
Qed.

Lemma make_bcache_parse_always opts :
  always make_bcache_parse_calls no_name_line (make_bcache_parse opts).
Proof.
  unfold make_bcache_parse. simpl. split; [reflexivity|].
  intros u. apply make_bcache_options_always.
Qed.

Lemma make_bcache_parse_fails_only opts :
  fails_only (make_bcache_parse opts).
Proof.
  unfold make_bcache_parse. simpl. intros u.
  apply make_bcache_options_fails_only.
Qed.

(** ** make_bcache *)



Lemma make_bcache_validate_always l :
  always no_call no_name_line (make_bcache_validate l).
Proof. unfold make_bcache_validate. always_auto. Qed.



Lemma parse_does_not_touch ev :
  event_ok make_bcache_parse_calls no_name_line ev = true ->
  touches_device ev = false.
Proof. destruct ev as [c r e|o]; [destruct c|]; simpl; auto; discriminate. Qed.

(** ** Registration through the control device *)

Lemma always_bind_returns {A B : Type} Q R (P : A -> Prop) (p : prog A)
    (f : A -> prog B) :
  always Q R p -> returns P p -> (forall a, P a -> always Q R (f a)) ->
  always Q R (bind p f).
Proof.
  intros Hp Hr Hf.
  induction p as [a|c k IH|o k IH|k IH|s|]; simpl in *; auto.
  - destruct Hp as [Hc Hk]. split; auto.
  - destruct Hp as [Ho Hk]. split; auto.
Qed.

Lemma registered_zero_offset t :
  forallb (event_ok registers_zero_offset any_output) t = true ->
  forall cmd, In cmd (registered t) -> sb_data_offset (cmd_sb cmd) = 0.
Proof.
  induction t as [|ev t IH]; simpl; [contradiction|].
  intros H. apply andb_true_iff in H. destruct H as [Hev Ht].
  destruct ev as [c r e|o]; auto.
  destruct c; simpl; auto.
  intros cmd' [<-|Hin]; auto. now apply Z.eqb_eq.
Qed.

Lemma write_sb_common_backing_returns dev sbc nb :
  version_is_bdev BCACHE_SB_VERSION_BDEV = true ->
  returns
    (fun sb =>
       sb_data_offset sb =
       if negb (sbc_data_offset sbc =? BDEV_DATA_START_DEFAULT)
       then sbc_data_offset sbc else 0)
    (write_sb_common dev sbc true nb).
Proof.
  intros Hb. unfold write_sb_common. simpl. intros u.
  unfold SB_IS_BDEV. rewrite head_version, Hb.
  eapply returns_bind with
    (Q := fun sb =>
       sb_data_offset sb =
       if negb (sbc_data_offset sbc =? BDEV_DATA_START_DEFAULT)
       then sbc_data_offset sbc else 0).
  - unfold write_sb_common_bdev. simpl. intros z.
    destruct z as [zoned|s]; simpl; [|exact I].
    destruct (zoned && _)%bool; simpl;
      rewrite data_offset_data_offset; reflexivity.
  - intros sb Hsb.
    eapply returns_bind; [apply returns_True|]. intros lbl _. exact Hsb.
Qed.

Lemma write_sb_ioctl_registers_zero dev sbc force :
  version_is_bdev BCACHE_SB_VERSION_BDEV = true ->
  sbc_data_offset sbc = 0 ->
  always registers_zero_offset any_output (write_sb_ioctl dev sbc true force).
Proof.
  intros Hb H0. unfold write_sb_ioctl.
  assert (Hg : forall fd, always registers_zero_offset any_output
                            (getblocks fd)).
  { intros fd. eapply always_mono; [| |apply getblocks_always]; auto.
    intros c. destruct c; simpl; auto; discriminate. }
  apply always_bind; [split; [reflexivity|intros; exact I]|].
  intros fd. destruct (fd <? 0); [always_auto|].
  apply always_bind; [apply Hg|]. intros blocks.
  apply always_bind; [split; [reflexivity|intros; exact I]|]. intros _.
  apply always_bind; [split; [reflexivity|intros; exact I]|].
  intros [r st]. destruct (negb (r =? 0)); [always_auto|].
  destruct (negb (st_isblk st)); [always_auto|].
  apply always_bind; [split; [reflexivity|intros; exact I]|].
  intros fd'. destruct (fd' <? 0); [always_auto|].
  apply always_bind; [unfold udiv; destruct (_ =? 0); exact I|].
  intros nb.
  eapply always_bind_returns;
    [|apply (write_sb_common_backing_returns dev sbc nb Hb)|].
  { eapply always_mono; [| |apply write_sb_common_always]; auto.
    intros c. destruct c; simpl; auto; discriminate. }
  intros sb Hsb. rewrite H0 in Hsb.
  assert (Hz : sb_data_offset sb = 0) by (now destruct (negb _)).
  cbn [bind sys]. split.
  - cbn [registers_zero_offset cmd_sb]. now apply Z.eqb_eq.
  - intros r'. destruct (r' <? 0); always_auto.
Qed.

Lemma make_bcache_backing_device_registers_zero d sbc force :
  version_is_bdev BCACHE_SB_VERSION_BDEV = true ->
  always registers_zero_offset any_output
    (make_bcache_backing_device d sbc true force).
Proof.
  intros Hb. unfold make_bcache_backing_device.
  apply always_bind; [split; [reflexivity|intros; exact I]|].
  intros r. apply always_bind; [destruct r; exact I|]. intros off.
  apply always_bind; [destruct (negb _); always_auto|]. intros _.
  apply always_bind; [|intros; exact I].
  now apply write_sb_ioctl_registers_zero.
Qed.

Lemma make_bcache_backing_devices_register_zero devices sbc force :
  version_is_bdev BCACHE_SB_VERSION_BDEV = true ->
  always registers_zero_offset any_output
    (make_bcache_backing_devices devices sbc true force).
Proof.
  intros Hb. revert sbc.
  induction devices as [|d devices IH]; intros sbc;
    cbn [make_bcache_backing_devices].
  - exact I.
  - apply always_bind; [|intros sbc'; apply IH].
    now apply make_bcache_backing_device_registers_zero.
Qed.

(** ** The parts of C3, C4 and C5 that hold on every run *)

(** The loop of lines 396-406: at most [n] rounds, each a [sleep(3)]
    followed by an exclusive open; the loop stops at the first open that
    succeeds, and only then is [opened] assigned. *)
Lemma write_sb_reopen_rounds n dev fd opened E h e :
  let r := run (write_sb_reopen n dev fd opened) E h e in
  exists k fd',
    paced_opens dev (events_of r) = Some k /\ (k <= n)%nat /\
    ((fd' <> -1 /\ outcome_of r = Done (fd', Some true))
     \/ (k = n /\ outcome_of r = Done (fd', opened)
         /\ (n = O -> fd' = fd) /\ (n <> O -> fd' = -1))).
Proof.
  revert fd opened h e. induction n as [|n IH]; intros fd opened h e;
    cbn [write_sb_reopen].
  - exists O, fd. cbn. split; [reflexivity|]. split; [lia|]. right.
    repeat split; auto. intros H. exfalso. now apply H.
  - exec. step E. step E. rename r0 into fd1.
    destruct (Z.eqb_spec fd1 (-1)) as [->|Hfd]; exec.
    + destruct (IH (-1) opened
                  (((h ++ [EvCall (c_sleep 3) r e0]) ++
                    [EvCall (c_open dev [O_RDWR; O_EXCL]) (-1) e1]) ++
                   [EvOut (o_fprintf stdout
                             "Waiting for bcache device to be closed.\n" [])])%list
                  e1) as (k & fd' & Hp & Hk & Hres).
      cbv zeta in Hp, Hres.
      destruct (run (write_sb_reopen n dev (-1) opened) E _ e1)
        as [[o e2] t].
      cbn [emit events_of outcome_of fst snd] in *.
      exists (S k), fd'. split.
      { cbn [paced_opens]. rewrite String.eqb_refl. cbn. now rewrite Hp. }
      split; [lia|].
      destruct Hres as [[Hne Ho]|(-> & Ho & Hz & Hn)]; [left; auto|].
      right. repeat split; auto; [discriminate|]. intros _.
      destruct n; [now apply Hz|now apply Hn].
    + exists 1%nat, fd1. split.
      { cbn [paced_opens]. rewrite String.eqb_refl.
        apply Z.eqb_neq in Hfd. cbn. now rewrite Hfd. }
      split; [lia|]. left. auto.
Qed.

(** Once [fsync] is reached the run returns, whatever [fsync] says. *)
Lemma write_sb_put_ignores_fsync dev fd sbc sb E h e :
  let r := run (write_sb_put dev fd sbc sb) E h e in
  existsb is_fsync (events_of r) = true -> outcome_of r = Done tt.
Proof.
  intros r. subst r. unfold write_sb_put. rewrite run_bind.
  assert (Hhead : forall p : prog unit,
            always blkdiscard_all_calls any_output p ->
            existsb is_fsync (events_of (run p E h e)) = false).
  { intros p Hp. eapply existsb_none; [|apply always_run, Hp].
    intros ev. destruct ev as [c r e'|o]; [destruct c|]; simpl; auto;
      discriminate. }
  match goal with
  | |- context [run ?p E h e] =>
      assert (Hp : always blkdiscard_all_calls any_output p)
  end.
  { destruct (negb _); [|exact I]. destruct (sbc_discard sbc); [|exact I].
    apply always_bind; [|intros; exact I].
    eapply always_mono; [| |apply blkdiscard_all_always]; auto. }
  apply Hhead in Hp.
  match goal with
  | |- context [run ?p E h e] =>
      destruct (run p E h e) as [[[[]|s|] e1] t1]
  end; cbn [events_of snd] in Hp;
    [|cbn; rewrite Hp; discriminate|cbn; rewrite Hp; discriminate].
  rewrite events_prepend, outcome_prepend, existsb_app, Hp. cbn [orb].
  exec. step E. branch; [discriminate|].
  step E. branch; [discriminate|].
  step E. step E. reflexivity.
Qed.

(** With an explicit block size the check of line 714 does its work. *)
Lemma run_make_bcache_validate_small_bucket l E h e :
  l_bucket_size l < l_block_size l ->
  let r := run (make_bcache_devices l) E h e in
  (exists s, outcome_of r = Exited s) /\
  existsb touches_device (events_of r) = false.
Proof.
  intros Hlt r. subst r. unfold make_bcache_devices. rewrite run_bind.
  pose proof (always_run _ _ _ E h e (make_bcache_validate_always l)) as Ha.
  assert (Hr : returns (fun _ => False) (make_bcache_validate l)).
  { unfold make_bcache_validate.
    destruct (_ && _)%bool; [exact I|]. destruct (_ >? _); [exact I|].
    apply Z.ltb_lt in Hlt. rewrite Hlt. exact I. }
  pose proof (fun a => returns_run _ _ E h e a Hr) as Hno.
  assert (Hf : fails_only (make_bcache_validate l)).
  { unfold make_bcache_validate.
    destruct (_ && _)%bool; [reflexivity|]. destruct (_ >? _); [reflexivity|].
    destruct (_ <? _); simpl; auto. }
  destruct (fails_only_run _ E h e Hf) as [[a Hd]|Hx];
    [destruct (Hno a Hd)|].
  destruct (run (make_bcache_validate l) E h e) as [[o e1] t1].
  cbn [outcome_of events_of fst snd] in *. subst o.
  cbn [outcome_of events_of fst snd]. split; [eauto|].
  eapply existsb_none; [|exact Ha].
  intros ev. destruct ev as [c r e'|o]; simpl; auto; discriminate.
Qed.

(** Without one the check of line 714 compares with zero and lets every
    bucket size through, before the block size is looked up. *)
Lemma run_make_bcache_validate_derived l E h e :
  l_block_size l = 0 ->
  0 <= l_bucket_size l ->
  (List.length (l_cache_devices l) <= 1)%nat ->
  l_backing_devices l <> [] \/ l_cache_devices l <> [] ->
  run (make_bcache_validate l) E h e = (Done tt, e, []).
Proof.
  intros H0 Hb Hc Hd. unfold make_bcache_validate.
  assert (H1 : ((Z.of_nat (List.length (l_cache_devices l)) =? 0)
                && (Z.of_nat (List.length (l_backing_devices l)) =? 0))%bool
               = false).
  { destruct Hd as [Hd|Hd].
    - destruct (l_backing_devices l); [contradiction|].
      simpl List.length. rewrite andb_false_iff. right.
      apply Z.eqb_neq. lia.
    - destruct (l_cache_devices l); [contradiction|].
      simpl List.length. rewrite andb_false_iff. left.
      apply Z.eqb_neq. lia. }
  assert (H2 : (Z.of_nat (List.length (l_cache_devices l)) >? 1) = false).
  { destruct (Z.gtb_spec (Z.of_nat (List.length (l_cache_devices l))) 1);
      [lia|reflexivity]. }
  assert (H3 : (l_bucket_size l <? l_block_size l) = false)
    by (apply Z.ltb_ge; lia).
  rewrite H1, H2, H3. reflexivity.
Qed.


(** * Further properties of make.c *)

(** ** skip_spaces and strim *)

Lemma skip_spaces_split s :
  exists pre, s = pre ++ skip_spaces s /\ all_spaces pre = true.
Proof.
  induction s as [|c s IH]; simpl.
  - exists "". auto.
  - destruct (isspace c) eqn:Hc.
    + destruct IH as (pre & Hs & Hp). exists (String c pre). simpl.
      rewrite Hc, Hp. split; [now rewrite <- Hs|reflexivity].
    + exists "". auto.
Qed.

Lemma skip_spaces_starts s : starts_with_space (skip_spaces s) = false.
Proof.
  induction s as [|c s IH]; simpl; auto.
  destruct (isspace c) eqn:Hc; auto.
Qed.

Lemma skip_spaces_id s : starts_with_space s = false -> skip_spaces s = s.
Proof. destruct s as [|c s]; simpl; auto. now intros ->. Qed.

Lemma drop_trailing_spaces_split s :
  exists post, s = drop_trailing_spaces s ++ post /\ all_spaces post = true.
Proof.
  induction s as [|c s IH]; simpl.
  - exists "". auto.
  - destruct IH as (post & Hs & Hp).
    destruct (drop_trailing_spaces s) as [|d r] eqn:Hd.
    + simpl in Hs. subst post. destruct (isspace c) eqn:Hc.
      * exists (String c s). simpl. rewrite Hc, Hp. auto.
      * exists s. simpl. auto.
    + exists post. simpl. split; [|exact Hp]. now rewrite Hs at 1.
Qed.

Lemma drop_trailing_spaces_ends s :
  ends_with_space (drop_trailing_spaces s) = false.
Proof.
  induction s as [|c s IH]; simpl; auto.
  destruct (drop_trailing_spaces s) as [|d r] eqn:Hd.
  - destruct (isspace c) eqn:Hc; simpl; auto.
  - simpl. exact IH.
Qed.

Lemma drop_trailing_spaces_id s :
  ends_with_space s = false -> drop_trailing_spaces s = s.
Proof.
  induction s as [|c s IH]; simpl; auto.
  destruct s as [|d s].
  - intros ->. reflexivity.
  - intros H. rewrite (IH H). reflexivity.
Qed.

Lemma drop_trailing_spaces_starts s :
  starts_with_space s = false ->
  starts_with_space (drop_trailing_spaces s) = false.
Proof.
  destruct s as [|c s]; simpl; auto. intros Hc.
  destruct (drop_trailing_spaces s); [rewrite Hc|]; simpl; auto.
Qed.

Lemma strim_eq s : strim s = drop_trailing_spaces (skip_spaces s).
Proof.
  unfold strim. destruct (skip_spaces s); reflexivity.
Qed.

(** X1: [strim] takes the white space off both ends and nothing else: its
    argument is white space, then the result, then white space; the result
    neither begins nor ends with white space; trimming twice changes
    nothing. *)
Theorem strim_strips_outer_whitespace (s : string) :
  (exists pre post,
     s = pre ++ strim s ++ post /\
     all_spaces pre = true /\ all_spaces post = true) /\
  starts_with_space (strim s) = false /\
  ends_with_space (strim s) = false /\
  strim (strim s) = strim s.
Proof.
  rewrite !strim_eq.
  destruct (skip_spaces_split s) as (pre & Hs & Hpre).
  destruct (drop_trailing_spaces_split (skip_spaces s)) as (post & Hd & Hpost).
  pose proof (drop_trailing_spaces_starts _ (skip_spaces_starts s)) as Hst.
  pose proof (drop_trailing_spaces_ends (skip_spaces s)) as Hen.
  split; [|split; [exact Hst|split; [exact Hen|]]].
  - exists pre, post. split; [|auto]. now rewrite <- Hd.
  - rewrite (skip_spaces_id _ Hst). now apply drop_trailing_spaces_id.
Qed.

(** ** read_string_list *)

Lemma index_of_some s list i j :
  index_of s list i = Some j ->
  exists k, j = i + Z.of_nat k /\ nth_error list k = Some s /\
            forall k', (k' < k)%nat -> nth_error list k' <> Some s.
Proof.
  revert i. induction list as [|x list IH]; intros i; simpl; [discriminate|].
  destruct (String.eqb_spec x s) as [->|Hx].
  - intros [= <-]. exists O. simpl. repeat split; [lia|]. intros k' Hk. lia.
  - intros H. destruct (IH _ H) as (k & -> & Hn & Hfirst).
    exists (S k). simpl. repeat split; [lia|exact Hn|].
    intros [|k'] Hk; simpl; [congruence|]. apply Hfirst. lia.
Qed.

Lemma index_of_none s list i :
  index_of s list i = None <-> ~ In s list.
Proof.
  revert i. induction list as [|x list IH]; intros i; simpl.
  - split; auto.
  - destruct (String.eqb_spec x s) as [->|Hx].
    + split; [discriminate|]. intros H. exfalso. apply H. now left.
    + rewrite IH. split; intros H; [intros [?|?]; auto|auto].
Qed.

Lemma run_read_string_list buf list E h e :
  run (read_string_list buf list) E h e =
  let '(d, e1) := E h (c_strdup buf) in
  (Done (if d then
           match index_of (strim buf) list 0 with
           | Some i => i
           | None => - EINVAL
           end
         else - ENOMEM), e1, [EvCall (c_strdup buf) d e1]).
Proof.
  unfold read_string_list. cbn [run bind sys].
  destruct (E h (c_strdup buf)) as [d e1]. destruct d; cbn [negb].
  - destruct (index_of (strim buf) list 0); reflexivity.
  - reflexivity.
Qed.

(** X2: [read_string_list] always returns, after the one call to [strdup].
    It gives [-ENOMEM] when [strdup] fails; otherwise the index of the
    first entry of the list equal to the trimmed text, or [-EINVAL] when
    there is none. *)
Theorem read_string_list_index buf list E h e :
  let r := run (read_string_list buf list) E h e in
  let d := fst (E h (c_strdup buf)) in
  events_of r = [EvCall (c_strdup buf) d (snd (E h (c_strdup buf)))] /\
  (d = false -> outcome_of r = Done (- ENOMEM)) /\
  (d = true -> ~ In (strim buf) list -> outcome_of r = Done (- EINVAL)) /\
  (d = true -> In (strim buf) list ->
   exists k,
     outcome_of r = Done (Z.of_nat k) /\
     nth_error list k = Some (strim buf) /\
     forall k', (k' < k)%nat -> nth_error list k' <> Some (strim buf)).
Proof.
  intros r d. subst r d. rewrite run_read_string_list.
  destruct (E h (c_strdup buf)) as [d e1]. cbn [fst snd outcome_of events_of].
  split; [reflexivity|]. split; [intros ->; reflexivity|].
  split.
  - intros -> Hn. apply (index_of_none _ _ 0) in Hn. now rewrite Hn.
  - intros -> Hin.
    destruct (index_of (strim buf) list 0) as [j|] eqn:Hi.
    + destruct (index_of_some _ _ _ _ Hi) as (k & -> & Hk).
      exists k. split; [reflexivity|exact Hk].
    + apply index_of_none in Hi. contradiction.
Qed.

(** X3: the option [--cache_replacement_policy] never stops the run.  When
    [strdup] gives a copy of the text, the names [lru], [fifo] and
    [random], with white space around them or not, give the policies 0, 1
    and 2, and any other text is let through with [-EINVAL] as an
    [unsigned int] for the policy.  When [strdup] fails (lines 153-156) the
    text is not looked at, and the policy kept is [-ENOMEM] as an
    [unsigned int], also for the three names. *)
Theorem replacement_policy_option optarg l E h e :
  let r := run (make_bcache_option (opt (chr "p") optarg) l) E h e in
  exists l',
    outcome_of r = Done l' /\
    (fst (E h (c_strdup optarg)) = true ->
     (strim optarg = "lru" -> l_cache_replacement_policy l' = 0) /\
     (strim optarg = "fifo" -> l_cache_replacement_policy l' = 1) /\
     (strim optarg = "random" -> l_cache_replacement_policy l' = 2) /\
     (~ In (strim optarg) cache_replacement_policies ->
      l_cache_replacement_policy l' = UINT_MAX - 21)) /\
    (fst (E h (c_strdup optarg)) = false ->
     l_cache_replacement_policy l' = UINT_MAX - 11).
Proof.
  intros r. subst r.
  change (make_bcache_option (opt (chr "p") optarg) l)
    with (v <- read_string_list optarg cache_replacement_policies ;;
          Ret (set_l_cache_replacement_policy l (u32 v))).
  rewrite run_bind, run_read_string_list.
  destruct (E h (c_strdup optarg)) as [d e1]. cbn [fst snd] in *.
  eexists. cbn [run prepend outcome_of fst]. split; [reflexivity|].
  cbn [set_l_cache_replacement_policy l_cache_replacement_policy].
  split; intros ->.
  - repeat split.
    + intros ->. reflexivity.
    + intros ->. reflexivity.
    + intros ->. reflexivity.
    + intros Hn. apply (index_of_none _ _ 0) in Hn. rewrite Hn. reflexivity.
  - reflexivity.
Qed.

(** ** hatoi_validate *)

Lemma land_pred_zero_pow2 v :
  0 < v -> Z.land v (v - 1) = 0 -> power_of_two v.
Proof.
  intros Hv Hl. exists (Z.log2 v).
  pose proof (Z.log2_nonneg v) as Hk. split; [exact Hk|].
  destruct (Z.log2_spec v Hv) as [Hlo Hhi].
  destruct (Z.eq_dec v (2 ^ Z.log2 v)) as [|Hne]; [assumption|exfalso].
  assert (Hlog : Z.log2 (v - 1) = Z.log2 v).
  { apply Z.log2_unique; [exact Hk|]. lia. }
  assert (H1 : Z.testbit v (Z.log2 v) = true) by now apply Z.bit_log2.
  assert (H2 : Z.testbit (v - 1) (Z.log2 v) = true).
  { rewrite <- Hlog. apply Z.bit_log2. lia. }
  assert (H3 : Z.testbit (Z.land v (v - 1)) (Z.log2 v) = true)
    by now rewrite Z.land_spec, H1, H2.
  rewrite Hl, Z.bits_0 in H3. discriminate.
Qed.

Lemma land_pow2_pred k : 0 <= k -> Z.land (2 ^ k) (2 ^ k - 1) = 0.
Proof.
  intros Hk. replace (2 ^ k - 1) with (Z.ones k)
    by (rewrite Z.ones_equiv; lia).
  rewrite Z.land_ones by exact Hk. apply Z.mod_same. lia.
Qed.

Lemma hatoi_range s : 0 <= hatoi s < 2 ^ 64.
Proof.
  unfold hatoi. destruct (strtoll s) as [i e0].
  repeat match goal with |- context [if ?b then _ else _] => destruct b end;
    unfold u64; apply Z.mod_pos_bound; lia.
Qed.

Lemma pow2_div_512 k : 9 <= k -> 2 ^ k / 512 = 2 ^ (k - 9).
Proof.
  intros Hk. replace k with ((k - 9) + 9) at 1 by lia.
  rewrite Z.pow_add_r by lia. change (2 ^ 9) with 512.
  apply Z.div_mul. lia.
Qed.

Lemma run_hatoi_validate s msg max E h e :
  run (hatoi_validate s msg max) E h e =
  if negb (Z.land (hatoi s) (u64 (hatoi s - 1)) =? 0) then
    (Exited EXIT_FAILURE, e,
     [EvOut (o_fprintf stderr "%s must be a power of two\n" [a_str msg])])
  else if hatoi s / 512 >? max then
    (Exited EXIT_FAILURE, e,
     [EvOut (o_fprintf stderr "%s too large\n" [a_str msg])])
  else if hatoi s / 512 =? 0 then
    (Exited EXIT_FAILURE, e,
     [EvOut (o_fprintf stderr "%s too small\n" [a_str msg])])
  else (Done (u32 (hatoi s / 512)), e, []).
Proof.
  unfold hatoi_validate.
  repeat match goal with |- context [if ?b then _ else _] => destruct b end;
    reflexivity.
Qed.

Lemma hatoi_validate_returns s msg max :
  max <= UINT_MAX ->
  returns (fun v => power_of_two v /\ v <= max /\ hatoi s = 512 * v)
    (hatoi_validate s msg max).
Proof.
  intros Hmax. unfold hatoi_validate.
  pose proof (hatoi_range s) as Hr. set (v := hatoi s) in *.
  destruct (Z.eqb_spec (Z.land v (u64 (v - 1))) 0) as [Hl|Hl];
    cbn [negb]; [|exact I].
  destruct (Z.gtb_spec (v / 512) max) as [|Hle]; [exact I|].
  destruct (Z.eqb_spec (v / 512) 0) as [|Hnz]; [exact I|].
  cbn [returns].
  assert (Hpos : 0 < v).
  { destruct (Z.eq_dec v 0) as [Hz|]; [|lia]. rewrite Hz in Hnz.
    now elim Hnz. }
  unfold u64 in Hl. rewrite Z.mod_small in Hl by lia.
  destruct (land_pred_zero_pow2 v Hpos Hl) as (k & Hk & Hv).
  assert (Hk9 : 9 <= k).
  { destruct (Z.le_gt_cases 9 k) as [|Hlt]; [assumption|exfalso].
    apply Hnz. apply Z.div_small. split; [lia|]. rewrite Hv.
    change 512 with (2 ^ 9). apply Z.pow_lt_mono_r; lia. }
  rewrite Hv, pow2_div_512 by exact Hk9.
  rewrite Hv, pow2_div_512 in Hle by exact Hk9.
  assert (Hsmall : 0 <= 2 ^ (k - 9) < 2 ^ 32).
  { split; [apply Z.pow_nonneg; lia|]. unfold UINT_MAX in Hmax. lia. }
  unfold u32. rewrite Z.mod_small by exact Hsmall.
  split; [exists (k - 9); split; [lia|reflexivity]|].
  split; [exact Hle|].
  replace k with ((k - 9) + 9) at 1 by lia.
  rewrite Z.pow_add_r by lia. change (2 ^ 9) with 512. lia.
Qed.

(** X4: [hatoi_validate] accepts exactly the sizes that are a power of two
    number of 512-byte sectors, at least one and at most [max].  A value
    it returns is that number of sectors, and nothing was printed; every
    such size is returned; anything else ends in [exit(EXIT_FAILURE)]
    after one message on stderr naming [msg]. *)
Theorem hatoi_validate_power_of_two s msg max E h e :
  max <= UINT_MAX ->
  let r := run (hatoi_validate s msg max) E h e in
  (forall v, outcome_of r = Done v ->
     power_of_two v /\ v <= max /\ hatoi s = 512 * v /\ events_of r = []) /\
  (forall k, 0 <= k -> 2 ^ k <= max -> hatoi s = 512 * 2 ^ k ->
     outcome_of r = Done (2 ^ k)) /\
  ((forall v, outcome_of r <> Done v) ->
     outcome_of r = Exited EXIT_FAILURE /\
     exists fmt, events_of r = [EvOut (o_fprintf stderr fmt [a_str msg])]).
Proof.
  intros Hmax r. subst r.
  split; [|split].
  - intros w Hw.
    pose proof (returns_run _ _ E h e w
                  (hatoi_validate_returns s msg max Hmax) Hw) as (Hp & Hle & Hv).
    repeat split; auto.
    rewrite run_hatoi_validate in Hw |- *.
    repeat match goal with
           | |- context [if ?b then _ else _] => destruct b
           end; try discriminate. reflexivity.
  - rewrite run_hatoi_validate.
    pose proof (hatoi_range s) as Hr. set (v := hatoi s) in *.
    intros k Hk Hle Hv.
    assert (Hvk : v = 2 ^ (k + 9)).
    { rewrite Hv, Z.pow_add_r by lia. change (2 ^ 9) with 512. lia. }
    assert (Hpos : 0 < 2 ^ k) by (apply Z.pow_pos_nonneg; lia).
    assert (Hl : Z.land v (u64 (v - 1)) = 0).
    { unfold u64. rewrite Z.mod_small by lia. rewrite Hvk.
      apply land_pow2_pred. lia. }
    rewrite Hl. cbn [Z.eqb negb].
    assert (Hd : v / 512 = 2 ^ k).
    { rewrite Hv, Z.mul_comm. apply Z.div_mul. lia. }
    rewrite Hd.
    destruct (Z.gtb_spec (2 ^ k) max) as [|_]; [lia|].
    destruct (Z.eqb_spec (2 ^ k) 0) as [|_]; [lia|].
    cbn [outcome_of fst]. unfold u32. rewrite Z.mod_small; [reflexivity|].
    unfold UINT_MAX in Hmax. lia.
  - rewrite run_hatoi_validate. intros Hno.
    destruct (negb _).
    { split; [reflexivity|eexists; reflexivity]. }
    destruct (_ >? _).
    { split; [reflexivity|eexists; reflexivity]. }
    destruct (_ =? _).
    { split; [reflexivity|eexists; reflexivity]. }
    exfalso. eapply Hno. reflexivity.
Qed.

(** X5: a size that holds no number, or the number 0, is refused as too
    small: [hatoi] gives 0 whatever the suffix, 0 passes the power-of-two
    test of line 105, and line 117 stops the run. *)
Theorem size_without_number_is_too_small s msg max E h e :
  fst (strtoll s) = 0 ->
  0 <= max ->
  run (hatoi_validate s msg max) E h e
  = (Exited EXIT_FAILURE, e,
     [EvOut (o_fprintf stderr "%s too small\n" [a_str msg])]).
Proof.
  intros Hz Hmax.
  assert (Hh : hatoi s = 0).
  { unfold hatoi. destruct (strtoll s) as [i e0]. cbn [fst] in Hz. subst i.
    repeat match goal with
           | |- context [if ?b then _ else _] => destruct b
           end; reflexivity. }
  rewrite run_hatoi_validate, Hh. cbn [Z.sub Z.land Z.eqb negb Z.div].
  change (0 / 512) with 0.
  destruct (Z.gtb_spec 0 max) as [Hgt|_]; [lia|]. reflexivity.
Qed.

(** ** What the option loop keeps *)

Lemma make_bcache_options_keep (P : locals -> Prop) :
  (forall o l, P l -> returns P (make_bcache_option o l)) ->
  forall opts l, P l -> returns P (make_bcache_options opts l).
Proof.
  intros Hstep opts. induction opts as [|o opts IH]; intros l Hl;
    cbn [make_bcache_options].
  - exact Hl.
  - eapply returns_bind; [now apply Hstep|]. exact IH.
Qed.

Lemma make_bcache_parse_keeps (P : locals -> Prop) opts :
  (forall o l, P l -> returns P (make_bcache_option o l)) ->
  (forall u,
     P (mk_locals (-1) [] [] "" 0 1024 false false false false false 0
          BDEV_DATA_START_DEFAULT u)) ->
  returns P (make_bcache_parse opts).
Proof.
  intros Hstep H0. unfold make_bcache_parse. cbn [bind sys returns].
  intros u. now apply make_bcache_options_keep.
Qed.

(** The cases of [make_bcache_option] that leave [H] as it is. *)
Ltac option_cases H :=
  unfold make_bcache_option;
  match goal with
  | |- returns _ (match ?o with opt _ _ => _ | opt_flag _ => _ end) =>
      let c := fresh "c" in
      let optarg := fresh "optarg" in
      let f := fresh "f" in
      destruct o as [c optarg|f]; [|destruct f; exact H]
  end;
  repeat match goal with
         | |- returns _ (if ?c =? ?k then _ else _) => destruct (c =? k)
         end;
  try exact H; try exact I;
  try (eapply returns_bind; [apply returns_True|]; intros; exact H);
  try match goal with
      | |- returns _ (if negb _ then _ else _) => destruct (negb _); exact H
      end.

Lemma make_bcache_option_sizes o l :
  sizes_ok l -> returns sizes_ok (make_bcache_option o l).
Proof.
  intros Hl. option_cases Hl.
  - eapply returns_bind;
      [apply (hatoi_validate_returns optarg "bucket size" UINT_MAX); lia|].
    intros v (Hp & Hle & _). destruct Hl as [_ Hw]. split; auto.
  - eapply returns_bind;
      [apply (hatoi_validate_returns optarg "block size" USHRT_MAX);
       unfold USHRT_MAX, UINT_MAX; lia|].
    intros v (Hp & Hle & _). destruct Hl as [Hb _]. split; auto.
  - destruct (_ <? _); [exact I|exact Hl].
  - cbn [bind sys returns]. intros [r u].
    destruct (negb (r =? 0)); [exact I|exact Hl].
  - destruct (_ >=? _); [exact I|exact Hl].
Qed.

Lemma make_bcache_option_label o l :
  label_ok l -> returns label_ok (make_bcache_option o l).
Proof.
  intros Hl. option_cases Hl.
  - destruct (_ <? _); [exact I|exact Hl].
  - cbn [bind sys returns]. intros [r u].
    destruct (negb (r =? 0)); [exact I|exact Hl].
  - destruct (Z.geb_spec (Z.of_nat (String.length optarg)) SB_LABEL_SIZE)
      as [|Hlt]; [exact I|exact Hlt].
Qed.

Lemma make_bcache_option_offset o l :
  0 <= BDEV_DATA_START_DEFAULT < 2 ^ 64 ->
  offset_ok l -> returns offset_ok (make_bcache_option o l).
Proof.
  intros Hd Hl. option_cases Hl.
  - destruct (Z.ltb_spec (u64 (fst (strtoll optarg)))
                (u64 BDEV_DATA_START_DEFAULT)) as [|Hge]; [exact I|].
    unfold u64 in *. rewrite (Z.mod_small BDEV_DATA_START_DEFAULT) in Hge
      by exact Hd.
    split; [exact Hge|]. apply Z.mod_pos_bound. lia.
  - cbn [bind sys returns]. intros [r u].
    destruct (negb (r =? 0)); [exact I|exact Hl].
  - destruct (_ >=? _); [exact I|exact Hl].
Qed.

(** X6: the sizes the option loop of [make_bcache] leaves.  The bucket size
    is a power of two number of sectors that fits an [unsigned int]; the
    block size is 0 when no [-w] was given, and otherwise a power of two
    number of sectors of at most [USHRT_MAX]. *)
Theorem option_loop_sizes opts E h e l :
  outcome_of (run (make_bcache_parse opts) E h e) = Done l ->
  power_of_two (l_bucket_size l) /\ l_bucket_size l <= UINT_MAX /\
  (l_block_size l = 0 \/
   power_of_two (l_block_size l) /\ l_block_size l <= USHRT_MAX).
Proof.
  intros Hl.
  assert (H : returns sizes_ok (make_bcache_parse opts)).
  { apply make_bcache_parse_keeps; [exact make_bcache_option_sizes|].
    intros u. split; [split|now left].
    - exists 10. split; [lia|reflexivity].
    - unfold UINT_MAX. cbn [l_bucket_size]. lia. }
  destruct (returns_run _ _ E h e l H Hl) as [[Hb Hm] Hw]. auto.
Qed.

(** X7: the label the option loop of [make_bcache] leaves is shorter than
    [SB_LABEL_SIZE], so that it fits the [label] array with its final
    NUL. *)
Theorem option_loop_label opts E h e l :
  0 < SB_LABEL_SIZE ->
  outcome_of (run (make_bcache_parse opts) E h e) = Done l ->
  Z.of_nat (String.length (l_label l)) < SB_LABEL_SIZE.
Proof.
  intros Hs Hl.
  assert (H : returns label_ok (make_bcache_parse opts)).
  { apply make_bcache_parse_keeps; [exact make_bcache_option_label|].
    intros u. exact Hs. }
  exact (returns_run _ _ E h e l H Hl).
Qed.

(** X8: the data offset the option loop of [make_bcache] leaves is never
    below [BDEV_DATA_START_DEFAULT]: the default itself, or the value of
    the last [-o] as a [uint64_t]. *)
Theorem option_loop_data_offset opts E h e l :
  0 <= BDEV_DATA_START_DEFAULT < 2 ^ 64 ->
  outcome_of (run (make_bcache_parse opts) E h e) = Done l ->
  BDEV_DATA_START_DEFAULT <= l_data_offset l < 2 ^ 64.
Proof.
  intros Hd Hl.
  assert (H : returns offset_ok (make_bcache_parse opts)).
  { apply make_bcache_parse_keeps;
      [intros o l0; now apply make_bcache_option_offset|].
    intros u. unfold offset_ok. cbn [l_data_offset]. lia. }
  exact (returns_run _ _ E h e l H Hl).
Qed.

(** ** Divisions and array stores *)

Lemma no_fault_bind_returns {A B : Type} (Q : A -> Prop) (p : prog A)
    (f : A -> prog B) :
  returns Q p -> no_fault p -> (forall a, Q a -> no_fault (f a)) ->
  no_fault (bind p f).
Proof.
  intros Hr Hp Hf. induction p as [a|c k IH|o k IH|k IH|s|]; simpl in *; auto.
Qed.

Lemma no_fault_bind {A B : Type} (p : prog A) (f : A -> prog B) :
  no_fault p -> (forall a, no_fault (f a)) -> no_fault (bind p f).
Proof.
  intros Hp Hf. induction p as [a|c k IH|o k IH|k IH|s|]; simpl in *; auto.
Qed.

Lemma no_fault_run {A : Type} (p : prog A) E h e :
  no_fault p -> outcome_of (run p E h e) <> Faulted.
Proof.
  revert h e. induction p as [a|c k IH|o k IH|k IH|s|]; intros h e Hp;
    simpl in *.
  - discriminate.
  - destruct (E h c) as [r e1]. rewrite outcome_emit. apply IH, Hp.
  - rewrite outcome_emit. now apply IH.
  - now apply IH.
  - discriminate.
  - contradiction.
Qed.

Lemma fails_only_no_fault {A : Type} (p : prog A) : fails_only p -> no_fault p.
Proof. induction p as [a|c k IH|o k IH|k IH|s|]; simpl; auto. Qed.

Lemma returns_conj {A : Type} (P Q : A -> Prop) (p : prog A) :
  returns P p -> returns Q p -> returns (fun a => P a /\ Q a) p.
Proof. induction p as [a|c k IH|o k IH|k IH|s|]; simpl; auto. Qed.

Lemma returns_mono {A : Type} (P Q : A -> Prop) (p : prog A) :
  (forall a, P a -> Q a) -> returns P p -> returns Q p.
Proof.
  intros HPQ. induction p as [a|c k IH|o k IH|k IH|s|]; simpl; auto.
Qed.

Ltac no_fault_step :=
  match goal with
  | |- no_fault (bind _ _) => apply no_fault_bind; [| intros]
  | |- no_fault (if ?b then _ else _) => destruct b
  | |- no_fault (match ?x with _ => _ end) => destruct x
  | |- no_fault (sys _) => intro; exact I
  | |- no_fault (out _) => exact I
  | |- no_fault (printf _ _) => exact I
  | |- no_fault (fprintf _ _ _) => exact I
  | |- no_fault (putchar _) => exact I
  | |- no_fault (fflush _) => exact I
  | |- no_fault (perror _) => intro; exact I
  | |- no_fault errno => intro; exact I
  | |- no_fault (ext ?r) => destruct r; exact I
  | |- no_fault (Sys _ _) => intro
  | |- no_fault (Out _ _) => cbn [no_fault]
  | |- no_fault (Errno _) => intro
  | |- no_fault (Ret _) => exact I
  | |- no_fault (exit _) => exact I
  | |- no_fault (Exit _) => exact I
  | |- no_fault usage => exact I
  | |- no_fault _ => solve [eauto]
  end.

Ltac no_fault_auto := repeat no_fault_step.

Lemma getblocks_no_fault fd : no_fault (getblocks fd).
Proof. unfold getblocks. no_fault_auto. Qed.

Lemma blkdiscard_all_no_fault path fd : no_fault (blkdiscard_all path fd).
Proof. unfold blkdiscard_all. no_fault_auto. Qed.

Lemma get_blocksize_no_fault path : no_fault (get_blocksize path).
Proof. unfold get_blocksize. no_fault_auto. Qed.

Lemma write_sb_reopen_no_fault n dev fd opened :
  no_fault (write_sb_reopen n dev fd opened).
Proof.
  revert fd opened. induction n as [|n IH]; intros fd opened; simpl.
  - exact I.
  - intros _ fd'. destruct (fd' =? -1); simpl; auto.
Qed.

Lemma write_sb_open_no_fault dev force : no_fault (write_sb_open dev force).
Proof.
  unfold write_sb_open. pose proof write_sb_reopen_no_fault. no_fault_auto.
Qed.

Lemma write_sb_wipe_no_fault dev fd wipe force :
  no_fault (write_sb_wipe dev fd wipe force).
Proof. unfold write_sb_wipe. no_fault_auto. Qed.

Lemma write_sb_probe_no_fault dev fd : no_fault (write_sb_probe dev fd).
Proof. unfold write_sb_probe. no_fault_auto. Qed.

Lemma write_sb_put_no_fault dev fd sbc sb :
  no_fault (write_sb_put dev fd sbc sb).
Proof.
  unfold write_sb_put. pose proof blkdiscard_all_no_fault. no_fault_auto.
Qed.

Lemma write_sb_common_bdev_label dev sbc sb :
  returns (fun sb' => sb_label sb' = sb_label sb)
    (write_sb_common_bdev dev sbc sb).
Proof.
  unfold write_sb_common_bdev. cbn [bind sys returns]. intros [z|s];
    cbn [bind ext returns]; [|exact I].
  destruct (_ && _)%bool; cbn [bind printf out putchar returns];
    now rewrite data_offset_label.
Qed.

Lemma write_sb_common_cdev_label dev sbc nb sb :
  set_bucket_size_keeps_label (sbc_bucket_size sbc) ->
  returns (fun sb' => sb_label sb' = sb_label sb)
    (write_sb_common_cdev dev sbc nb sb).
Proof.
  intros Hs. pose proof (Hs sb) as Hl.
  unfold write_sb_common_cdev, udiv.
  destruct (_ =? 0); [exact I|]. cbn [bind returns].
  destruct (_ <? _); cbn [bind fprintf printf out putchar exit returns];
    [exact I|exact Hl].
Qed.

Lemma write_sb_common_no_fault dev sbc bdev nb :
  sbc_ok sbc ->
  set_bucket_size_keeps_label (sbc_bucket_size sbc) ->
  set_bucket_size_not_zero (sbc_bucket_size sbc) ->
  no_fault (write_sb_common dev sbc bdev nb).
Proof.
  intros [Hfit Hb] Hs Hnz. unfold write_sb_common. cbn [bind sys no_fault].
  intros u.
  apply (no_fault_bind_returns
           (fun sb => List.length (sb_label sb) = Z.to_nat SB_LABEL_SIZE)).
  - destruct (SB_IS_BDEV _).
    + eapply returns_mono; [|apply write_sb_common_bdev_label].
      intros sb ->. rewrite head_label. apply repeat_length.
    + eapply returns_mono; [|now apply write_sb_common_cdev_label].
      intros sb ->. rewrite head_label. apply repeat_length.
  - destruct (SB_IS_BDEV _).
    + unfold write_sb_common_bdev. no_fault_auto.
    + pose proof (Hnz (write_sb_common_head sbc bdev u)) as Hsz.
      unfold write_sb_common_cdev, udiv.
      cbn [sb_bucket_size set_sb_nr_in_set set_sb_nbuckets].
      destruct (Z.eqb_spec
                  (sb_bucket_size
                     (set_bucket_size (write_sb_common_head sbc bdev u)
                        (sbc_bucket_size sbc))) 0) as [Hz|_];
        [contradiction|].
      no_fault_auto.
  - intros sb Hlen.
    destruct (write_label_fits sbc (sb_label sb) Hfit Hlen) as [arr' ->].
    exact I.
Qed.

Lemma udiv_no_fault a b : b <> 0 -> no_fault (udiv a b).
Proof.
  intros Hb. unfold udiv. destruct (Z.eqb_spec b 0); [contradiction|exact I].
Qed.

Lemma write_sb_format_no_fault dev fd sbc bdev :
  sbc_ok sbc ->
  set_bucket_size_keeps_label (sbc_bucket_size sbc) ->
  set_bucket_size_not_zero (sbc_bucket_size sbc) ->
  no_fault (write_sb_format dev fd sbc bdev).
Proof.
  intros Hok Hs Hnz. pose proof Hok as [_ Hb]. unfold write_sb_format.
  apply no_fault_bind; [apply getblocks_no_fault|]. intros blocks.
  apply no_fault_bind; [apply udiv_no_fault; lia|]. intros nbuckets.
  apply no_fault_bind; [now apply write_sb_common_no_fault|]. intros sb.
  apply write_sb_put_no_fault.
Qed.

Lemma write_sb_no_fault dev sbc bdev force :
  sbc_ok sbc ->
  set_bucket_size_keeps_label (sbc_bucket_size sbc) ->
  set_bucket_size_not_zero (sbc_bucket_size sbc) ->
  no_fault (write_sb dev sbc bdev force).
Proof.
  intros Hok Hs Hnz. unfold write_sb.
  apply no_fault_bind; [apply write_sb_open_no_fault|]. intros fd.
  apply no_fault_bind; [apply write_sb_wipe_no_fault|]. intros _.
  apply no_fault_bind; [apply write_sb_probe_no_fault|]. intros _.
  now apply write_sb_format_no_fault.
Qed.

Lemma write_sb_ioctl_no_fault dev sbc bdev force :
  sbc_ok sbc ->
  set_bucket_size_keeps_label (sbc_bucket_size sbc) ->
  set_bucket_size_not_zero (sbc_bucket_size sbc) ->
  no_fault (write_sb_ioctl dev sbc bdev force).
Proof.
  intros Hok Hs Hnz. pose proof Hok as [_ Hb]. unfold write_sb_ioctl.
  pose proof getblocks_no_fault.
  pose proof (fun nb => write_sb_common_no_fault dev sbc bdev nb Hok Hs Hnz).
  assert (Hu : forall a, no_fault (udiv a (sbc_bucket_size sbc)))
    by (intros a; apply udiv_no_fault; lia).
  no_fault_auto.
Qed.

Lemma make_bcache_block_size_no_fault devices b :
  no_fault (make_bcache_block_size devices b).
Proof.
  revert b. induction devices as [|d devices IH]; intros b;
    cbn [make_bcache_block_size].
  - exact I.
  - apply no_fault_bind; [apply get_blocksize_no_fault|]. intros b'. apply IH.
Qed.

Lemma make_bcache_cache_devices_no_fault devices sbc use_ioctl force :
  sbc_ok sbc ->
  set_bucket_size_keeps_label (sbc_bucket_size sbc) ->
  set_bucket_size_not_zero (sbc_bucket_size sbc) ->
  no_fault (make_bcache_cache_devices devices sbc use_ioctl force).
Proof.
  intros Hok Hs Hnz. induction devices as [|d devices IH];
    cbn [make_bcache_cache_devices].
  - exact I.
  - apply no_fault_bind; [destruct use_ioctl; exact I|]. intros _.
    apply no_fault_bind; [now apply write_sb_no_fault|]. intros _. exact IH.
Qed.

Lemma make_bcache_backing_devices_no_fault devices sbc use_ioctl force :
  sbc_ok sbc ->
  set_bucket_size_keeps_label (sbc_bucket_size sbc) ->
  set_bucket_size_not_zero (sbc_bucket_size sbc) ->
  no_fault (make_bcache_backing_devices devices sbc use_ioctl force).
Proof.
  revert sbc. induction devices as [|d devices IH]; intros sbc Hok Hs Hnz;
    cbn [make_bcache_backing_devices].
  - exact I.
  - apply (no_fault_bind_returns
             (fun sbc' => sbc_ok sbc' /\
                          sbc_bucket_size sbc' = sbc_bucket_size sbc)).
    + unfold make_bcache_backing_device. cbn [bind sys returns].
      intros [off|s]; cbn [bind ext returns]; [|exact I].
      destruct use_ioctl.
      * eapply returns_bind; [apply returns_True|]. intros _ _.
        eapply returns_bind; [apply returns_True|]. intros _ _.
        cbn [returns]. split; [exact Hok|reflexivity].
      * eapply returns_bind; [apply returns_True|]. intros _ _.
        cbn [returns]. split; [exact Hok|reflexivity].
    + unfold make_bcache_backing_device. cbn [bind sys no_fault].
      intros [off|s]; cbn [bind ext no_fault]; [|exact I].
      destruct use_ioctl.
      * apply no_fault_bind; [destruct (negb _); exact I|]. intros _.
        apply no_fault_bind; [|intros; exact I].
        apply write_sb_ioctl_no_fault; [exact Hok|exact Hs|exact Hnz].
      * apply no_fault_bind; [|intros; exact I].
        apply write_sb_no_fault; [exact Hok|exact Hs|exact Hnz].
    + intros sbc' [Hok' Hb']. apply IH; [exact Hok'| |]; now rewrite Hb'.
Qed.

Lemma make_bcache_devices_no_fault l :
  sizes_ok l -> label_ok l ->
  (forall b, 1 <= b <= UINT_MAX ->
     set_bucket_size_keeps_label b /\ set_bucket_size_not_zero b) ->
  no_fault (make_bcache_devices l).
Proof.
  intros [[[k [Hk Hp]] Hmax] _] Hlab Hs. unfold make_bcache_devices.
  assert (Hb : 1 <= l_bucket_size l <= UINT_MAX).
  { split; [|exact Hmax]. rewrite Hp.
    pose proof (Z.pow_pos_nonneg 2 k). lia. }
  apply no_fault_bind.
  { apply fails_only_no_fault. unfold make_bcache_validate.
    repeat match goal with
           | |- fails_only (bind _ _) => apply fails_only_bind; [|intros]
           | |- fails_only (if ?b then _ else _) => destruct b
           end; try exact I; reflexivity. }
  intros _. apply no_fault_bind; [|intros; exact I].
  unfold make_bcache_format.
  apply no_fault_bind.
  { destruct (_ =? 0); [|exact I].
    apply no_fault_bind; [apply make_bcache_block_size_no_fault|].
    intros b. apply make_bcache_block_size_no_fault. }
  intros block_size.
  apply no_fault_bind.
  - apply make_bcache_cache_devices_no_fault;
      [split; [exact Hlab|exact Hb]|now apply Hs|now apply Hs].
  - intros _. apply make_bcache_backing_devices_no_fault;
      [split; [exact Hlab|exact Hb]|now apply Hs|now apply Hs].
Qed.

(** X9: [make_bcache] never divides by zero and never stores past the end
    of the label array, whatever the command line and whatever the devices
    answer: the bucket size it divides by is a power of two, and the label
    it copies into the superblock has been checked against
    [SB_LABEL_SIZE].  This relies on [set_bucket_size] (bcache.h) storing a
    bucket size that is not zero and leaving the label alone. *)
Theorem make_bcache_never_faults opts E h e :
  0 < SB_LABEL_SIZE ->
  (forall b, 1 <= b <= UINT_MAX ->
     set_bucket_size_keeps_label b /\ set_bucket_size_not_zero b) ->
  outcome_of (run (make_bcache opts) E h e) <> Faulted.
Proof.
  intros Hlab Hs. apply no_fault_run. unfold make_bcache.
  apply (no_fault_bind_returns (fun l => sizes_ok l /\ label_ok l)).
  - apply returns_conj.
    + apply make_bcache_parse_keeps; [exact make_bcache_option_sizes|].
      intros u. split; [split|now left].
      * exists 10. split; [lia|reflexivity].
      * unfold UINT_MAX. cbn [l_bucket_size]. lia.
    + apply make_bcache_parse_keeps; [exact make_bcache_option_label|].
      intros u. exact Hlab.
  - apply fails_only_no_fault, make_bcache_parse_fails_only.
  - intros l [Hsz Hl]. now apply make_bcache_devices_no_fault.
Qed.

(** ** The label of the superblock *)

Lemma store_at (pre rest : list ascii) (c : ascii) :
  store (pre ++ rest) (List.length pre) c =
  match rest with
  | [] => None
  | _ :: rest' => Some (pre ++ c :: rest')%list
  end.
Proof.
  induction pre as [|x pre IH]; simpl.
  - destruct rest; reflexivity.
  - rewrite IH. destruct rest; reflexivity.
Qed.

Lemma write_label_at (src pre rest : list ascii) :
  write_label src (List.length pre) (pre ++ rest) =
  if (List.length src <? List.length rest)%nat
  then Ret (pre ++ src ++ zero :: skipn (S (List.length src)) rest)%list
  else Fault.
Proof.
  revert pre rest. induction src as [|c src IH]; intros pre rest;
    cbn [write_label]; rewrite store_at.
  - destruct rest as [|x rest]; reflexivity.
  - destruct rest as [|x rest]; [reflexivity|].
    replace (S (List.length pre)) with (List.length (pre ++ [c]))
      by (rewrite length_app; simpl; lia).
    replace (pre ++ c :: rest)%list with ((pre ++ [c]) ++ rest)%list
      by (now rewrite <- app_assoc).
    rewrite IH. cbn [List.length skipn].
    change (S (List.length src) <? S (List.length rest))%nat
      with (List.length src <? List.length rest)%nat.
    destruct (_ <? _)%nat; [|reflexivity].
    now rewrite <- app_assoc.
Qed.

Lemma write_label_zeroes (src : list ascii) (n : nat) :
  write_label src 0 (repeat zero n) =
  if (List.length src <? n)%nat
  then Ret (src ++ repeat zero (n - List.length src))%list
  else Fault.
Proof.
  pose proof (write_label_at src [] (repeat zero n)) as H.
  cbn [List.length app] in H. rewrite H, repeat_length.
  destruct (Nat.ltb_spec (List.length src) n) as [Hlt|]; [|reflexivity].
  f_equal. f_equal.
  replace (n - List.length src)%nat with (S (n - S (List.length src)))
    by lia.
  cbn [repeat]. f_equal.
  replace n with (S (List.length src) + (n - S (List.length src)))%nat at 1
    by lia.
  rewrite repeat_app, skipn_app, repeat_length, Nat.sub_diag.
  rewrite skipn_all2 by (rewrite repeat_length; lia). reflexivity.
Qed.

Lemma write_sb_common_label_returns dev sbc bdev nb :
  set_bucket_size_keeps_label (sbc_bucket_size sbc) ->
  returns
    (fun sb =>
       label_fits sbc /\
       sb_label sb =
         (list_ascii_of_string (sbc_label sbc)
          ++ repeat zero (Z.to_nat SB_LABEL_SIZE
                          - String.length (sbc_label sbc)))%list)
    (write_sb_common dev sbc bdev nb).
Proof.
  intros Hs. unfold write_sb_common. cbn [bind sys returns]. intros u.
  apply (returns_bind
           (fun sb => sb_label sb = repeat zero (Z.to_nat SB_LABEL_SIZE))).
  - destruct (SB_IS_BDEV _).
    + eapply returns_mono; [|apply write_sb_common_bdev_label].
      intros sb ->. apply head_label.
    + eapply returns_mono; [|now apply write_sb_common_cdev_label].
      intros sb ->. apply head_label.
  - intros sb Hl. rewrite Hl, write_label_zeroes.
    rewrite length_list_ascii_of_string.
    destruct (Nat.ltb_spec (String.length (sbc_label sbc))
                (Z.to_nat SB_LABEL_SIZE)) as [Hlt|]; [|exact I].
    cbn [bind returns sb_label set_sb_label]. split; [|reflexivity].
    unfold label_fits. lia.
Qed.

(** X10: the label of a superblock [write_sb_common] hands back is the text
    of the context followed by NUL characters up to [SB_LABEL_SIZE].  No
    superblock is handed back for a label that does not fit: the loop of
    lines 351-353 would store past the end of the array.  This relies on
    [set_bucket_size] (bcache.h) leaving the label alone. *)
Theorem write_sb_common_stores_label dev sbc bdev nb E h e sb :
  set_bucket_size_keeps_label (sbc_bucket_size sbc) ->
  outcome_of (run (write_sb_common dev sbc bdev nb) E h e) = Done sb ->
  Z.of_nat (String.length (sbc_label sbc)) < SB_LABEL_SIZE /\
  sb_label sb =
    (list_ascii_of_string (sbc_label sbc)
     ++ repeat zero (Z.to_nat SB_LABEL_SIZE
                     - String.length (sbc_label sbc)))%list /\
  List.length (sb_label sb) = Z.to_nat SB_LABEL_SIZE.
Proof.
  intros Hs Hd.
  destruct (returns_run _ _ E h e sb
              (write_sb_common_label_returns dev sbc bdev nb Hs) Hd)
    as [Hfit Hl].
  split; [exact Hfit|]. split; [exact Hl|].
  rewrite Hl, length_app, repeat_length, length_list_ascii_of_string.
  unfold label_fits in Hfit. lia.
Qed.

(** ** blkdiscard_all *)

Lemma land_not64 y : Z.land (u64 y) (not64 y) = 0.
Proof.
  unfold not64, ULLONG_MAX.
  assert (Ha : 0 <= u64 y < 2 ^ 64) by (apply Z.mod_pos_bound; lia).
  set (a := u64 y) in *.
  replace (2 ^ 64 - 1) with (Z.ones 64) by reflexivity.
  assert (Hl : Z.ldiff a (Z.ones 64) = 0).
  { destruct (Z.eq_dec a 0) as [->|Hnz]; [apply Z.ldiff_0_l|].
    apply Z.ldiff_ones_r_low; [lia|]. apply Z.log2_lt_pow2; lia. }
  rewrite (Z.sub_nocarry_ldiff _ _ Hl).
  apply Z.bits_inj'. intros n Hn.
  rewrite Z.land_spec, Z.ldiff_spec, Z.bits_0.
  destruct (Z.testbit a n); [|reflexivity]. now rewrite andb_false_r.
Qed.

Lemma u64_small x : 0 <= x < 2 ^ 64 -> u64 x = x.
Proof. intros Hx. unfold u64. now apply Z.mod_small. Qed.

Lemma not64_range y : 0 <= not64 y < 2 ^ 64.
Proof.
  unfold not64, ULLONG_MAX.
  pose proof (Z.mod_pos_bound y (2 ^ 64)). unfold u64. lia.
Qed.

Lemma land_max_range y : 0 <= y < 2 ^ 64 -> 0 <= Z.land ULLONG_MAX y < 2 ^ 64.
Proof.
  intros Hy. split; [apply Z.land_nonneg; lia|].
  assert (H : Z.land ULLONG_MAX y <= y); [|lia].
  rewrite Z.land_comm. replace ULLONG_MAX with (Z.ones 64) by reflexivity.
  rewrite Z.land_ones by lia. rewrite Z.mod_small; lia.
Qed.

(** X11: [blkdiscard_all] always comes back, with 0 or -1, and never
    stops the run.  The one range it may hand to [BLKDISCARD] starts at
    byte 0 and is no longer than the size [BLKGETSIZE64] gave.  It returns
    0 exactly when that [BLKDISCARD] succeeded. *)
Theorem blkdiscard_all_within_device path fd E h e :
  let r := run (blkdiscard_all path fd) E h e in
  (outcome_of r = Done 0 \/ outcome_of r = Done (-1)) /\
  (forall range0 range1,
     In (range0, range1) (discards (events_of r)) ->
     discards (events_of r) = [(range0, range1)] /\
     range0 = 0 /\
     exists size,
       device_bytes (events_of r) = Some size /\ 0 <= range1 <= size) /\
  (outcome_of r = Done 0 <-> existsb discard_done (events_of r) = true).
Proof.
  intros r. subst r. unfold blkdiscard_all. exec.
  step E. destruct r as [r0 st]. cbn [fst snd].
  branch.
  { split; [now right|]. split; [intros ? ? []|]. split; discriminate. }
  branch.
  { split; [now right|]. split; [intros ? ? []|]. split; discriminate. }
  step E. destruct r as [r1 blksize]. cbn [fst snd].
  branch.
  { split; [now right|]. split; [intros ? ? []|]. split; discriminate. }
  step E. destruct r as [r2 secsize]. cbn [fst snd].
  branch.
  { split; [now right|]. split; [intros ? ? []|]. split; discriminate. }
  rewrite Z.add_0_l in *.
  rewrite !land_not64 in *. rewrite !Z.add_0_l in *. rewrite !Z.sub_0_r in *.
  set (range1 := Z.land ULLONG_MAX (not64 (u64 secsize - 1))) in *.
  assert (Hr1 : 0 <= range1 < 2 ^ 64)
    by (apply land_max_range, not64_range).
  assert (Hbs : 0 <= u64 blksize < 2 ^ 64) by (apply Z.mod_pos_bound; lia).
  rewrite !(u64_small range1 Hr1), !(u64_small (u64 blksize) Hbs).
  set (len := if ((range1 <? 0) || (range1 >? u64 blksize))%bool
              then u64 blksize else range1).
  assert (Hlen : 0 <= len <= u64 blksize).
  { subst len. destruct (Z.ltb_spec range1 0); [lia|]. cbn [orb].
    destruct (Z.gtb_spec range1 (u64 blksize)); lia. }
  step E. rename r into r3.
  assert (Hin : forall range0 range1',
            (0, len) = (range0, range1') \/ False ->
            [(0, len)] = [(range0, range1')] /\ range0 = 0 /\
            exists size, Some (u64 blksize) = Some size /\
                         0 <= range1' <= size).
  { intros ? ? [[= <- <-]|[]]. split; [reflexivity|]. split; [reflexivity|].
    eexists. split; [reflexivity|exact Hlen]. }
  branch.
  - split; [now right|]. split; [exact Hin|].
    cbn. apply negb_true_iff in Hb3. rewrite Hb3. split; discriminate.
  - split; [now left|]. split; [exact Hin|].
    cbn. apply negb_false_iff in Hb3. rewrite Hb3. split; reflexivity.
Qed.

(** ** What write_sb does not do *)

Lemma write_sb_open_without_force dev :
  always is_open_call no_name_line (write_sb_open dev false).
Proof.
  unfold write_sb_open. cbn [bind sys always]. split; [reflexivity|].
  intros fd. destruct (fd =? -1); [|exact I].
  cbn [bind errno always]. intros e. rewrite andb_false_r.
  split; [reflexivity|exact I].
Qed.

Lemma write_sb_after_open_always dev fd sbc bdev force :
  always (fun c => (write_sb_wipe_calls c || write_sb_probe_calls c
                    || write_sb_format_calls c)%bool) any_output
    (write_sb_wipe dev fd (sbc_wipe_bcache sbc) force ;;
     write_sb_probe dev fd ;;
     write_sb_format dev fd sbc bdev).
Proof.
  apply always_bind; [|intros _; apply always_bind; [|intros _]].
  - eapply always_mono; [| |apply write_sb_wipe_always]; auto.
    intros c Hc. now rewrite Hc.
  - eapply always_mono; [| |apply write_sb_probe_always]; auto.
    intros c Hc. rewrite Hc. now rewrite !orb_true_r.
  - eapply always_mono; [| |apply write_sb_format_always]; auto.
    intros c Hc. rewrite Hc. now rewrite !orb_true_r.
Qed.

Lemma run_write_sb_cannot_open dev sbc bdev force (E : env) h e e1 :
  E h (c_open dev [O_RDWR; O_EXCL]) = (-1, e1) ->
  force = false \/ e1 <> 16 ->
  run (write_sb dev sbc bdev force) E h e
  = (Exited EXIT_FAILURE, e1,
     [EvCall (c_open dev [O_RDWR; O_EXCL]) (-1) e1; cannot_open dev e1]).
Proof.
  intros HE Hf. unfold write_sb, write_sb_open. exec. rewrite HE.
  cbn [Z.eqb Pos.eqb]. exec.
  assert (Hc : ((e1 =? 16) && force)%bool = false).
  { destruct Hf as [->|Hne]; [apply andb_false_r|].
    apply Z.eqb_neq in Hne. now rewrite Hne. }
  rewrite Hc. reflexivity.
Qed.

(** X12: without [--force], [write_sb] never asks the driver to let go of
    a device and never waits for it: no [detail_dev], [stop_backdev],
    [unregister_cset] or [sleep].  An exclusive open that fails is then
    fatal at once, with the message of lines 414-415; the same holds with
    [--force] when the open failed for another reason than [EBUSY]. *)
Theorem busy_device_needs_force dev sbc bdev E h e :
  existsb quiesces (events_of (run (write_sb dev sbc bdev false) E h e))
  = false /\
  (forall force e1,
     E h (c_open dev [O_RDWR; O_EXCL]) = (-1, e1) ->
     force = false \/ e1 <> 16 ->
     run (write_sb dev sbc bdev force) E h e
     = (Exited EXIT_FAILURE, e1,
        [EvCall (c_open dev [O_RDWR; O_EXCL]) (-1) e1; cannot_open dev e1])).
Proof.
  split.
  - assert (Ha : always
                   (fun c => (is_open_call c || write_sb_wipe_calls c
                              || write_sb_probe_calls c
                              || write_sb_format_calls c)%bool) any_output
                   (write_sb dev sbc bdev false)).
    { unfold write_sb. apply always_bind.
      - eapply always_mono; [| |apply write_sb_open_without_force]; auto.
        intros c Hc. now rewrite Hc.
      - intros fd.
        eapply always_mono; [| |apply write_sb_after_open_always]; auto.
        intros c Hc. cbv beta in Hc. rewrite <- !orb_assoc.
        rewrite <- !orb_assoc in Hc. rewrite Hc. apply orb_true_r. }
    eapply existsb_none; [|apply always_run, Ha].
    intros ev. destruct ev as [c r e'|o]; [destruct c|]; simpl; auto;
      discriminate.
  - intros force e1. apply run_write_sb_cannot_open.
Qed.

Lemma write_sb_common_backing_is_bdev dev sbc nb :
  version_is_bdev BCACHE_SB_VERSION_BDEV = true ->
  version_is_bdev BCACHE_SB_VERSION_BDEV_WITH_OFFSET = true ->
  returns (fun sb => SB_IS_BDEV sb = true) (write_sb_common dev sbc true nb).
Proof.
  intros Hb Ho. unfold write_sb_common. cbn [bind sys returns]. intros u.
  assert (Hh : SB_IS_BDEV (write_sb_common_head sbc true u) = true)
    by exact Hb.
  rewrite Hh.
  apply (returns_bind (fun sb => SB_IS_BDEV sb = true)).
  - unfold write_sb_common_bdev. cbn [bind sys returns]. intros [z|s];
      cbn [bind ext returns]; [|exact I].
    destruct (_ && _)%bool; cbn [bind printf out putchar returns];
      unfold SB_IS_BDEV; rewrite data_offset_version;
      cbn [sb_version SET_BDEV_CACHE_MODE set_sb_flags];
      rewrite head_version;
      destruct (negb _); try exact Hb; destruct (_ <? _); assumption.
  - intros sb Hsb.
    eapply returns_bind; [apply returns_True|]. intros lbl _. exact Hsb.
Qed.

Lemma write_sb_put_without_discard dev fd sbc sb :
  SB_IS_BDEV sb = true \/ sbc_discard sbc = false ->
  always (fun c => negb (is_discard_call c)) any_output
    (write_sb_put dev fd sbc sb).
Proof.
  intros Hd. unfold write_sb_put.
  apply always_bind.
  - destruct Hd as [-> | ->]; [exact I|]. destruct (negb _); exact I.
  - intros _. always_auto.
Qed.

(** X13: discarding is for cache devices formatted with [--discard] only.
    A run of [write_sb] without [--discard] issues no [BLKDISCARD], and
    neither does a run that formats a backing device, [--discard] or
    not. *)
Theorem discard_only_for_cache_devices dev sbc bdev force E h e :
  sbc_discard sbc = false \/
  (bdev = true /\
   version_is_bdev BCACHE_SB_VERSION_BDEV = true /\
   version_is_bdev BCACHE_SB_VERSION_BDEV_WITH_OFFSET = true) ->
  discards (events_of (run (write_sb dev sbc bdev force) E h e)) = [].
Proof.
  intros Hd.
  assert (Ha : always (fun c => negb (is_discard_call c)) any_output
                 (write_sb dev sbc bdev force)).
  { unfold write_sb.
    apply always_bind.
    { eapply always_mono; [| |apply write_sb_open_always]; auto.
      intros c; destruct c; simpl; auto. }
    intros fd. apply always_bind.
    { eapply always_mono; [| |apply write_sb_wipe_always]; auto.
      intros c; destruct c; simpl; auto. }
    intros _. apply always_bind.
    { eapply always_mono; [| |apply write_sb_probe_always]; auto.
      intros c; destruct c; simpl; auto. }
    intros _. unfold write_sb_format.
    apply always_bind.
    { eapply always_mono; [| |apply getblocks_always]; auto.
      intros c; destruct c; simpl; auto. }
    intros blocks. apply always_bind; [unfold udiv; always_auto|].
    intros nbuckets.
    assert (Hc : always (fun c => negb (is_discard_call c)) any_output
                   (write_sb_common dev sbc bdev nbuckets)).
    { eapply always_mono; [| |apply write_sb_common_always]; auto.
      intros c; destruct c; simpl; auto. }
    destruct Hd as [Hd|(-> & Hb & Ho)].
    - apply always_bind; [exact Hc|]. intros sb.
      apply write_sb_put_without_discard. now right.
    - eapply always_bind_returns;
        [exact Hc|now apply write_sb_common_backing_is_bdev|].
      intros sb Hsb. apply write_sb_put_without_discard. now left. }
  pose proof (always_run _ _ _ E h e Ha) as Hall.
  induction (events_of (run (write_sb dev sbc bdev force) E h e))
    as [|ev t IH]; [reflexivity|].
  cbn [forallb] in Hall. apply andb_true_iff in Hall. destruct Hall as [Hev Ht].
  destruct ev as [c r e'|o]; [|exact (IH Ht)].
  destruct c; cbn [discards]; try exact (IH Ht). discriminate Hev.
Qed.

(** ** The writes of write_sb *)

Lemma comes_back_run {A : Type} (p : prog A) E h e :
  comes_back p -> exists a, outcome_of (run p E h e) = Done a.
Proof.
  revert h e. induction p as [a|c k IH|o k IH|k IH|s|]; intros h e Hp;
    simpl in *.
  - eexists. reflexivity.
  - destruct (E h c) as [r e1]. rewrite outcome_emit. apply IH, Hp.
  - rewrite outcome_emit. now apply IH.
  - now apply IH.
  - contradiction.
  - contradiction.
Qed.

Lemma comes_back_bind {A B : Type} (p : prog A) (f : A -> prog B) :
  comes_back p -> (forall a, comes_back (f a)) -> comes_back (bind p f).
Proof.
  intros Hp Hf. induction p as [a|c k IH|o k IH|k IH|s|]; simpl in *; auto.
Qed.

Lemma blkdiscard_all_comes_back path fd : comes_back (blkdiscard_all path fd).
Proof.
  unfold blkdiscard_all. cbn [bind printf fflush out sys comes_back].
  intros [r st]. destruct (r =? -1); [exact I|].
  destruct (negb (st_isblk st)); [exact I|].
  cbn [bind sys comes_back]. intros [r1 blksize].
  destruct (negb (r1 =? 0)); [exact I|].
  cbn [bind sys comes_back]. intros [r2 secsize].
  destruct (negb (r2 =? 0)); [exact I|].
  cbn [bind sys comes_back]. intros r3.
  destruct (negb (r3 =? 0)); exact I.
Qed.

(** X14: how [write_sb] puts a superblock on the device (lines 464-491).
    After the discard, if there is one, the first [SB_START] bytes of the
    device are zeroed, then the record with its checksum is written at
    [SB_START], then comes [fsync], then [close].  A write that does not
    return the full count is fatal, with [perror], and nothing follows it:
    no superblock is written when the zeroing fell short.  A discard that
    failed does not stop the writes. *)
Theorem write_sb_put_order dev fd sbc sb E h e :
  let r := run (write_sb_put dev fd sbc sb) E h e in
  exists pre rest,
    events_of r = (pre ++ rest)%list /\
    forallb (event_ok blkdiscard_all_calls any_output) pre = true /\
    (SB_IS_BDEV sb = true \/ sbc_discard sbc = false -> pre = []) /\
    exists n1 e1,
      (n1 <> SB_START /\ outcome_of r = Exited EXIT_FAILURE /\
       rest = [zero_start fd n1 e1; EvOut (o_perror "write error\n" e1)]) \/
      (n1 = SB_START /\
       exists n2 e2,
         (n2 <> sizeof_cache_sb_disk /\ outcome_of r = Exited EXIT_FAILURE /\
          rest = [zero_start fd n1 e1; put_superblock fd sb n2 e2;
                  EvOut (o_perror "write error\n" e2)]) \/
         (n2 = sizeof_cache_sb_disk /\ outcome_of r = Done tt /\
          exists r3 e3 r4 e4,
            rest = [zero_start fd n1 e1; put_superblock fd sb n2 e2;
                    EvCall (c_fsync fd) r3 e3; EvCall (c_close fd) r4 e4])).
Proof.
  intros r. subst r. unfold write_sb_put. rewrite run_bind.
  match goal with
  | |- context [run ?p E h e] =>
      assert (Ha : always blkdiscard_all_calls any_output p);
      [|assert (Hc : comes_back p);
        [|assert (Hn : SB_IS_BDEV sb = true \/ sbc_discard sbc = false ->
                       events_of (run p E h e) = [])]]
  end.
  { destruct (negb _); [|exact I]. destruct (sbc_discard sbc); [|exact I].
    apply always_bind; [|intros; exact I].
    eapply always_mono; [| |apply blkdiscard_all_always]; auto. }
  { destruct (negb _); [|exact I]. destruct (sbc_discard sbc); [|exact I].
    apply comes_back_bind; [apply blkdiscard_all_comes_back|].
    intros; exact I. }
  { intros [-> | ->]; [reflexivity|]. destruct (negb _); reflexivity. }
  apply (always_run _ _ _ E h e) in Ha.
  destruct (comes_back_run _ E h e Hc) as [[] Hd].
  match goal with
  | |- context [run ?p E h e] =>
      destruct (run p E h e) as [[o e0] pre]
  end.
  cbn [outcome_of events_of fst snd] in *. subst o.
  exists pre.
  unfold zero_start, put_superblock, sb_disk_image.
  exec. step E. rename r into n1, e1 into ea.
  destruct (Z.eqb_spec n1 SB_START) as [Hn1|Hn1]; exec.
  - step E. rename r into n2, e1 into eb.
    destruct (Z.eqb_spec n2 sizeof_cache_sb_disk) as [Hn2|Hn2]; exec.
    + step E. step E.
      eexists. split; [reflexivity|]. split; [exact Ha|]. split; [exact Hn|].
      exists n1, ea. right. split; [exact Hn1|].
      exists n2, eb. right. split; [exact Hn2|]. split; [reflexivity|].
      do 4 eexists. reflexivity.
    + eexists. split; [reflexivity|]. split; [exact Ha|]. split; [exact Hn|].
      exists n1, ea. right. split; [exact Hn1|].
      exists n2, eb. left. split; [exact Hn2|]. split; reflexivity.
  - eexists. split; [reflexivity|]. split; [exact Ha|]. split; [exact Hn|].
    exists n1, ea. left. split; [exact Hn1|]. split; reflexivity.
Qed.

(** ** Registration through the control device *)

Lemma registered_app t1 t2 :
  registered (t1 ++ t2) = (registered t1 ++ registered t2)%list.
Proof.
  induction t1 as [|ev t1 IH]; simpl; auto.
  destruct ev as [c r e|o]; auto.
  destruct c; simpl; auto. congruence.
Qed.

Lemma registers_bind {A B : Type} (p : prog A) (f : A -> prog B) l1 l2 :
  registers p l1 -> (forall a, registers (f a) l2) ->
  registers (bind p f) (l1 ++ l2).
Proof.
  intros Hp Hf. revert l1 Hp.
  induction p as [a|c k IH|o k IH|k IH|s|]; intros l1 Hp; simpl in *; auto.
  - subst l1. apply Hf.
  - destruct c; auto.
    destruct l1 as [|d l1]; [contradiction|]. destruct Hp as [Hd Hk].
    cbn [app]. split; auto.
Qed.

Lemma registers_never {A : Type} R (p : prog A) :
  always (fun c => negb (is_register_call c)) R p -> registers p [].
Proof.
  induction p as [a|c k IH|o k IH|k IH|s|]; simpl; auto.
  - intros [Hc Hk]. destruct c; try (intros r; apply IH; auto).
    discriminate Hc.
  - intros [_ Hk]. auto.
Qed.

Lemma registers_run {A : Type} (p : prog A) l E h e :
  registers p l ->
  let names := map cmd_dev_name (registered (events_of (run p E h e))) in
  (exists rest, l = (names ++ rest)%list) /\
  (forall a, outcome_of (run p E h e) = Done a -> names = l).
Proof.
  revert l h e. induction p as [a|c k IH|o k IH|k IH|s|]; intros l h e Hp;
    simpl in *.
  - subst l. split; [exists []; reflexivity|reflexivity].
  - destruct (E h c) as [r e1]. rewrite events_emit, outcome_emit.
    destruct c; cbn [registered]; try (apply IH, Hp).
    destruct l as [|d l]; [contradiction|]. destruct Hp as [Hd Hk].
    destruct (IH r l (h ++ [EvCall _ r e1])%list e1 (Hk r))
      as [[rest Hrest] Hdone].
    cbn [map]. rewrite Hd. split.
    + exists rest. cbn [app]. now rewrite <- Hrest.
    + intros a Ha. now rewrite (Hdone a Ha).
  - rewrite events_emit, outcome_emit. cbn [registered]. now apply IH.
  - now apply IH.
  - split; [exists l; reflexivity|discriminate].
  - split; [exists l; reflexivity|discriminate].
Qed.

Lemma write_sb_never_registers dev sbc bdev force :
  always (fun c => negb (is_register_call c)) any_output
    (write_sb dev sbc bdev force).
Proof.
  eapply always_mono; [| |apply write_sb_always]; auto.
  intros c; destruct c; simpl; auto.
Qed.

Lemma write_sb_ioctl_registers dev sbc bdev force :
  registers (write_sb_ioctl dev sbc bdev force) [dev_name_of dev].
Proof.
  unfold write_sb_ioctl. cbn [bind sys registers]. intros fd.
  destruct (fd <? 0); [exact I|].
  change [dev_name_of dev] with ([] ++ [dev_name_of dev])%list.
  apply registers_bind.
  { apply (registers_never no_name_line).
    eapply always_mono; [| |apply getblocks_always]; auto.
    intros c; destruct c; simpl; auto. }
  intros dev_blocks. cbn [bind sys registers]. intros _ [r st].
  destruct (negb (r =? 0)); [exact I|].
  destruct (negb (st_isblk st)); [exact I|].
  cbn [bind sys registers]. intros fd'.
  destruct (fd' <? 0); [intro; exact I|].
  change [dev_name_of dev] with ([] ++ [dev_name_of dev])%list.
  apply registers_bind.
  { unfold udiv. destruct (_ =? 0); [exact I|reflexivity]. }
  intros nbuckets.
  change [dev_name_of dev] with ([] ++ [dev_name_of dev])%list.
  apply registers_bind.
  { apply (registers_never any_output).
    eapply always_mono; [| |apply write_sb_common_always]; auto.
    intros c; destruct c; simpl; auto. }
  intros sb. cbn [bind sys registers cmd_dev_name]. split; [reflexivity|].
  intros r'. destruct (r' <? 0); cbn [bind errno fprintf out sys exit registers];
    intros; auto.
Qed.

Lemma length_substring_0 n s : (String.length (substring 0 n s) <= n)%nat.
Proof.
  revert s. induction n as [|n IH]; intros s.
  - destruct s; simpl; lia.
  - destruct s as [|c s]; simpl; [lia|]. specialize (IH s). lia.
Qed.

Lemma make_bcache_cache_devices_registers devices sbc use_ioctl force :
  registers (make_bcache_cache_devices devices sbc use_ioctl force) [].
Proof.
  induction devices as [|d devices IH]; cbn [make_bcache_cache_devices].
  - reflexivity.
  - change (@nil string) with (@nil string ++ [])%list.
    apply registers_bind; [destruct use_ioctl; reflexivity|]. intros _.
    change (@nil string) with (@nil string ++ [])%list.
    apply registers_bind; [|intros _; exact IH].
    eapply registers_never, write_sb_never_registers.
Qed.

Lemma make_bcache_backing_devices_registers devices sbc use_ioctl force :
  registers (make_bcache_backing_devices devices sbc use_ioctl force)
    (if use_ioctl then map dev_name_of devices else []).
Proof.
  revert sbc. induction devices as [|d devices IH]; intros sbc;
    cbn [make_bcache_backing_devices].
  - destruct use_ioctl; reflexivity.
  - replace (if use_ioctl then map dev_name_of (d :: devices) else [])
      with ((if use_ioctl then [dev_name_of d] else [])
            ++ (if use_ioctl then map dev_name_of devices else []))%list
      by (destruct use_ioctl; reflexivity).
    apply registers_bind; [|intros sbc'; apply IH].
    unfold make_bcache_backing_device. cbn [bind sys registers].
    intros [off|s]; cbn [bind ext registers]; [|exact I].
    destruct use_ioctl.
    + change [dev_name_of d] with ([] ++ [dev_name_of d])%list.
      apply registers_bind; [destruct (negb _); reflexivity|]. intros _.
      rewrite <- (app_nil_r [dev_name_of d]).
      apply registers_bind; [apply write_sb_ioctl_registers|].
      intros _. reflexivity.
    + change (@nil string) with (@nil string ++ [])%list.
      apply registers_bind; [|intros _; reflexivity].
      eapply registers_never, write_sb_never_registers.
Qed.

Lemma make_bcache_devices_registers l :
  registers (make_bcache_devices l)
    (if l_use_ioctl l then map dev_name_of (l_backing_devices l) else []).
Proof.
  unfold make_bcache_devices.
  set (names := if l_use_ioctl l then _ else _).
  change names with ([] ++ names)%list.
  apply registers_bind.
  { eapply (registers_never no_name_line).
    eapply always_mono; [| |apply make_bcache_validate_always]; auto.
    discriminate. }
  intros _. rewrite <- (app_nil_r names).
  apply registers_bind; [|intros _; reflexivity].
  unfold make_bcache_format.
  change names with ([] ++ names)%list.
  apply registers_bind.
  { eapply (registers_never any_output).
    destruct (_ =? 0); [|exact I].
    apply always_bind; [|intros b];
      (eapply always_mono; [| |apply make_bcache_block_size_always]; auto;
       intros c; destruct c; simpl; auto; discriminate). }
  intros block_size. change names with ([] ++ names)%list.
  apply registers_bind; [apply make_bcache_cache_devices_registers|].
  intros _. apply make_bcache_backing_devices_registers.
Qed.

(** X15: what reaches the control device.  Without [--ioctl] nothing is
    registered.  With [--ioctl] the backing devices are registered one by
    one in the order of the command line, each under the first
    [BDEVNAME_SIZE - 1] characters of its path; cache devices are never
    registered; a run that returns has registered every backing device
    exactly once. *)
Theorem registration_follows_command_line l E h e :
  let r := run (make_bcache_devices l) E h e in
  let names := map cmd_dev_name (registered (events_of r)) in
  let expected :=
    if l_use_ioctl l then map dev_name_of (l_backing_devices l) else [] in
  (exists rest, expected = (names ++ rest)%list) /\
  (outcome_of r = Done 0 -> names = expected) /\
  (forall n, In n names -> (String.length n < Z.to_nat BDEVNAME_SIZE)%nat).
Proof.
  intros r names expected.
  destruct (registers_run _ _ E h e (make_bcache_devices_registers l))
    as [[rest Hrest] Hdone].
  fold r in Hrest, Hdone. fold names in Hrest, Hdone. fold expected in Hrest.
  split; [exists rest; exact Hrest|]. split; [apply Hdone|].
  intros n Hn.
  assert (Hin : In n expected) by (rewrite Hrest; apply in_or_app; now left).
  subst expected. destruct (l_use_ioctl l); [|destruct Hin].
  apply in_map_iff in Hin. destruct Hin as (d & <- & _).
  unfold dev_name_of.
  pose proof (length_substring_0 (Z.to_nat (BDEVNAME_SIZE - 1)) d).
  unfold BDEVNAME_SIZE in *. lia.
Qed.

Lemma write_sb_ioctl_always dev sbc bdev force :
  always write_sb_ioctl_calls any_output (write_sb_ioctl dev sbc bdev force).
Proof.
  unfold write_sb_ioctl.
  assert (Hg : forall fd, always write_sb_ioctl_calls any_output (getblocks fd)).
  { intros fd. eapply always_mono; [| |apply getblocks_always]; auto.
    intros c Hc. unfold write_sb_ioctl_calls. now rewrite Hc. }
  assert (Hc : forall nb, always write_sb_ioctl_calls any_output
                 (write_sb_common dev sbc bdev nb)).
  { intros nb. eapply always_mono; [| |apply write_sb_common_always]; auto.
    intros c Hc. unfold write_sb_ioctl_calls. rewrite Hc.
    now rewrite !orb_true_r. }
  always_auto.
Qed.

Lemma registered_none Q R t :
  (forall c, Q c = true -> is_register_call c = false) ->
  forallb (event_ok Q R) t = true -> registered t = [].
Proof.
  intros HQ. induction t as [|ev t IH]; simpl; auto.
  intros H. apply andb_true_iff in H. destruct H as [Hev Ht].
  destruct ev as [c r e|o]; auto.
  destruct c; simpl in *; auto. apply HQ in Hev. discriminate.
Qed.

(** X16: registering through the control device leaves the device itself
    alone.  [write_sb_ioctl] never writes to it and never discards; it
    does not read the superblock area or probe for signatures, so what the
    device holds is not checked; it never asks the driver to let go of
    the device, and [force] changes nothing.  A record reaches the control
    device only after [stat] has found a block device. *)
Theorem write_sb_ioctl_leaves_device_alone dev sbc bdev force E h e :
  let r := run (write_sb_ioctl dev sbc bdev force) E h e in
  existsb writes_directly (events_of r) = false /\
  existsb looks_at_superblock (events_of r) = false /\
  existsb quiesces (events_of r) = false /\
  (forall force', run (write_sb_ioctl dev sbc bdev force') E h e = r) /\
  (registered (events_of r) = [] \/
   existsb stat_found_block (events_of r) = true).
Proof.
  intros r.
  pose proof (always_run _ _ _ E h e
                (write_sb_ioctl_always dev sbc bdev force)) as Ha.
  fold r in Ha.
  split; [|split; [|split; [|split; [reflexivity|]]]].
  1-3: eapply existsb_none; [|exact Ha];
       intros ev; destruct ev as [c r0 e'|o]; [destruct c|]; simpl; auto;
       discriminate.
  clear Ha. subst r. unfold write_sb_ioctl. exec. step E. rename r into fd.
  branch; [left; reflexivity|].
  rewrite run_bind.
  pose proof (always_run _ _ _ E
                (h ++ [EvCall (c_open dev []) fd e0])%list e0
                (getblocks_always fd)) as Hg.
  apply registered_none in Hg;
    [|intros c Hc; destruct c; simpl in *; auto; discriminate Hc].
  destruct (run (getblocks fd) E _ e0) as [[[blocks|s|] e1] t1];
    cbn [events_of snd] in Hg; exec;
    [|left; exact Hg|left; exact Hg].
  step E. step E. destruct r0 as [rs st]. cbn [fst snd].
  destruct (Z.eqb_spec rs 0) as [->|Hrs]; exec.
  2:{ left. cbn [registered]. rewrite registered_app, Hg. reflexivity. }
  destruct (st_isblk st) eqn:Hblk; exec.
  2:{ left. cbn [registered]. rewrite registered_app, Hg. reflexivity. }
  right. rewrite events_emit, events_prepend, !events_emit.
  cbn [existsb stat_found_block]. rewrite existsb_app.
  cbn [existsb stat_found_block fst snd Z.eqb andb orb].
  rewrite Hblk. cbn [orb]. apply orb_true_r.
Qed.

(** ** Refusals of the command line *)

Lemma hatoi_validate_refuses s msg max :
  valid_size s max = false ->
  returns (fun _ => False) (hatoi_validate s msg max).
Proof.
  unfold valid_size, hatoi_validate. cbv zeta.
  destruct (Z.land _ _ =? 0); cbn [negb andb]; [|intros _; exact I].
  destruct (_ >? _); cbn [negb andb]; [intros _; exact I|].
  destruct (_ =? 0); cbn [negb]; [intros _; exact I|discriminate].
Qed.

Lemma refused_option_returns o l :
  refused_option o (l_bdev l) = true ->
  returns (fun _ => False) (make_bcache_option o l).
Proof.
  unfold refused_option, make_bcache_option.
  destruct o as [c optarg|f]; [|discriminate].
  repeat match goal with
         | |- _ -> returns _ (if ?c =? ?k then _ else _) => destruct (c =? k)
         end; try discriminate.
  - intros H. apply negb_true_iff in H.
    eapply returns_bind; [now apply hatoi_validate_refuses|]. intros v [].
  - intros H. apply negb_true_iff in H.
    eapply returns_bind; [now apply hatoi_validate_refuses|]. intros v [].
  - intros ->. exact I.
  - intros ->. exact I.
  - intros _. exact I.
  - intros _. exact I.
Qed.

Lemma refuses_returns opts l :
  refuses opts (l_bdev l) = true ->
  returns (fun _ => False) (make_bcache_options opts l).
Proof.
  revert l. induction opts as [|o opts IH]; intros l;
    cbn [refuses make_bcache_options]; [discriminate|].
  intros H. apply orb_true_iff in H. destruct H as [H|H].
  - eapply returns_bind; [now apply refused_option_returns|]. intros l1 [].
  - eapply returns_bind; [apply make_bcache_option_returns|].
    intros l1 Hl1. apply IH. unfold follows_arg_step in Hl1.
    destruct (arg_step o (l_bdev l)) as [[dc db] bdev'].
    destruct Hl1 as (_ & _ & ->). exact H.
Qed.

Lemma run_parse_exits opts E h e :
  returns (fun _ => False) (make_bcache_parse opts) ->
  let r := run (make_bcache opts) E h e in
  outcome_of r = Exited EXIT_FAILURE /\
  existsb touches_device (events_of r) = false.
Proof.
  intros Hr r. subst r. unfold make_bcache. rewrite run_bind.
  pose proof (always_run _ _ _ E h e (make_bcache_parse_always opts)) as Ha.
  pose proof (fun a => returns_run _ _ E h e a Hr) as Hno.
  destruct (fails_only_run _ E h e (make_bcache_parse_fails_only opts))
    as [[a Hd]|Hx]; [destruct (Hno a Hd)|].
  destruct (run (make_bcache_parse opts) E h e) as [[o e1] t1].
  cbn [outcome_of events_of fst snd] in *. subst o.
  cbn [outcome_of events_of fst snd]. split; [reflexivity|].
  exact (existsb_none _ _ _ _ parse_does_not_touch Ha).
Qed.

(** X17: a command line with an option the loop stops at (a bucket or
    block size that is not a power of two or is out of range, a data
    offset below the default, a label that does not fit, [-h], a device
    before any [-C] or [-B]) ends in [exit(EXIT_FAILURE)], wherever the
    option stands, before any call has gone to a device or to the
    driver. *)
Theorem refused_command_line_touches_nothing opts E h e :
  refuses opts (-1) = true ->
  let r := run (make_bcache opts) E h e in
  outcome_of r = Exited EXIT_FAILURE /\
  existsb touches_device (events_of r) = false.
Proof.
  intros H. apply run_parse_exits.
  unfold make_bcache_parse. cbn [bind sys returns]. intros u.
  now apply refuses_returns.
Qed.

(** X18: a command line that names no device ends in [exit(EXIT_FAILURE)]
    before any call has gone to a device or to the driver; when the option
    loop came to its end, the last output is the message of line 705
    followed by the usage text. *)
Theorem no_device_is_fatal opts E h e :
  device_args opts (-1) = ([], []) ->
  let r := run (make_bcache opts) E h e in
  outcome_of r = Exited EXIT_FAILURE /\
  existsb touches_device (events_of r) = false /\
  (forall l, outcome_of (run (make_bcache_parse opts) E h e) = Done l ->
     exists pre, events_of r = (pre ++ no_device_supplied)%list).
Proof.
  intros Hargs r. subst r. unfold make_bcache. rewrite run_bind.
  pose proof (always_run _ _ _ E h e (make_bcache_parse_always opts)) as Ha.
  pose proof (fun a => returns_run _ _ E h e a (make_bcache_parse_returns opts))
    as Hl.
  apply (existsb_none _ _ _ _ parse_does_not_touch) in Ha.
  destruct (fails_only_run _ E h e (make_bcache_parse_fails_only opts))
    as [[l Hd]|Hx].
  - destruct (Hl l Hd) as [Hc Hb]. rewrite Hargs in Hc, Hb.
    cbn [fst snd] in Hc, Hb.
    destruct (run (make_bcache_parse opts) E h e) as [[o e1] t1].
    cbn [outcome_of events_of fst snd] in *. subst o.
    unfold make_bcache_devices, make_bcache_validate, usage. rewrite Hc, Hb.
    cbn [List.length Z.of_nat Z.eqb andb]. exec.
    split; [reflexivity|]. split.
    + rewrite existsb_app, Ha. reflexivity.
    + intros l0 _. exists t1. reflexivity.
  - destruct (run (make_bcache_parse opts) E h e) as [[o e1] t1].
    cbn [outcome_of events_of fst snd] in *. subst o.
    cbn [outcome_of events_of fst snd].
    split; [reflexivity|]. split; [exact Ha|]. discriminate.
Qed.

(** ** The data offset from one backing device to the next *)

Lemma offset_checks_app t1 t2 :
  offset_checks (t1 ++ t2) = (offset_checks t1 ++ offset_checks t2)%list.
Proof.
  induction t1 as [|ev t1 IH]; simpl; auto.
  destruct ev as [c r e|o]; auto.
  destruct c; simpl; auto. congruence.
Qed.

Lemma offset_checks_none Q R t :
  (forall c, Q c = true -> is_offset_check c = false) ->
  forallb (event_ok Q R) t = true -> offset_checks t = [].
Proof.
  intros HQ. induction t as [|ev t IH]; simpl; auto.
  intros H. apply andb_true_iff in H. destruct H as [Hev Ht].
  destruct ev as [c r e|o]; auto.
  destruct c; simpl in *; auto. apply HQ in Hev. discriminate.
Qed.

Lemma write_sb_offset_checks dev sbc bdev force E h e :
  offset_checks (events_of (run (write_sb dev sbc bdev force) E h e)) = [].
Proof.
  eapply offset_checks_none;
    [|apply always_run, (write_sb_always dev sbc bdev force)].
  intros c; destruct c; simpl; auto; discriminate.
Qed.

Lemma write_sb_ioctl_offset_checks dev sbc bdev force E h e :
  offset_checks (events_of (run (write_sb_ioctl dev sbc bdev force) E h e))
  = [].
Proof.
  eapply offset_checks_none;
    [|apply always_run, (write_sb_ioctl_always dev sbc bdev force)].
  intros c; destruct c; simpl; auto; discriminate.
Qed.

(** One turn of the loop of lines 747-760: the check it makes, and the
    context it leaves. *)
Lemma run_make_bcache_backing_device d sbc use_ioctl force (E : env) h e :
  let '(r, e1) := E h (c_check_data_offset_for_zoned_device d
                         (sbc_data_offset sbc)) in
  let res := run (make_bcache_backing_device d sbc use_ioctl force) E h e in
  offset_checks (events_of res) = [(sbc_data_offset sbc, r)] /\
  match r with
  | Returns off =>
      forall sbc', outcome_of res = Done sbc' ->
        sbc' = set_sbc_data_offset sbc (if use_ioctl then 0 else off)
  | Exits s => outcome_of res = Exited s
  end.
Proof.
  destruct (E h (c_check_data_offset_for_zoned_device d (sbc_data_offset sbc)))
    as [r e1] eqn:HE.
  cbv zeta. unfold make_bcache_backing_device. exec. rewrite HE.
  destruct r as [off|s]; exec; [|split; reflexivity].
  rewrite events_emit, outcome_emit. cbn [offset_checks].
  destruct use_ioctl.
  - rewrite run_bind.
    match goal with
    | |- context [run (if ?b then _ else _) ?E ?h ?e] =>
        assert (Hw : exists t0, run (if b then
            fprintf stderr
              "WARNING. data_offset must be 0 when using IOCTL registration! Enforcing it...\n"
              [] else Ret tt) E h e = (Done tt, e, t0)
            /\ offset_checks t0 = [])
          by (destruct b; eexists; split; reflexivity)
    end.
    destruct Hw as (t0 & -> & Ht0).
    rewrite events_prepend, outcome_prepend, offset_checks_app, Ht0.
    cbn [app]. rewrite run_bind.
    pose proof (write_sb_ioctl_offset_checks d
                  (set_sbc_data_offset (set_sbc_data_offset sbc off) 0)
                  true force E
                  ((h ++ [EvCall (c_check_data_offset_for_zoned_device d
                                    (sbc_data_offset sbc)) (Returns off) e1])
                   ++ t0)%list e1) as Hc.
    destruct (run (write_sb_ioctl d _ true force) E _ e1)
      as [[[[]|s|] e2] t2]; cbn [events_of snd] in Hc; exec;
      rewrite ?app_nil_r, Hc; (split; [reflexivity|]);
      intros sbc'; [|discriminate|discriminate].
    intros [= <-]. reflexivity.
  - rewrite run_bind.
    pose proof (write_sb_offset_checks d (set_sbc_data_offset sbc off)
                  true force E
                  (h ++ [EvCall (c_check_data_offset_for_zoned_device d
                                   (sbc_data_offset sbc)) (Returns off) e1])%list
                  e1) as Hc.
    destruct (run (write_sb d _ true force) E _ e1)
      as [[[[]|s|] e2] t2]; cbn [events_of snd] in Hc; exec;
      rewrite ?app_nil_r, Hc; (split; [reflexivity|]);
      intros sbc'; [|discriminate|discriminate].
    intros [= <-]. reflexivity.
Qed.

Lemma run_make_bcache_backing_devices_cons d devices sbc use_ioctl force
    E h e :
  run (make_bcache_backing_devices (d :: devices) sbc use_ioctl force) E h e =
  match run (make_bcache_backing_device d sbc use_ioctl force) E h e with
  | (Done sbc', e1, t1) =>
      prepend t1
        (run (make_bcache_backing_devices devices sbc' use_ioctl force) E
           (h ++ t1)%list e1)
  | (Exited s, e1, t1) => (Exited s, e1, t1)
  | (Faulted, e1, t1) => (Faulted, e1, t1)
  end.
Proof. cbn [make_bcache_backing_devices]. apply run_bind. Qed.

Lemma backing_devices_chained devices sbc force E h e :
  chained (sbc_data_offset sbc)
    (offset_checks
       (events_of
          (run (make_bcache_backing_devices devices sbc false force) E h e))).
Proof.
  revert sbc h e. induction devices as [|d devices IH]; intros sbc h e.
  - exact I.
  - rewrite run_make_bcache_backing_devices_cons.
    pose proof (run_make_bcache_backing_device d sbc false force E h e) as H.
    destruct (E h (c_check_data_offset_for_zoned_device d
                     (sbc_data_offset sbc))) as [r e1].
    cbv zeta in H. destruct H as [Hc Hr].
    destruct (run (make_bcache_backing_device d sbc false force) E h e)
      as [[[sbc'|s|] e2] t2]; cbn [events_of outcome_of fst snd] in *.
    + rewrite events_prepend, offset_checks_app, Hc. cbn [app chained].
      split; [reflexivity|].
      destruct r as [off|s]; [|discriminate Hr].
      rewrite (Hr sbc' eq_refl).
      specialize (IH (set_sbc_data_offset sbc off) (h ++ t2)%list e2).
      exact IH.
    + rewrite Hc. cbn [chained]. split; [reflexivity|].
      destruct r as [off|s']; [|reflexivity].
      exact I.
    + rewrite Hc. cbn [chained]. split; [reflexivity|].
      destruct r as [off|s']; [|reflexivity].
      exact I.
Qed.

Lemma backing_devices_checked_from_zero devices sbc force E h e :
  sbc_data_offset sbc = 0 ->
  forall a r,
    In (a, r)
      (offset_checks
         (events_of
            (run (make_bcache_backing_devices devices sbc true force) E h e)))
    -> a = 0.
Proof.
  revert sbc h e. induction devices as [|d devices IH]; intros sbc h e Hz a r.
  - intros [].
  - rewrite run_make_bcache_backing_devices_cons.
    pose proof (run_make_bcache_backing_device d sbc true force E h e) as H.
    destruct (E h (c_check_data_offset_for_zoned_device d
                     (sbc_data_offset sbc))) as [r1 e1].
    cbv zeta in H. destruct H as [Hc Hr].
    destruct (run (make_bcache_backing_device d sbc true force) E h e)
      as [[[sbc'|s|] e2] t2]; cbn [events_of outcome_of fst snd] in *.
    + rewrite events_prepend, offset_checks_app, Hc. cbn [app].
      intros [[= <- _]|Hin]; [exact Hz|].
      destruct r1 as [off|s]; [|discriminate Hr].
      rewrite (Hr sbc' eq_refl) in Hin.
      exact (IH (set_sbc_data_offset sbc 0) (h ++ t2)%list e2 eq_refl a r Hin).
    + rewrite Hc. intros [[= <- _]|[]]. exact Hz.
    + rewrite Hc. intros [[= <- _]|[]]. exact Hz.
Qed.

(** X19: the context is shared by the turns of the loop of lines 747-760.
    Without [--ioctl], [check_data_offset_for_zoned_device] is given for
    the first backing device the data offset of the command line, and for
    each later device the offset its previous call left: an adjustment
    made for one device stays for the devices after it.  With [--ioctl]
    every device after the first is checked with offset 0. *)
Theorem data_offset_carries_over d devices sbc force E h e :
  chained (sbc_data_offset sbc)
    (offset_checks
       (events_of
          (run (make_bcache_backing_devices (d :: devices) sbc false force)
             E h e))) /\
  (exists r rest,
     offset_checks
       (events_of
          (run (make_bcache_backing_devices (d :: devices) sbc true force)
             E h e))
     = (sbc_data_offset sbc, r) :: rest /\
     forall a r', In (a, r') rest -> a = 0).
Proof.
  split; [apply backing_devices_chained|].
  rewrite run_make_bcache_backing_devices_cons.
  pose proof (run_make_bcache_backing_device d sbc true force E h e) as H.
  destruct (E h (c_check_data_offset_for_zoned_device d
                   (sbc_data_offset sbc))) as [r1 e1].
  cbv zeta in H. destruct H as [Hc Hr].
  destruct (run (make_bcache_backing_device d sbc true force) E h e)
    as [[[sbc'|s|] e2] t2]; cbn [events_of outcome_of fst snd] in *.
  - rewrite events_prepend, offset_checks_app, Hc. cbn [app].
    do 2 eexists. split; [reflexivity|].
    destruct r1 as [off|s]; [|discriminate Hr].
    rewrite (Hr sbc' eq_refl).
    now apply backing_devices_checked_from_zero.
  - rewrite Hc. do 2 eexists. split; [reflexivity|]. intros ? ? [].
  - rewrite Hc. do 2 eexists. split; [reflexivity|]. intros ? ? [].
Qed.

(** ** The checks write_sb makes before it writes *)

Lemma write_sb_wipe_always_at dev fd wipe force :
  always write_sb_wipe_calls_at any_output (write_sb_wipe dev fd wipe force).
Proof.
  unfold write_sb_wipe. cbn [bind sys always]. split; [reflexivity|].
  intros [n buf]. destruct (negb _); [exact I|].
  destruct (memcmp_eq _ _ _); [|exact I].
  destruct (if force then true else wipe).
  - cbn [bind sys always write_sb_wipe_calls_at]. split; [apply Z.eqb_refl|].
    intros n'. destruct (negb _); [split; [reflexivity|exact I]|exact I].
  - split; [reflexivity|]. split; [reflexivity|exact I].
Qed.

Lemma write_sb_wipe_done dev fd wipe force E h e :
  let r := run (write_sb_wipe dev fd wipe force) E h e in
  outcome_of r = Done tt -> existsb full_read (events_of r) = true.
Proof.
  intros r. subst r. unfold write_sb_wipe. exec.
  step E. destruct r as [n buf]. cbn [fst snd].
  destruct (Z.eqb_spec n sizeof_cache_sb_disk) as [->|Hn]; exec;
    [|discriminate].
  intros _. rewrite events_emit. cbn [existsb full_read fst].
  now rewrite !Z.eqb_refl.
Qed.

Lemma write_sb_probe_done dev fd E h e :
  let r := run (write_sb_probe dev fd) E h e in
  outcome_of r = Done tt ->
  existsb probe_passed (events_of r) = true /\
  existsb probe_finds_signature (events_of r) = false.
Proof.
  intros r. subst r. unfold write_sb_probe. exec.
  step E. destruct r; exec; [|discriminate].
  step E. branch; [discriminate|].
  step E. branch; [discriminate|].
  step E. branch; [discriminate|].
  intros _. cbn [existsb probe_passed probe_finds_signature]. rewrite Hb1.
  split; reflexivity.
Qed.

(** X20: [write_sb] destroys nothing before its checks have passed.  When
    a run discards the device or writes at its very start, it has before
    that read a whole record at [SB_START] and probed the device with
    blkid, and blkid found no signature.  ([SB_START] is not 0, so that the
    erasing write of line 428 is not a write at the start.) *)
Theorem checks_come_before_writes dev sbc bdev force E h e :
  SB_START <> 0 ->
  let t := events_of (run (write_sb dev sbc bdev force) E h e) in
  existsb destroys t = true ->
  existsb full_read t = true /\
  existsb probe_passed t = true /\
  existsb probe_finds_signature t = false.
Proof.
  intros Hstart t. subst t.
  assert (Hopen : forall ev, event_ok write_sb_open_calls no_name_line ev = true ->
            destroys ev = false /\ probe_finds_signature ev = false).
  { intros ev. destruct ev as [c r e'|o]; [destruct c|]; simpl; auto;
      discriminate. }
  assert (Hwipe : forall ev, event_ok write_sb_wipe_calls_at any_output ev = true ->
            destroys ev = false /\ probe_finds_signature ev = false).
  { intros ev. destruct ev as [c r e'|o]; [destruct c|]; simpl; auto;
      try discriminate.
    intros Ho. apply Z.eqb_eq in Ho. subst offset.
    split; [now apply Z.eqb_neq|reflexivity]. }
  assert (Hprobe : forall ev,
            event_ok write_sb_probe_calls no_name_line ev = true ->
            destroys ev = false).
  { intros ev. destruct ev as [c r e'|o]; [destruct c|]; simpl; auto;
      discriminate. }
  assert (Hformat : forall ev,
            event_ok write_sb_format_calls any_output ev = true ->
            probe_finds_signature ev = false).
  { intros ev. destruct ev as [c r e'|o]; [destruct c|]; simpl; auto;
      discriminate. }
  pose proof (write_sb_parts dev sbc bdev force E h e) as H.
  cbv zeta in H. destruct H as [H0 H].
  pose proof (existsb_none destroys _ _ _ (fun ev Hev => proj1 (Hopen ev Hev)) H0)
    as Hd0.
  pose proof (existsb_none probe_finds_signature _ _ _
                (fun ev Hev => proj2 (Hopen ev Hev)) H0) as Hs0.
  destruct (run (write_sb_open dev force) E h e) as [[[fd|s|] e0] t0];
    cbn [outcome_of events_of errno_of fst snd] in *.
  2,3: destruct H as [_ ->]; rewrite Hd0; discriminate.
  pose proof (always_run _ _ _ E (h ++ t0)%list e0
                (write_sb_wipe_always_at dev fd (sbc_wipe_bcache sbc) force))
    as H1.
  pose proof (existsb_none destroys _ _ _ (fun ev Hev => proj1 (Hwipe ev Hev)) H1)
    as Hd1.
  pose proof (existsb_none probe_finds_signature _ _ _
                (fun ev Hev => proj2 (Hwipe ev Hev)) H1) as Hs1.
  pose proof (write_sb_wipe_done dev fd (sbc_wipe_bcache sbc) force E
                (h ++ t0)%list e0) as Hr1.
  cbv zeta in Hr1.
  destruct (run (write_sb_wipe dev fd (sbc_wipe_bcache sbc) force) E
              (h ++ t0)%list e0) as [[[[]|s|] e1] t1];
    cbn [outcome_of events_of errno_of fst snd] in *.
  2,3: destruct H as [_ ->]; rewrite existsb_app, Hd0, Hd1; discriminate.
  specialize (Hr1 eq_refl). destruct H as [H H2].
  pose proof (existsb_none destroys _ _ _ Hprobe H2) as Hd2.
  pose proof (write_sb_probe_done dev fd E ((h ++ t0) ++ t1)%list e1) as Hr2.
  cbv zeta in Hr2.
  destruct (run (write_sb_probe dev fd) E ((h ++ t0) ++ t1)%list e1)
    as [[[[]|s|] e2] t2];
    cbn [outcome_of events_of errno_of fst snd] in *.
  2,3: destruct H as [_ ->]; rewrite !existsb_app, Hd0, Hd1, Hd2;
       discriminate.
  destruct (Hr2 eq_refl) as [Hp2 Hs2]. destruct H as (_ & -> & H3).
  pose proof (existsb_none probe_finds_signature _ _ _ Hformat H3) as Hs3.
  intros _. rewrite !existsb_app, Hr1, Hp2, Hs0, Hs1, Hs2, Hs3.
  rewrite !orb_true_r. repeat split; reflexivity.
Qed.

(** ** The values the options leave *)

Lemma hatoi_validate_value s msg max :
  returns (fun v => v = u32 (hatoi s / 512)) (hatoi_validate s msg max).
Proof.
  unfold hatoi_validate.
  repeat match goal with
         | |- returns _ (if ?b then _ else _) => destruct b
         end; cbn; auto.
Qed.

Ltac decide_chr :=
  repeat match goal with
         | |- context [chr ?a =? chr ?b] =>
             let v := eval vm_compute in (chr a =? chr b) in
             change (chr a =? chr b) with v
         | |- context [chr ?a =? 1] =>
             let v := eval vm_compute in (chr a =? 1) in
             change (chr a =? 1) with v
         | |- context [1 =? chr ?b] =>
             let v := eval vm_compute in (1 =? chr b) in
             change (1 =? chr b) with v
         end.

Lemma make_bcache_option_values o l :
  returns (fun l1 => option_values l1 = values_after [o] (option_values l))
    (make_bcache_option o l).
Proof.
  unfold make_bcache_option, option_values, values_after.
  destruct o as [c optarg|f].
  2:{ destruct f; cbn; rewrite ?orb_false_r, ?orb_true_r; reflexivity. }
  cbn [last_optarg optarg_of existsb sets_flag].
  rewrite !orb_false_r.
  repeat match goal with
         | |- returns _ (if ?c =? ?k then _ else _) =>
             destruct (Z.eqb_spec c k) as [->|?]
         end;
    repeat match goal with
           | H : ?c <> ?k |- _ => apply Z.eqb_neq in H; rewrite ?H; clear H
           end;
    decide_chr; try (cbn; reflexivity).
  - eapply returns_bind; [apply hatoi_validate_value|].
    intros v ->. cbn. reflexivity.
  - eapply returns_bind; [apply hatoi_validate_value|].
    intros v ->. cbn. reflexivity.
  - eapply returns_bind; [apply returns_True|]. intros v _. cbn. reflexivity.
  - destruct (_ <? _); cbn; [exact I|reflexivity].
  - cbn [bind sys returns]. intros [r u].
    destruct (negb (r =? 0)); cbn; [exact I|reflexivity].
  - destruct (_ >=? _); cbn; [exact I|reflexivity].
  - destruct (l_bdev l =? -1); [exact I|].
    destruct (negb _); cbn; reflexivity.
Qed.

Lemma values_after_cons o opts v :
  values_after (o :: opts) v = values_after opts (values_after [o] v).
Proof.
  destruct v as [[[[label off] bucket] block] [[[[wb di] wi] fo] io]].
  unfold values_after. cbn [last_optarg existsb].
  rewrite !orb_false_r, <- !orb_assoc.
  destruct (last_optarg (chr "l") opts), (last_optarg (chr "o") opts),
    (last_optarg (chr "b") opts), (last_optarg (chr "w") opts);
    try reflexivity;
    repeat match goal with
           | |- context [optarg_of ?c o] => destruct (optarg_of c o)
           end; reflexivity.
Qed.

Lemma make_bcache_options_values opts l :
  returns (fun l1 => option_values l1 = values_after opts (option_values l))
    (make_bcache_options opts l).
Proof.
  revert l. induction opts as [|o opts IH]; intros l;
    cbn [make_bcache_options].
  - cbn. unfold option_values. rewrite !orb_false_r. reflexivity.
  - eapply returns_bind; [apply make_bcache_option_values|].
    intros l1 Hl1. rewrite values_after_cons, <- Hl1. apply IH.
Qed.

(** X21: of several options of the same kind the last one counts.  When
    the option loop of [make_bcache] comes to its end, the label is the
    argument of the last [-l] (empty without one), the data offset that of
    the last [-o] read by [atoll] (the default without one), the bucket
    and block sizes those of the last [-b] and the last [-w] in sectors
    (1024 and 0 without one); [writeback], [discard], [wipe_bcache],
    [force] and [use_ioctl] are set exactly when their long option
    occurs. *)
Theorem last_option_counts opts E h e l :
  outcome_of (run (make_bcache_parse opts) E h e) = Done l ->
  option_values l
  = values_after opts
      ("", BDEV_DATA_START_DEFAULT, 1024, 0,
       (false, false, false, false, false)).
Proof.
  intros Hl.
  assert (H : returns
                (fun l1 => option_values l1
                   = values_after opts
                       ("", BDEV_DATA_START_DEFAULT, 1024, 0,
                        (false, false, false, false, false)))
                (make_bcache_parse opts)).
  { unfold make_bcache_parse. cbn [bind sys returns]. intros u.
    apply (make_bcache_options_values opts
             (mk_locals (-1) [] [] "" 0 1024 false false false false false 0
                BDEV_DATA_START_DEFAULT u)). }
  exact (returns_run _ _ E h e l H Hl).
Qed.

(** ** Taking a busy device from the driver *)

Lemma write_sb_reopen_always_calls n dev fd opened :
  always write_sb_reopen_calls any_output (write_sb_reopen n dev fd opened).
Proof.
  revert fd opened. induction n as [|n IH]; intros fd opened; simpl.
  - exact I.
  - split; [reflexivity|]. intros _. split; [reflexivity|]. intros fd'.
    destruct (fd' =? -1); simpl; auto.
Qed.

Lemma write_sb_reopen_tail dev fd (ret : Z) :
  always write_sb_reopen_calls any_output
    (if negb (ret =? 0) then exit EXIT_FAILURE
     else
       '(fd, opened) <- write_sb_reopen 3 dev fd None ;;
       opened <-
         match opened with
         | Some b => Ret b
         | None => sys (c_indeterminate "opened")
         end ;;
       if negb opened then
         fprintf stderr "Bcache devices has not completely closed," [] ;;
         fprintf stderr "you can try it sooner.\n" [] ;;
         exit EXIT_FAILURE
       else Ret fd).
Proof.
  pose proof write_sb_reopen_always_calls. always_auto.
Qed.

Lemma reopen_does_not_release t :
  forallb (event_ok write_sb_reopen_calls any_output) t = true ->
  existsb releases t = false.
Proof.
  apply existsb_none. intros ev.
  destruct ev as [c r e'|o]; [destruct c|]; simpl; auto; discriminate.
Qed.

(** X22: [write_sb] asks the driver to let go of a device only with
    [--force], only after an exclusive open that failed with [errno] 16,
    and only for what [detail_dev] has identified: [stop_backdev] on the
    device for a backing device, [unregister_cset] on its cache set for a
    cache device.  It asks once. *)
Theorem forced_release_follows_type dev force E h e :
  let t := events_of (run (write_sb_open dev force) E h e) in
  existsb releases t = true ->
  force = true /\
  exists type cset e2 c (r : reply c) e3 post,
    t = EvCall (c_open dev [O_RDWR; O_EXCL]) (-1) 16
        :: EvCall (c_detail_dev dev) (Returns (0, type, cset)) e2
        :: EvCall c r e3 :: post /\
    ((type = BCACHE_SB_VERSION_BDEV /\ c = c_stop_backdev dev) \/
     (type <> BCACHE_SB_VERSION_BDEV /\
      (type = BCACHE_SB_VERSION_CDEV \/
       type = BCACHE_SB_VERSION_CDEV_WITH_UUID) /\
      c = c_unregister_cset cset)) /\
    existsb releases post = false.
Proof.
  intros t. subst t. unfold write_sb_open. exec.
  step E. rename r into fd.
  destruct (Z.eqb_spec fd (-1)) as [->|Hfd]; exec; [|discriminate].
  destruct (Z.eqb_spec e0 16) as [->|He]; exec; [|discriminate].
  destruct force; exec; [|discriminate].
  step E. destruct r as [[[ret type] cset]|s]; exec; [|discriminate].
  destruct (Z.eqb_spec ret 0) as [->|Hret]; exec; [|discriminate].
  assert (Hrest : forall e3 o e4 post (p : prog Z) h',
            always write_sb_reopen_calls any_output p ->
            run p E h' e3 = (o, e4, post) ->
            existsb releases post = false).
  { intros e3 o e4 post p h' Hp Hrun.
    pose proof (always_run _ _ p E h' e3 Hp) as Hpost.
    rewrite Hrun in Hpost. now apply reopen_does_not_release. }
  destruct (Z.eqb_spec type BCACHE_SB_VERSION_BDEV) as [->|Hb]; exec.
  - step E. rename r into rs. intros _. split; [reflexivity|].
    match goal with
    | |- context [run ?p E ?h' ?e'] =>
        assert (Hp : always write_sb_reopen_calls any_output p)
          by (destruct rs as [ret|s]; cbn [bind ext]; [|exact I];
              apply write_sb_reopen_tail);
        destruct (run p E h' e') as [[o e4] post] eqn:Hrun
    end.
    cbn [events_of snd emit].
    do 7 eexists. split; [reflexivity|]. split; [left; auto|].
    exact (Hrest _ _ _ _ _ _ Hp Hrun).
  - destruct (Z.eqb_spec type BCACHE_SB_VERSION_CDEV) as [Hc|Hc];
      [|destruct (Z.eqb_spec type BCACHE_SB_VERSION_CDEV_WITH_UUID)
          as [Hu|Hu]]; exec; [| |discriminate].
    + step E. rename r into rs. intros _. split; [reflexivity|].
      match goal with
      | |- context [run ?p E ?h' ?e'] =>
          assert (Hp : always write_sb_reopen_calls any_output p)
            by (destruct rs as [ret|s]; cbn [bind ext]; [|exact I];
                apply write_sb_reopen_tail);
          destruct (run p E h' e') as [[o e4] post] eqn:Hrun
      end.
      cbn [events_of snd emit].
      do 7 eexists. split; [reflexivity|]. split; [right; auto|].
      exact (Hrest _ _ _ _ _ _ Hp Hrun).
    + step E. rename r into rs. intros _. split; [reflexivity|].
      match goal with
      | |- context [run ?p E ?h' ?e'] =>
          assert (Hp : always write_sb_reopen_calls any_output p)
            by (destruct rs as [ret|s]; cbn [bind ext]; [|exact I];
                apply write_sb_reopen_tail);
          destruct (run p E h' e') as [[o e4] post] eqn:Hrun
      end.
      cbn [events_of snd emit].
      do 7 eexists. split; [reflexivity|]. split; [right; auto|].
      exact (Hrest _ _ _ _ _ _ Hp Hrun).
Qed.

(** ** The block size taken from the devices *)

Lemma block_sizes_found_app t1 t2 :
  block_sizes_found (t1 ++ t2)
  = (block_sizes_found t1 ++ block_sizes_found t2)%list.
Proof.
  induction t1 as [|ev t1 IH]; simpl; auto.
  destruct ev as [c r e|o]; auto.
  destruct c; simpl; auto.
  - destruct (_ && _)%bool; simpl; congruence.
  - destruct (_ =? 0); simpl; congruence.
Qed.

Lemma run_get_blocksize path E h e :
  let r := run (get_blocksize path) E h e in
  (forall b, outcome_of r = Done b ->
     block_sizes_found (events_of r) = [b] /\
     exists t, events_of r = EvCall (c_stat path) (fst (E h (c_stat path)))
                               (snd (E h (c_stat path))) :: t /\
               (t = [] \/
                exists fd e1 l e2 c e3,
                  0 <= fd /\
                  t = [EvCall (c_open path [O_RDONLY]) fd e1;
                       EvCall (c_ioctl_BLKSSZGET fd) (0, l) e2;
                       EvCall (c_close fd) c e3])) /\
  ((forall b, outcome_of r <> Done b) -> outcome_of r = Exited EXIT_FAILURE).
Proof.
  intros r. subst r. unfold get_blocksize. exec.
  destruct (E h (c_stat path)) as [[rs st] e0] eqn:HE. cbn [fst snd]. exec.
  destruct (Z.eqb_spec rs 0) as [->|Hrs]; exec.
  2:{ split; [discriminate|reflexivity]. }
  destruct (st_isblk st) eqn:Hblk; exec.
  2:{ split; [|intros H; exfalso; eapply H; reflexivity].
      intros b [= <-]. cbn [block_sizes_found fst snd Z.eqb andb negb].
      rewrite Hblk. split; [reflexivity|]. eexists. split; [reflexivity|].
      now left. }
  step E. rename r into fd.
  destruct (Z.ltb_spec fd 0) as [Hfd|Hfd]; exec.
  { split; [discriminate|reflexivity]. }
  step E. destruct r as [ri l]. cbn [fst snd].
  destruct (Z.eqb_spec ri 0) as [->|Hri]; exec.
  2:{ split; [discriminate|reflexivity]. }
  step E.
  split; [|intros H; exfalso; eapply H; reflexivity].
  intros b [= <-]. cbn [block_sizes_found fst snd Z.eqb andb negb].
  rewrite Hblk. cbn [andb]. split; [reflexivity|].
  eexists. split; [reflexivity|]. right.
  do 6 eexists. split; [exact Hfd|reflexivity].
Qed.

Lemma run_make_bcache_block_size devices b E h e b' :
  outcome_of (run (make_bcache_block_size devices b) E h e) = Done b' ->
  let found :=
    block_sizes_found
      (events_of (run (make_bcache_block_size devices b) E h e)) in
  b' = fold_left Z.max found b /\ List.length found = List.length devices.
Proof.
  revert b h e. induction devices as [|d devices IH]; intros b h e;
    cbn [make_bcache_block_size].
  - intros [= <-]. split; reflexivity.
  - rewrite run_bind.
    destruct (run_get_blocksize d E h e) as [Hd _]. cbv zeta in Hd.
    destruct (run (get_blocksize d) E h e) as [[[v|s|] e1] t1];
      cbn [outcome_of events_of fst snd] in *; try discriminate.
    destruct (Hd v eq_refl) as [Hf _].
    rewrite outcome_prepend, events_prepend, block_sizes_found_app, Hf.
    intros Hrest. destruct (IH _ _ _ Hrest) as [Hb Hlen].
    cbn [app fold_left List.length]. split; [exact Hb|now rewrite Hlen].
Qed.

(** X23: the block size [make_bcache] takes from the devices (lines
    720-728).  Each device is asked once; a run that gets an answer for
    every device ends with the largest of the answers, and with the value
    it started from when that is larger. *)
Theorem derived_block_size_is_largest devices b E h e b' :
  outcome_of (run (make_bcache_block_size devices b) E h e) = Done b' ->
  let found :=
    block_sizes_found
      (events_of (run (make_bcache_block_size devices b) E h e)) in
  List.length found = List.length devices /\
  b <= b' /\
  (forall v, In v found -> v <= b') /\
  (b' = b \/ In b' found).
Proof.
  intros Hd found.
  destruct (run_make_bcache_block_size devices b E h e b' Hd) as [Hb Hlen].
  fold found in Hb, Hlen. split; [exact Hlen|].
  clearbody found. clear Hd Hlen. subst b'. revert b.
  induction found as [|v found IH]; intros b; cbn [fold_left].
  - split; [lia|]. split; [intros ? []|now left].
  - destruct (IH (Z.max b v)) as (Hle & Hall & Hin).
    split; [lia|]. split.
    + intros w [<-|Hw]; [lia|now apply Hall].
    + destruct Hin as [Heq|Hin]; [|right; now right].
      rewrite Heq. destruct (Z.max_spec b v) as [[_ ->]|[_ ->]];
        [right; now left|now left].
Qed.

(** X24: the loop of lines 396-406 waits for the driver at most three
    times.  Every round is a [sleep(3)] followed by an exclusive open of
    the device, with the message of lines 400-401 after an open that
    failed; the loop stops at the first open that succeeds and hands back
    its descriptor with [opened] set; after three failures the descriptor
    is -1 and [opened] has not been assigned. *)
Theorem retry_loop_three_rounds dev fd E h e :
  let r := run (write_sb_reopen 3 dev fd None) E h e in
  exists k fd',
    paced_opens dev (events_of r) = Some k /\ (k <= 3)%nat /\
    ((fd' <> -1 /\ outcome_of r = Done (fd', Some true)) \/
     (k = 3%nat /\ outcome_of r = Done (-1, None))).
Proof.
  intros r. subst r.
  destruct (write_sb_reopen_rounds 3 dev fd None E h e)
    as (k & fd' & Hp & Hk & Hres).
  exists k, fd'. split; [exact Hp|]. split; [exact Hk|].
  destruct Hres as [Hl|(Hk3 & Ho & _ & Hfd)]; [left; exact Hl|].
  right. split; [exact Hk3|]. rewrite Ho, Hfd; [reflexivity|discriminate].
Qed.

(** ** The descriptor write_sb works on *)

Lemma last_open_app t1 t2 :
  last_open (t1 ++ t2) =
  match last_open t2 with
  | Some fd => Some fd
  | None => last_open t1
  end.
Proof.
  induction t1 as [|ev t1 IH]; simpl.
  - now destruct (last_open t2).
  - destruct ev as [c r e|o]; [|exact IH]. rewrite IH.
    destruct (last_open t2); reflexivity.
Qed.

Lemma last_open_none Q R t :
  (forall c, Q c = true -> is_open_call c = false) ->
  forallb (event_ok Q R) t = true -> last_open t = None.
Proof.
  intros HQ. induction t as [|ev t IH]; simpl; auto.
  intros H. apply andb_true_iff in H. destruct H as [Hev Ht].
  destruct ev as [c r e|o]; [|auto]. rewrite (IH Ht).
  apply HQ in Hev. destruct c; try reflexivity. discriminate Hev.
Qed.

Lemma on_fd_uses fd t :
  forallb (event_ok (on_fd fd) any_output) t = true ->
  forall c r e' fd',
    In (EvCall c r e') t -> call_fd c = Some fd' -> fd' = fd.
Proof.
  induction t as [|ev t IH]; simpl; [intros _ ? ? ? ? []|].
  intros H. apply andb_true_iff in H. destruct H as [Hev Ht].
  intros c r e' fd' [->|Hin] Hc; [|exact (IH Ht c r e' fd' Hin Hc)].
  cbn [event_ok] in Hev. unfold on_fd in Hev. rewrite Hc in Hev.
  apply andb_true_iff in Hev. destruct Hev as [_ Hev].
  now apply Z.eqb_eq in Hev.
Qed.

(** One step through a program for the goals [always (on_fd fd) R p]. *)
Ltac on_fd_step :=
  match goal with
  | |- always (on_fd _) _ (bind _ _) => apply always_bind; [| intros]
  | |- always (on_fd _) _ (if ?b then _ else _) => destruct b
  | |- always (on_fd _) _ (match ?x with _ => _ end) => destruct x
  | |- always (on_fd _) _ (sys _) =>
      split; [unfold on_fd; cbn; rewrite ?Z.eqb_refl; reflexivity
             | intros; exact I]
  | |- always (on_fd _) _ (Sys _ _) =>
      split; [unfold on_fd; cbn; rewrite ?Z.eqb_refl; reflexivity | intros]
  | |- always _ _ _ => always_step
  end.

Lemma getblocks_on_fd fd : always (on_fd fd) any_output (getblocks fd).
Proof. unfold getblocks. repeat on_fd_step. Qed.

Lemma blkdiscard_all_on_fd path fd :
  always (on_fd fd) any_output (blkdiscard_all path fd).
Proof. unfold blkdiscard_all. repeat on_fd_step. Qed.

Lemma write_sb_common_on_fd fd dev sbc bdev nb :
  always (on_fd fd) any_output (write_sb_common dev sbc bdev nb).
Proof.
  eapply always_mono; [| |apply write_sb_common_always]; auto.
  intros c; destruct c; simpl; auto; discriminate.
Qed.

Lemma write_sb_after_open_on_fd dev fd sbc bdev force :
  always (on_fd fd) any_output
    (write_sb_wipe dev fd (sbc_wipe_bcache sbc) force ;;
     write_sb_probe dev fd ;;
     write_sb_format dev fd sbc bdev).
Proof.
  pose proof (getblocks_on_fd fd). pose proof (blkdiscard_all_on_fd dev fd).
  pose proof (write_sb_common_on_fd fd dev sbc bdev).
  unfold write_sb_wipe, write_sb_probe, write_sb_format, write_sb_put.
  repeat on_fd_step.
Qed.

Lemma write_sb_reopen_last_open n dev fd opened E h e fd' opened' :
  outcome_of (run (write_sb_reopen n dev fd opened) E h e)
  = Done (fd', opened') ->
  match last_open (events_of (run (write_sb_reopen n dev fd opened) E h e))
  with
  | Some f => f = fd'
  | None => fd' = fd
  end.
Proof.
  revert fd opened h e. induction n as [|n IH]; intros fd opened h e;
    cbn [write_sb_reopen].
  - intros [= <- _]. reflexivity.
  - exec. step E. step E. rename r0 into fd1.
    destruct (Z.eqb_spec fd1 (-1)) as [->|Hfd]; exec.
    + rewrite !outcome_emit, !events_emit. intros Ho.
      specialize (IH _ _ _ _ Ho). cbn [last_open].
      destruct (last_open _); [exact IH|symmetry; exact IH].
    + intros [= <- _]. reflexivity.
Qed.

Lemma write_sb_open_last_open dev force E h e fd :
  outcome_of (run (write_sb_open dev force) E h e) = Done fd ->
  last_open (events_of (run (write_sb_open dev force) E h e)) = Some fd.
Proof.
  unfold write_sb_open. exec. step E. rename r into fd0.
  destruct (Z.eqb_spec fd0 (-1)) as [->|Hfd]; exec;
    [|intros [= <-]; reflexivity].
  destruct ((e0 =? 16) && force)%bool; exec; [|discriminate].
  step E. destruct r as [[[ret type] cset]|s]; exec; [|discriminate].
  destruct (negb (ret =? 0)); exec; [discriminate|].
  assert (Htail : forall (rs : callee Z) h' e',
            let r := run (ret <- ext rs ;;
                          if negb (ret =? 0) then exit EXIT_FAILURE
                          else
                            '(fd, opened) <- write_sb_reopen 3 dev (-1) None ;;
                            opened <-
                              match opened with
                              | Some b => Ret b
                              | None => sys (c_indeterminate "opened")
                              end ;;
                            if negb opened then
                              fprintf stderr
                                "Bcache devices has not completely closed," [] ;;
                              fprintf stderr "you can try it sooner.\n" [] ;;
                              exit EXIT_FAILURE
                            else Ret fd) E h' e' in
            outcome_of r = Done fd ->
            match last_open (events_of r) with
            | Some f => f = fd
            | None => fd = -1
            end).
  { intros rs h' e'. destruct rs as [ret'|s]; exec; [|discriminate].
    destruct (negb (ret' =? 0)); exec; [discriminate|].
    rewrite run_bind.
    pose proof (write_sb_reopen_last_open 3 dev (-1) None E h' e') as Hl.
    destruct (run (write_sb_reopen 3 dev (-1) None) E h' e')
      as [[[[fd' opened']|s|] ea] ta];
      cbn [outcome_of events_of fst snd] in *; try discriminate.
    specialize (Hl fd' opened' eq_refl).
    destruct opened' as [b|]; exec.
    - destruct b; exec; [|discriminate]. rewrite app_nil_r.
      intros [= <-]. exact Hl.
    - step E. destruct r; exec; [|discriminate].
      intros [= <-]. rewrite last_open_app. cbn [last_open]. exact Hl. }
  destruct (type =? BCACHE_SB_VERSION_BDEV).
  - exec. step E. intros Ho. cbv zeta in Htail.
    rewrite !outcome_emit in Ho. specialize (Htail _ _ _ Ho).
    rewrite !events_emit. cbn [last_open].
    destruct (last_open _); now subst.
  - destruct ((type =? BCACHE_SB_VERSION_CDEV)
              || (type =? BCACHE_SB_VERSION_CDEV_WITH_UUID))%bool.
    + exec. step E. intros Ho. cbv zeta in Htail.
      rewrite !outcome_emit in Ho. specialize (Htail _ _ _ Ho).
      rewrite !events_emit. cbn [last_open].
      destruct (last_open _); now subst.
    + exec. discriminate.
Qed.

Lemma open_calls_have_no_fd t :
  forallb (event_ok write_sb_open_calls no_name_line) t = true ->
  forall c r e' fd, In (EvCall c r e') t -> call_fd c = Some fd -> False.
Proof.
  induction t as [|ev t IH]; simpl; [intros _ ? ? ? ? []|].
  intros H. apply andb_true_iff in H. destruct H as [Hev Ht].
  intros c r e' fd [->|Hin] Hc; [|exact (IH Ht c r e' fd Hin Hc)].
  cbn [event_ok] in Hev. destruct c; discriminate.
Qed.

(** X25: [write_sb] works on one descriptor.  Every call of a run that
    takes a descriptor (the reads and writes, the ioctls, [fstat], the
    blkid probe, [fsync], [close]) is given the one the last [open] of
    the run returned, and no [open] comes after such a call. *)
Theorem write_sb_uses_last_descriptor dev sbc bdev force E h e :
  let t := events_of (run (write_sb dev sbc bdev force) E h e) in
  forall c r e' fd,
    In (EvCall c r e') t -> call_fd c = Some fd -> last_open t = Some fd.
Proof.
  intros t. subst t. unfold write_sb. rewrite run_bind.
  pose proof (always_run _ _ _ E h e (write_sb_open_always dev force)) as H0.
  pose proof (write_sb_open_last_open dev force E h e) as Hopen.
  destruct (run (write_sb_open dev force) E h e) as [[[fd0|s|] e0] t0];
    cbn [outcome_of events_of fst snd] in *.
  - pose proof (always_run _ _ _ E (h ++ t0)%list e0
                  (write_sb_after_open_on_fd dev fd0 sbc bdev force)) as H1.
    rewrite events_prepend.
    intros c r e' fd Hin Hc. apply in_app_or in Hin.
    destruct Hin as [Hin|Hin];
      [destruct (open_calls_have_no_fd t0 H0 c r e' fd Hin Hc)|].
    rewrite (on_fd_uses fd0 _ H1 c r e' fd Hin Hc).
    rewrite last_open_app.
    assert (Hno : forall c0, on_fd fd0 c0 = true -> is_open_call c0 = false).
    { intros c0 Hc0. unfold on_fd in Hc0. apply andb_true_iff in Hc0.
      destruct Hc0 as [Hn _]. now apply negb_true_iff in Hn. }
    rewrite (last_open_none _ _ _ Hno H1).
    now apply Hopen.
  - intros c r e' fd Hin Hc.
    destruct (open_calls_have_no_fd t0 H0 c r e' fd Hin Hc).
  - intros c r e' fd Hin Hc.
    destruct (open_calls_have_no_fd t0 H0 c r e' fd Hin Hc).
Qed.

(** ** Folding a step function over the events of a program *)







(** ** The formatting of devices *)
















(** ** The warning of the registration through the control device *)

Lemma offset_warnings_app t1 t2 :
  offset_warnings (t1 ++ t2) = (offset_warnings t1 + offset_warnings t2)%nat.
Proof. unfold offset_warnings. now rewrite filter_app, length_app. Qed.

Lemma nonzero_offsets_app t1 t2 :
  nonzero_offsets (t1 ++ t2) = (nonzero_offsets t1 + nonzero_offsets t2)%nat.
Proof.
  unfold nonzero_offsets. now rewrite offset_checks_app, filter_app, length_app.
Qed.

Lemma offset_warnings_cons ev t :
  offset_warnings (ev :: t)
  = ((if is_offset_warning ev then 1 else 0) + offset_warnings t)%nat.
Proof.
  unfold offset_warnings. cbn [filter].
  destruct (is_offset_warning ev); reflexivity.
Qed.

Lemma nonzero_offsets_check d a (r : callee Z) e t :
  nonzero_offsets (EvCall (c_check_data_offset_for_zoned_device d a) r e :: t)
  = ((if left_nonzero (a, r) then 1 else 0) + nonzero_offsets t)%nat.
Proof.
  unfold nonzero_offsets, left_nonzero. cbn [offset_checks filter snd].
  destruct r as [off|s]; [destruct (off =? 0)|]; reflexivity.
Qed.

Lemma offset_warnings_none Q t :
  forallb (event_ok Q no_offset_warning) t = true -> offset_warnings t = 0%nat.
Proof.
  unfold offset_warnings. induction t as [|ev t IH]; [reflexivity|].
  cbn [forallb filter]. intros H. apply andb_true_iff in H.
  destruct H as [Hev Ht]. destruct ev as [c r e|o].
  - exact (IH Ht).
  - cbn [event_ok] in Hev. unfold no_offset_warning in Hev.
    destruct (is_offset_warning (EvOut o)); [discriminate|exact (IH Ht)].
Qed.

Lemma write_sb_common_no_offset_warning dev sbc bdev nb :
  always any_call no_offset_warning (write_sb_common dev sbc bdev nb).
Proof.
  unfold write_sb_common, write_sb_common_bdev, write_sb_common_cdev.
  always_auto;
    eapply always_mono; try apply write_label_always; discriminate.
Qed.

Lemma getblocks_no_offset_warning fd :
  always any_call no_offset_warning (getblocks fd).
Proof. unfold getblocks. always_auto. Qed.

Lemma write_sb_ioctl_no_offset_warning dev sbc bdev force :
  always any_call no_offset_warning (write_sb_ioctl dev sbc bdev force).
Proof.
  unfold write_sb_ioctl.
  pose proof write_sb_common_no_offset_warning.
  pose proof getblocks_no_offset_warning. always_auto.
Qed.

Lemma events_bind_ret {A B : Type} (p : prog A) (b : B) E h e :
  events_of (run (p ;; Ret b) E h e) = events_of (run p E h e).
Proof.
  rewrite run_bind. destruct (run p E h e) as [[[a|s|] e1] t1]; exec;
    rewrite ?app_nil_r; reflexivity.
Qed.

(** One turn of the loop with [--ioctl]: the warning is printed once when
    the check of line 748 leaves an offset that is not zero, and not at
    all when it leaves zero or does not come back. *)
Lemma make_bcache_backing_device_warnings d sbc force (E : env) h e :
  let t := events_of (run (make_bcache_backing_device d sbc true force)
                        E h e) in
  offset_warnings t = nonzero_offsets t /\
  offset_warnings t
  = match adjusted_data_offset t with
    | Some off => if off =? 0 then 0%nat else 1%nat
    | None => 0%nat
    end.
Proof.
  cbv zeta. unfold make_bcache_backing_device. exec.
  destruct (E h (c_check_data_offset_for_zoned_device d (sbc_data_offset sbc)))
    as [r e1].
  destruct r as [off|s]; exec; [|split; reflexivity].
  rewrite events_emit, offset_warnings_cons, nonzero_offsets_check.
  cbn [is_offset_warning adjusted_data_offset left_nonzero snd
       sbc_data_offset set_sbc_data_offset Nat.add].
  rewrite run_bind.
  assert (Hw : forall h1 (a : sb_context),
             offset_warnings
               (events_of (run (write_sb_ioctl d
                                  (set_sbc_data_offset
                                     (set_sbc_data_offset sbc off) 0)
                                  true force ;; Ret a) E h1 e1)) = 0%nat
             /\ nonzero_offsets
                  (events_of (run (write_sb_ioctl d
                                     (set_sbc_data_offset
                                        (set_sbc_data_offset sbc off) 0)
                                     true force ;; Ret a) E h1 e1)) = 0%nat).
  { intros h1 a. rewrite events_bind_ret. split.
    - apply (offset_warnings_none any_call), always_run,
        write_sb_ioctl_no_offset_warning.
    - unfold nonzero_offsets.
      now rewrite write_sb_ioctl_offset_checks. }
  destruct (off =? 0); cbn [negb]; exec; rewrite events_prepend;
    match goal with
    | |- context [run _ E ?h1 e1] => destruct (Hw h1
          (set_sbc_data_offset (set_sbc_data_offset sbc off) 0)) as [H1 H2]
    end.
  - cbn [app]. rewrite H1, H2. split; reflexivity.
  - rewrite offset_warnings_app, nonzero_offsets_app, H1, H2.
    split; reflexivity.
Qed.

(** All the turns: as many warnings as checks that left an offset that is
    not zero. *)
Lemma make_bcache_backing_devices_warnings devices sbc force E h e :
  let t := events_of (run (make_bcache_backing_devices devices sbc true
                             force) E h e) in
  offset_warnings t = nonzero_offsets t.
Proof.
  cbv zeta. revert sbc h e.
  induction devices as [|d devices IH]; intros sbc h e; [reflexivity|].
  rewrite run_make_bcache_backing_devices_cons.
  destruct (make_bcache_backing_device_warnings d sbc force E h e) as [H _].
  destruct (run (make_bcache_backing_device d sbc true force) E h e)
    as [[[sbc'|s|] e2] t2]; cbn [events_of snd] in *; try exact H.
  rewrite events_prepend, offset_warnings_app, nonzero_offsets_app, H.
  now rewrite IH.
Qed.

(** The first check is given the data offset of the context; the context
    is shared by the turns and left at zero by the first, so that every
    later check is given zero. *)
Lemma make_bcache_backing_devices_checks devices sbc force E h e :
  let t := events_of (run (make_bcache_backing_devices devices sbc true
                             force) E h e) in
  match offset_checks t with
  | [] => devices = []
  | (a, r) :: rest =>
      a = sbc_data_offset sbc /\ forall a' r', In (a', r') rest -> a' = 0
  end.
Proof.
  cbv zeta. destruct devices as [|d devices]; [reflexivity|].
  rewrite run_make_bcache_backing_devices_cons.
  pose proof (run_make_bcache_backing_device d sbc true force E h e) as H.
  destruct (E h (c_check_data_offset_for_zoned_device d
                   (sbc_data_offset sbc))) as [r1 e1].
  cbv zeta in H. destruct H as [Hc Hr].
  destruct (run (make_bcache_backing_device d sbc true force) E h e)
    as [[[sbc'|s|] e2] t2]; cbn [events_of outcome_of fst snd] in *.
  - rewrite events_prepend, offset_checks_app, Hc. cbn [app].
    split; [reflexivity|]. intros a' r' Hin.
    destruct r1 as [off|s]; [|discriminate Hr].
    rewrite (Hr sbc' eq_refl) in Hin.
    exact (backing_devices_checked_from_zero devices
             (set_sbc_data_offset sbc 0) force E (h ++ t2)%list e2 eq_refl
             a' r' Hin).
  - rewrite Hc. split; [reflexivity|]. intros a' r' [].
  - rewrite Hc. split; [reflexivity|]. intros a' r' [].
Qed.
(** C7: a backing device registered through the control device (the loop
    of lines 747-760 with [--ioctl]).  In one turn: every record handed to
    the control device has a zero data offset, and so has the context the
    turn leaves behind.  When the data offset in the context is not zero
    after [check_data_offset_for_zoned_device], the warning of lines
    752-753 is printed right after that call, and the superblock is built
    by [write_sb_ioctl] from a context whose data offset is already zero.
    The warning is printed once in such a turn and not at all in a turn
    in which the check leaves zero or does not come back.  In all the
    turns together: every record has a zero data offset; there are as
    many warnings as turns whose check left an offset that is not zero;
    and, the context being shared by the turns, only the first check is
    given the data offset of the command line, every later one is given
    zero. *)
Theorem ioctl_registration_zero_data_offset d sbc force E h e :
  version_is_bdev BCACHE_SB_VERSION_BDEV = true ->
  let r := run (make_bcache_backing_device d sbc true force) E h e in
  (forall cmd, In cmd (registered (events_of r)) ->
     sb_data_offset (cmd_sb cmd) = 0) /\
  (forall sbc', outcome_of r = Done sbc' -> sbc_data_offset sbc' = 0) /\
  (forall off, adjusted_data_offset (events_of r) = Some off ->
     exists ev e1,
       let pre := if off =? 0 then [ev] else [ev; ioctl_offset_warning] in
       registered pre = [] /\
       events_of r =
         (pre ++ events_of
                   (run (write_sb_ioctl d (set_sbc_data_offset sbc 0) true
                           force) E (h ++ pre) e1))%list) /\
  (forall devices sbc0 h0 e0 cmd,
     In cmd (registered
               (events_of
                  (run (make_bcache_backing_devices devices sbc0 true force)
                     E h0 e0))) ->
     sb_data_offset (cmd_sb cmd) = 0) /\
  offset_warnings (events_of r)
  = match adjusted_data_offset (events_of r) with
    | Some off => if off =? 0 then 0%nat else 1%nat
    | None => 0%nat
    end /\
  (forall devices sbc0 h0 e0,
     let t := events_of
                (run (make_bcache_backing_devices devices sbc0 true force)
                   E h0 e0) in
     offset_warnings t = nonzero_offsets t /\
     match offset_checks t with
     | [] => devices = []
     | (a, _) :: rest =>
         a = sbc_data_offset sbc0 /\
         forall a' r', In (a', r') rest -> a' = 0
     end).
Proof.
  intros Hb r. subst r. split; [|split; [|split; [|split; [|split]]]].
  - apply registered_zero_offset, always_run.
    now apply make_bcache_backing_device_registers_zero.
  - intros sbc'. apply (returns_run (fun s => sbc_data_offset s = 0)).
    unfold make_bcache_backing_device.
    eapply returns_bind; [apply returns_True|]. intros r _.
    eapply returns_bind; [apply returns_True|]. intros off _.
    eapply returns_bind; [apply returns_True|]. intros u _.
    eapply returns_bind; [apply returns_True|]. intros u' _. reflexivity.
  - intros off. unfold make_bcache_backing_device. exec.
    step E. destruct r as [off'|s]; exec; [|discriminate].
    rewrite events_emit. cbn [adjusted_data_offset].
    intros Hoff. injection Hoff as ->.
    cbn [sbc_data_offset set_sbc_data_offset].
    replace (set_sbc_data_offset (set_sbc_data_offset sbc off) 0)
      with (set_sbc_data_offset sbc 0) by reflexivity.
    exists (EvCall (c_check_data_offset_for_zoned_device d
                      (sbc_data_offset sbc)) (Returns off) e0), e0.
    cbv zeta.
    destruct (off =? 0) eqn:H0; exec; rewrite run_bind;
      (split; [reflexivity|]).
    + destruct (run (write_sb_ioctl d (set_sbc_data_offset sbc 0) true force)
                  E _ e0) as [[[[]|s|] e1] t1];
        cbn [run prepend events_of snd fst]; rewrite ?app_nil_r; reflexivity.
    + rewrite <- app_assoc. cbn [app].
      destruct (run (write_sb_ioctl d (set_sbc_data_offset sbc 0) true force)
                  E _ e0) as [[[[]|s|] e1] t1];
        cbn [run prepend events_of snd fst]; rewrite ?app_nil_r; reflexivity.
  - intros devices sbc0 h0 e0.
    apply registered_zero_offset, always_run.
    now apply make_bcache_backing_devices_register_zero.
  - exact (proj2 (make_bcache_backing_device_warnings d sbc force E h e)).
  - intros devices sbc0 h0 e0. split.
    + apply make_bcache_backing_devices_warnings.
    + pose proof (make_bcache_backing_devices_checks devices sbc0 force E
                    h0 e0) as H.
      cbv zeta in H.
      destruct (offset_checks _) as [|[a r0] rest]; exact H.
Qed.

End MakeFacts.

(** * The model on concrete devices

    The runs below are in the header instance [Linux.hdr] and the
    environments of [Linux]. *)

Lemma linux_cache_mode_stored : cache_mode_stored (hdr := Linux.hdr).
Proof.
  intros f v Hv. cbn [flags_BDEV_CACHE_MODE flags_SET_BDEV_CACHE_MODE Linux.hdr].
  unfold Linux.bitmask_get, Linux.bitmask_set.
  rewrite Z.shiftr_0_r, Z.land_lor_distr_l, <- Z.land_assoc.
  replace (Z.land (not64 (Z.shiftl (2 ^ 4 - 1) 0)) (2 ^ 4 - 1)) with 0
    by reflexivity.
  rewrite Z.land_0_r, Z.lor_0_l, Z.shiftl_0_r.
  destruct Hv as [-> | ->]; reflexivity.
Qed.

Lemma linux_set_bucket_size_stores b :
  set_bucket_size_stores (hdr := Linux.hdr) b.
Proof. intros sb. split; reflexivity. Qed.

(** C3: a backing device that is busy, is stopped with [--force], and is
    still busy at each of the three retries.  [opened] was never assigned;
    with a non-zero byte in its place the test of line 407 passes, the
    message of lines 408-410 is not printed, and the run goes on to read
    from descriptor -1 and ends in the silent [exit] of line 424. *)
Theorem held_device_not_reported_busy :
  let r := run (write_sb (hdr := Linux.hdr) "/dev/sdb" Linux.sbc0 true true)
             (Linux.scenario_env Linux.held) [] 0 in
  outcome_of r = Exited EXIT_FAILURE /\
  events_of r =
    [EvCall (c_open "/dev/sdb" [O_RDWR; O_EXCL]) (-1) 16;
     EvCall (c_detail_dev "/dev/sdb") (Returns (0, 1, "cset")) 16;
     EvCall (c_stop_backdev "/dev/sdb") (Returns 0) 16;
     EvCall (c_sleep 3) 0 16;
     EvCall (c_open "/dev/sdb" [O_RDWR; O_EXCL]) (-1) 16;
     EvOut (o_fprintf stdout "Waiting for bcache device to be closed.\n" []);
     EvCall (c_sleep 3) 0 16;
     EvCall (c_open "/dev/sdb" [O_RDWR; O_EXCL]) (-1) 16;
     EvOut (o_fprintf stdout "Waiting for bcache device to be closed.\n" []);
     EvCall (c_sleep 3) 0 16;
     EvCall (c_open "/dev/sdb" [O_RDWR; O_EXCL]) (-1) 16;
     EvOut (o_fprintf stdout "Waiting for bcache device to be closed.\n" []);
     EvCall (c_indeterminate "opened") true 16;
     EvCall (c_pread (-1) 2264 4096) (-1, []) 9] /\
  (forall ev, In ev still_busy_message -> ~ In ev (events_of r)).
Proof.
  cbv zeta. split; [vm_compute; reflexivity|].
  split; [vm_compute; reflexivity|].
  intros ev Hev.
  replace (events_of _) with
    [EvCall (c_open "/dev/sdb" [O_RDWR; O_EXCL]) (-1) 16;
     EvCall (c_detail_dev "/dev/sdb") (Returns (0, 1, "cset")) 16;
     EvCall (c_stop_backdev "/dev/sdb") (Returns 0) 16;
     EvCall (c_sleep 3) 0 16;
     EvCall (c_open "/dev/sdb" [O_RDWR; O_EXCL]) (-1) 16;
     EvOut (o_fprintf stdout "Waiting for bcache device to be closed.\n" []);
     EvCall (c_sleep 3) 0 16;
     EvCall (c_open "/dev/sdb" [O_RDWR; O_EXCL]) (-1) 16;
     EvOut (o_fprintf stdout "Waiting for bcache device to be closed.\n" []);
     EvCall (c_sleep 3) 0 16;
     EvCall (c_open "/dev/sdb" [O_RDWR; O_EXCL]) (-1) 16;
     EvOut (o_fprintf stdout "Waiting for bcache device to be closed.\n" []);
     EvCall (c_indeterminate "opened") true 16;
     EvCall (c_pread (-1) 2264 4096) (-1, []) 9]
    by (vm_compute; reflexivity).
  destruct Hev as [<-|[<-|[]]]; intros Hin; simpl in Hin;
    repeat (destruct Hin as [Hin|Hin]; [discriminate Hin|]); exact Hin.
Qed.

(** The same device let go of at the second retry: the run goes on to
    format it. *)
Example released_device_is_formatted :
  let r := run (write_sb (hdr := Linux.hdr) "/dev/sdb" Linux.sbc0 true true)
             (Linux.scenario_env Linux.released) [] 0 in
  outcome_of r = Done tt /\ names_printed (events_of r) = ["/dev/sdb"].
Proof. vm_compute. split; reflexivity. Qed.

(** C4: a blank device whose [fsync] fails with -1.  Both writes went
    through, the result of [fsync] is not looked at, and [write_sb]
    returns as on success. *)
Theorem fsync_failure_reported_as_success :
  let r := run (write_sb (hdr := Linux.hdr) "/dev/sdb" Linux.sbc0 false false)
             (Linux.scenario_env Linux.failing_fsync) [] 0 in
  outcome_of r = Done tt /\
  In (EvCall (c_fsync 3) (-1) 5) (events_of r) /\
  errno_of r = 5.
Proof.
  vm_compute. split; [reflexivity|]. split; [|reflexivity].
  repeat (first [left; reflexivity | right]).
Qed.

(** C5: [make-bcache -b 512 -C /dev/sdc] on a device with 4096-byte logical
    blocks.  The check of line 714 sees a block size of 0; the block size
    is then looked up and is 8 sectors, the bucket size is 1 sector, and
    the device is formatted with them. *)
Theorem derived_block_size_exceeds_bucket_size :
  let r := run (make_bcache (hdr := Linux.hdr)
                  [opt (chr "b") "512"; opt (chr "C") ""; opt 1 "/dev/sdc"])
             (Linux.scenario_env Linux.blank_4k) [] 0 in
  outcome_of r = Done 0 /\
  existsb writes_device (events_of r) = true /\
  In (EvOut
        (o_fprintf stdout
           ("UUID:			%s\n" ++
            "Set UUID:		%s\n" ++
            "version:		%u\n" ++
            "nbuckets:		%llu\n" ++
            "block_size_in_sectors:	%u\n" ++
            "bucket_size_in_sectors:	%u\n" ++
            "nr_in_set:		%u\n" ++
            "nr_this_dev:		%u\n" ++
            "first_bucket:		%u\n")
           [a_uuid (repeat x2a 16); a_uuid (repeat x2a 16); a_int 0;
            a_int 2097152; a_int 8; a_int 1; a_int 1; a_int 0; a_int 24]))
     (events_of r).
Proof.
  vm_compute. split; [reflexivity|]. split; [reflexivity|].
  repeat (first [left; reflexivity | right]).
Qed.

(** ** The theorems at concrete inputs *)

(** C1 on a device that holds a bcache superblock, without and with
    [--wipe-bcache], and on a device with a foreign signature. *)
Lemma existing_superblock_guard_witness :
  (let r := run (write_sb (hdr := Linux.hdr) "/dev/sdb" Linux.sbc0 true false)
              (Linux.scenario_env Linux.formatted) [] 0 in
   outcome_of r = Exited EXIT_FAILURE /\
   existsb writes_device (events_of r) = false) /\
  (let r := run (write_sb (hdr := Linux.hdr) "/dev/sdb" Linux.sbc_wipe true
                   false) (Linux.scenario_env Linux.formatted) [] 0 in
   exists pre fd buf e1 w e2 post,
     events_of r =
       (pre
        ++ EvCall (c_pread fd 2264 4096) (2264, buf) e1
        :: EvCall (c_pwrite fd (repeat x00 4096) 2264 4096) w e2
        :: post)%list /\
     existsb writes_device pre = false) /\
  (let r := run (write_sb (hdr := Linux.hdr) "/dev/sdb" Linux.sbc_wipe true
                   true) (Linux.scenario_env Linux.foreign) [] 0 in
   outcome_of r = Exited EXIT_FAILURE).
Proof.
  split; [|split].
  - destruct (existing_superblock_guard (hdr := Linux.hdr) "/dev/sdb"
                Linux.sbc0 true false (Linux.scenario_env Linux.formatted)
                [] 0) as [H _].
    destruct H as [H _]; [vm_compute; reflexivity|].
    destruct H as (Ho & Hw & _); [reflexivity|reflexivity|].
    split; [exact Ho|exact Hw].
  - destruct (existing_superblock_guard (hdr := Linux.hdr) "/dev/sdb"
                Linux.sbc_wipe true false
                (Linux.scenario_env Linux.formatted) [] 0) as [H _].
    destruct H as [_ H]; [vm_compute; reflexivity|].
    apply H. left. reflexivity.
  - destruct (existing_superblock_guard (hdr := Linux.hdr) "/dev/sdb"
                Linux.sbc_wipe true true
                (Linux.scenario_env Linux.foreign) [] 0) as (_ & H & _).
    destruct H as [Ho _]; [vm_compute; reflexivity|]. exact Ho.
Defined.

(** C2 on a device of 2097152 sectors and on one of 100000 sectors, with
    buckets of 1024 sectors. *)
Lemma bucket_count_floor_witness :
  (let r := run (write_sb_format (hdr := Linux.hdr) "/dev/sdc" 3 Linux.sbc0
                   false) (Linux.scenario_env Linux.small) [] 0 in
   outcome_of r = Exited EXIT_FAILURE /\
   existsb writes_device (events_of r) = false) /\
  (exists sb e2 t2,
     run (write_sb_common (hdr := Linux.hdr) "/dev/sdc" Linux.sbc0 false 2048)
       (Linux.scenario_env Linux.blank)
       (events_of (run (getblocks 3) (Linux.scenario_env Linux.blank) [] 0))
       0
     = (Done sb, e2, t2) /\
     sb_nbuckets sb = 2048).
Proof.
  split.
  - destruct (bucket_count_floor (hdr := Linux.hdr) "/dev/sdc" 3 Linux.sbc0
                (Linux.scenario_env Linux.small) [] 0 100000 0
                (events_of (run (getblocks 3)
                              (Linux.scenario_env Linux.small) [] 0)))
      as [H _].
    + reflexivity.
    + apply linux_set_bucket_size_stores.
    + reflexivity.
    + vm_compute. reflexivity.
    + destruct H as (Ho & _ & Hw); [reflexivity|]. split; assumption.
  - destruct (bucket_count_floor (hdr := Linux.hdr) "/dev/sdc" 3 Linux.sbc0
                (Linux.scenario_env Linux.blank) [] 0 2097152 0
                (events_of (run (getblocks 3)
                              (Linux.scenario_env Linux.blank) [] 0)))
      as [_ H].
    + reflexivity.
    + apply linux_set_bucket_size_stores.
    + reflexivity.
    + vm_compute. reflexivity.
    + destruct H as (sb & e2 & t2 & Hrun & Hnb & _).
      * vm_compute. discriminate.
      * unfold label_fits. simpl. lia.
      * exists sb, e2, t2. split; [exact Hrun|exact Hnb].
Defined.

(** C6 on a zoned device with [--writeback]. *)
Lemma zoned_writeback_downgrade_witness :
  let r := run (write_sb_common (hdr := Linux.hdr) "/dev/sdb"
                  Linux.sbc_writeback_on true 0)
             (Linux.scenario_env Linux.zoned) [] 0 in
  exists sb,
    outcome_of r = Done sb /\
    BDEV_CACHE_MODE (hdr := Linux.hdr) sb = 0 /\
    In (zoned_notice "/dev/sdb") (events_of r).
Proof.
  destruct (zoned_writeback_downgrade (hdr := Linux.hdr) "/dev/sdb"
              Linux.sbc_writeback_on 0 (Linux.scenario_env Linux.zoned) [] 0)
    with (zoned := true) as (sb & Hd & Hm & Hn).
  - reflexivity.
  - apply linux_cache_mode_stored.
  - vm_compute. discriminate.
  - unfold label_fits. simpl. lia.
  - vm_compute. reflexivity.
  - exists sb. split; [exact Hd|]. split; [exact Hm|].
    apply Hn. split; reflexivity.
Defined.

(** C7 on a blank device with the default data offset of 16 sectors, and
    on two blank devices with a data offset of 32 sectors. *)
Lemma ioctl_registration_zero_data_offset_witness :
  (let r := run (make_bcache_backing_device (hdr := Linux.hdr) "/dev/sdb"
                   Linux.sbc0 true false)
              (Linux.scenario_env Linux.blank) [] 0 in
   List.length (registered (events_of r)) = 1%nat /\
   (forall cmd, In cmd (registered (events_of r)) ->
      sb_data_offset (cmd_sb cmd) = 0) /\
   nth 1 (events_of r) (EvOut (o_putchar zero)) = ioctl_offset_warning /\
   offset_warnings (events_of r) = 1%nat) /\
  (let t := events_of
              (run (make_bcache_backing_devices (hdr := Linux.hdr)
                      ["/dev/sdb"; "/dev/sdc"] Linux.sbc_offset32 true false)
                 (Linux.scenario_env Linux.blank) [] 0) in
   List.length (registered t) = 2%nat /\
   offset_checks t = [(32, Returns 32); (0, Returns 0)] /\
   offset_warnings t = 1%nat).
Proof.
  destruct (ioctl_registration_zero_data_offset (hdr := Linux.hdr) "/dev/sdb"
              Linux.sbc0 false (Linux.scenario_env Linux.blank) [] 0)
    as (Hreg & _ & Hwarn & _ & Hone & Hall).
  - reflexivity.
  - split.
    + split; [vm_compute; reflexivity|]. split; [exact Hreg|].
      split.
      * destruct (Hwarn 16) as (ev & e1 & _ & Hev); [vm_compute; reflexivity|].
        cbv zeta in Hev. rewrite Hev. reflexivity.
      * rewrite Hone. vm_compute. reflexivity.
    + destruct (Hall ["/dev/sdb"; "/dev/sdc"] Linux.sbc_offset32 [] 0)
        as [Hcount _].
      cbv zeta. split; [vm_compute; reflexivity|].
      split; [vm_compute; reflexivity|].
      rewrite Hcount. vm_compute. reflexivity.
Defined.

(** C7 as it is worded does not hold: on [--ioctl -o 32 -B /dev/sdb
    /dev/sdc], with a data offset of 32 sectors given on the command line,
    both devices are registered with a record whose data offset is 0 and
    the run returns 0, but the warning is printed once, in the turn of
    [/dev/sdb]: the turn of [/dev/sdc] finds the shared context already at
    zero, so that [/dev/sdc] is registered with no warning.  It is
    therefore not the case that every device registered from a context
    with a data offset other than zero is registered after a warning of
    its own. *)
Lemma second_device_registered_without_warning :
  (let r := run (make_bcache (hdr := Linux.hdr)
                   [opt_flag f_use_ioctl; opt (chr "o") "32";
                    opt (chr "B") ""; opt 1 "/dev/sdb"; opt 1 "/dev/sdc"])
              (Linux.scenario_env Linux.blank) [] 0 in
   outcome_of r = Done 0 /\
   map cmd_dev_name (registered (events_of r)) = ["/dev/sdb"; "/dev/sdc"] /\
   map (fun cmd => sb_data_offset (cmd_sb cmd)) (registered (events_of r))
   = [0; 0] /\
   offset_checks (events_of r) = [(32, Returns 32); (0, Returns 0)] /\
   offset_warnings (events_of r) = 1%nat /\
   map cmd_dev_name (registered (after_registration (events_of r)))
   = ["/dev/sdc"] /\
   offset_warnings (after_registration (events_of r)) = 0%nat /\
   each_registration_warned false (events_of r) = false) /\
  ~ (forall devices sbc force (E : env) h e,
       sbc_data_offset sbc <> 0 ->
       each_registration_warned false
         (events_of
            (run (make_bcache_backing_devices (hdr := Linux.hdr) devices sbc
                    true force) E h e)) = true).
Proof.
  split.
  - vm_compute. repeat split; reflexivity.
  - intros H.
    specialize (H ["/dev/sdb"; "/dev/sdc"] Linux.sbc_offset32 false
                  (Linux.scenario_env Linux.blank) [] 0).
    assert (Hf : each_registration_warned false
                   (events_of
                      (run (make_bcache_backing_devices (hdr := Linux.hdr)
                              ["/dev/sdb"; "/dev/sdc"] Linux.sbc_offset32
                              true false)
                         (Linux.scenario_env Linux.blank) [] 0)) = false)
      by (vm_compute; reflexivity).
    rewrite H in Hf; [discriminate Hf|]. vm_compute. discriminate.
Qed.

(** C8 with the default data offset and with an offset of 32 sectors. *)
Lemma backing_version_and_data_offset_witness :
  (exists sb,
     outcome_of (run (write_sb_common (hdr := Linux.hdr) "/dev/sdb"
                        Linux.sbc0 true 0)
                   (Linux.scenario_env Linux.blank) [] 0) = Done sb /\
     sb_version sb = 1 /\ sb_data_offset sb = 0) /\
  (exists sb,
     outcome_of (run (write_sb_common (hdr := Linux.hdr) "/dev/sdb"
                        Linux.sbc_offset32 true 0)
                   (Linux.scenario_env Linux.blank) [] 0) = Done sb /\
     sb_version sb = 4 /\ sb_data_offset sb = 32).
Proof.
  split.
  - destruct (backing_version_and_data_offset (hdr := Linux.hdr) "/dev/sdb"
                Linux.sbc0 0 (Linux.scenario_env Linux.blank) [] 0)
      as [Hall Hex]; [reflexivity|reflexivity|].
    destruct (Hex) with (zoned := false) as [sb Hsb];
      [unfold label_fits; simpl; lia|vm_compute; reflexivity|].
    exists sb. split; [exact Hsb|].
    destruct (Hall sb Hsb) as [_ H]. apply H. reflexivity.
  - destruct (backing_version_and_data_offset (hdr := Linux.hdr) "/dev/sdb"
                Linux.sbc_offset32 0 (Linux.scenario_env Linux.blank) [] 0)
      as [Hall Hex]; [reflexivity|reflexivity|].
    destruct (Hex) with (zoned := false) as [sb Hsb];
      [unfold label_fits; simpl; lia|vm_compute; reflexivity|].
    exists sb. split; [exact Hsb|].
    destruct (Hall sb Hsb) as [H _]. apply H. vm_compute. discriminate.
Defined.

(** C9 with buckets of 1024 sectors. *)
Lemma first_bucket_formula_witness :
  exists sb,
    outcome_of (run (write_sb_common (hdr := Linux.hdr) "/dev/sdc" Linux.sbc0
                       false 2048)
                  (Linux.scenario_env Linux.blank) [] 0) = Done sb /\
    sb_first_bucket sb = 1.
Proof.
  destruct (first_bucket_formula (hdr := Linux.hdr) "/dev/sdc" Linux.sbc0
              2048 (Linux.scenario_env Linux.blank) [] 0) as [_ H].
  - reflexivity.
  - apply linux_set_bucket_size_stores.
  - destruct H as (sb & Hd & Hf & _).
    + reflexivity.
    + vm_compute. discriminate.
    + unfold label_fits. simpl. lia.
    + exists sb. split; [exact Hd|]. rewrite Hf. reflexivity.
Defined.



(** * The further properties on concrete inputs *)

(** [read_string_list] on [" fifo "]. *)
Lemma read_string_list_index_witness :
  exists k,
    outcome_of (run (read_string_list " fifo " cache_replacement_policies)
                  (Linux.scenario_env Linux.blank) [] 0)
    = Done (Z.of_nat k) /\
    nth_error cache_replacement_policies k = Some "fifo".
Proof.
  destruct (read_string_list_index " fifo " cache_replacement_policies
              (Linux.scenario_env Linux.blank) [] 0) as (_ & _ & _ & H).
  destruct H as (k & Ho & Hn & _);
    [reflexivity|right; left; reflexivity|].
  exists k. split; [exact Ho|exact Hn].
Defined.

(** [--cache_replacement_policy=clock], and [--cache_replacement_policy=lru]
    when [strdup] fails. *)
Lemma replacement_policy_option_witness :
  (exists l',
     outcome_of
       (run (make_bcache_option (hdr := Linux.hdr) (opt (chr "p") "clock")
               (mk_locals (-1) [] [] "" 0 1024 false false false false false
                  0 16 []))
          (Linux.scenario_env Linux.blank) [] 0) = Done l' /\
     l_cache_replacement_policy l' = 4294967274) /\
  (exists l',
     outcome_of
       (run (make_bcache_option (hdr := Linux.hdr) (opt (chr "p") "lru")
               (mk_locals (-1) [] [] "" 0 1024 false false false false false
                  0 16 []))
          Linux.out_of_memory [] 0) = Done l' /\
     l_cache_replacement_policy l' = 4294967284).
Proof.
  split.
  - destruct (replacement_policy_option (hdr := Linux.hdr) "clock"
                (mk_locals (-1) [] [] "" 0 1024 false false false false false
                   0 16 [])
                (Linux.scenario_env Linux.blank) [] 0)
      as (l' & Ho & Hp & _).
    exists l'. split; [exact Ho|].
    destruct (Hp eq_refl) as (_ & _ & _ & Hq). apply Hq.
    intros [H|[H|[H|[]]]]; discriminate H.
  - destruct (replacement_policy_option (hdr := Linux.hdr) "lru"
                (mk_locals (-1) [] [] "" 0 1024 false false false false false
                   0 16 [])
                Linux.out_of_memory [] 0)
      as (l' & Ho & _ & Hp).
    exists l'. split; [exact Ho|]. exact (Hp eq_refl).
Defined.

(** [-b 4k]: eight sectors. *)
Lemma hatoi_validate_power_of_two_witness :
  outcome_of (run (hatoi_validate "4k" "bucket size" UINT_MAX)
                (Linux.scenario_env Linux.blank) [] 0) = Done (2 ^ 3).
Proof.
  destruct (hatoi_validate_power_of_two "4k" "bucket size" UINT_MAX
              (Linux.scenario_env Linux.blank) [] 0) as (_ & H & _).
  - unfold UINT_MAX. lia.
  - apply (H 3); [lia|vm_compute; discriminate|reflexivity].
Defined.

(** [-b k] *)
Lemma size_without_number_is_too_small_witness :
  outcome_of (run (hatoi_validate "k" "bucket size" UINT_MAX)
                (Linux.scenario_env Linux.blank) [] 0)
  = Exited EXIT_FAILURE.
Proof.
  rewrite (size_without_number_is_too_small "k" "bucket size" UINT_MAX
             (Linux.scenario_env Linux.blank) [] 0);
    [reflexivity|reflexivity|discriminate].
Defined.

(** [-b 4k -w 1k] *)
Lemma option_loop_sizes_witness :
  exists l,
    outcome_of (run (make_bcache_parse (hdr := Linux.hdr)
                       [opt (chr "b") "4k"; opt (chr "w") "1k"])
                  (Linux.scenario_env Linux.blank) [] 0) = Done l /\
    power_of_two (l_bucket_size l) /\ l_bucket_size l <= UINT_MAX /\
    (l_block_size l = 0 \/
     power_of_two (l_block_size l) /\ l_block_size l <= USHRT_MAX).
Proof.
  assert (H : exists l,
            outcome_of (run (make_bcache_parse (hdr := Linux.hdr)
                               [opt (chr "b") "4k"; opt (chr "w") "1k"])
                          (Linux.scenario_env Linux.blank) [] 0) = Done l)
    by (vm_compute; eexists; reflexivity).
  destruct H as [l H]. exists l. split; [exact H|].
  exact (option_loop_sizes (hdr := Linux.hdr)
           [opt (chr "b") "4k"; opt (chr "w") "1k"]
           (Linux.scenario_env Linux.blank) [] 0 l H).
Defined.

(** [-l fast] *)
Lemma option_loop_label_witness :
  exists l,
    outcome_of (run (make_bcache_parse (hdr := Linux.hdr)
                       [opt (chr "l") "fast"])
                  (Linux.scenario_env Linux.blank) [] 0) = Done l /\
    Z.of_nat (String.length (l_label l)) < 32.
Proof.
  assert (H : exists l,
            outcome_of (run (make_bcache_parse (hdr := Linux.hdr)
                               [opt (chr "l") "fast"])
                          (Linux.scenario_env Linux.blank) [] 0) = Done l)
    by (vm_compute; eexists; reflexivity).
  destruct H as [l H]. exists l. split; [exact H|].
  apply (option_loop_label (hdr := Linux.hdr) [opt (chr "l") "fast"]
           (Linux.scenario_env Linux.blank) [] 0 l); [reflexivity|].
  exact H.
Defined.

(** [-o 32] *)
Lemma option_loop_data_offset_witness :
  exists l,
    outcome_of (run (make_bcache_parse (hdr := Linux.hdr)
                       [opt (chr "o") "32"])
                  (Linux.scenario_env Linux.blank) [] 0) = Done l /\
    16 <= l_data_offset l < 2 ^ 64.
Proof.
  assert (H : exists l,
            outcome_of (run (make_bcache_parse (hdr := Linux.hdr)
                               [opt (chr "o") "32"])
                          (Linux.scenario_env Linux.blank) [] 0) = Done l)
    by (vm_compute; eexists; reflexivity).
  destruct H as [l H]. exists l. split; [exact H|].
  apply (option_loop_data_offset (hdr := Linux.hdr) [opt (chr "o") "32"]
           (Linux.scenario_env Linux.blank) [] 0 l);
    [split; [discriminate|reflexivity]|].
  exact H.
Defined.

(** [make-bcache -C /dev/sdc] on a blank device. *)
Lemma make_bcache_never_faults_witness :
  outcome_of (run (make_bcache (hdr := Linux.hdr)
                     [opt (chr "C") ""; opt 1 "/dev/sdc"])
                (Linux.scenario_env Linux.blank) [] 0) <> Faulted.
Proof.
  apply (make_bcache_never_faults (hdr := Linux.hdr)).
  - reflexivity.
  - intros b Hb. split.
    + intros sb. reflexivity.
    + intros sb. cbn. lia.
Defined.

(** The label [fast] of a backing device. *)
Lemma write_sb_common_stores_label_witness :
  exists sb,
    outcome_of
      (run (write_sb_common (hdr := Linux.hdr) "/dev/sdb"
              (mk_sb_context 1 1024 false false false 0 16 (repeat x07 16)
                 "fast") true 2048)
         (Linux.scenario_env Linux.blank) [] 0) = Done sb /\
    sb_label sb
    = (list_ascii_of_string "fast" ++ repeat zero 28)%list.
Proof.
  assert (H : exists sb,
            outcome_of
              (run (write_sb_common (hdr := Linux.hdr) "/dev/sdb"
                      (mk_sb_context 1 1024 false false false 0 16
                         (repeat x07 16) "fast") true 2048)
                 (Linux.scenario_env Linux.blank) [] 0) = Done sb)
    by (vm_compute; eexists; reflexivity).
  destruct H as [sb H]. exists sb. split; [exact H|].
  destruct (write_sb_common_stores_label (hdr := Linux.hdr) "/dev/sdb"
              (mk_sb_context 1 1024 false false false 0 16 (repeat x07 16)
                 "fast") true 2048 (Linux.scenario_env Linux.blank) [] 0 sb
              (fun sb0 => eq_refl) H) as (_ & Hl & _).
  exact Hl.
Defined.

(** Discarding a blank device of 1 GiB. *)
Lemma blkdiscard_all_within_device_witness :
  exists size,
    device_bytes
      (events_of (run (blkdiscard_all "/dev/sdc" 3)
                    (Linux.scenario_env Linux.blank) [] 0)) = Some size /\
    0 <= 1073741824 <= size.
Proof.
  destruct (blkdiscard_all_within_device "/dev/sdc" 3
              (Linux.scenario_env Linux.blank) [] 0) as (_ & H & _).
  destruct (H 0 1073741824) as (_ & _ & Hs); [left; reflexivity|].
  exact Hs.
Defined.

(** A device the driver holds, without [--force]. *)
Lemma busy_device_needs_force_witness :
  run (write_sb (hdr := Linux.hdr) "/dev/sdb" Linux.sbc0 true false)
    (Linux.scenario_env Linux.held) [] 0
  = (Exited EXIT_FAILURE, 16,
     [EvCall (c_open "/dev/sdb" [O_RDWR; O_EXCL]) (-1) 16;
      cannot_open "/dev/sdb" 16]).
Proof.
  apply (proj2 (busy_device_needs_force (hdr := Linux.hdr) "/dev/sdb"
                  Linux.sbc0 true (Linux.scenario_env Linux.held) [] 0)
           false 16).
  - reflexivity.
  - left. reflexivity.
Defined.

(** A cache device formatted without [--discard]. *)
Lemma discard_only_for_cache_devices_witness :
  discards
    (events_of (run (write_sb (hdr := Linux.hdr) "/dev/sdc" Linux.sbc0 false
                       false) (Linux.scenario_env Linux.blank) [] 0)) = [].
Proof.
  apply (discard_only_for_cache_devices (hdr := Linux.hdr)).
  left. reflexivity.
Defined.

(** Putting an empty superblock on a blank device, without [--discard]. *)
Lemma write_sb_put_order_witness :
  exists pre rest,
    events_of (run (write_sb_put (hdr := Linux.hdr) "/dev/sdc" 3 Linux.sbc0
                      (zero_cache_sb (hdr := Linux.hdr)))
                 (Linux.scenario_env Linux.blank) [] 0)
    = (pre ++ rest)%list /\ pre = [].
Proof.
  destruct (write_sb_put_order (hdr := Linux.hdr) "/dev/sdc" 3 Linux.sbc0
              (zero_cache_sb (hdr := Linux.hdr))
              (Linux.scenario_env Linux.blank) [] 0)
    as (pre & rest & He & _ & Hn & _).
  exists pre, rest. split; [exact He|]. apply Hn. right. reflexivity.
Defined.

(** [make-bcache --ioctl -B /dev/sdb] *)
Lemma registration_follows_command_line_witness :
  map cmd_dev_name
    (registered
       (events_of
          (run (make_bcache_devices (hdr := Linux.hdr)
                  (mk_locals 1 [] ["/dev/sdb"] "" 0 1024 false false false
                     false true 0 16 (repeat x07 16)))
             (Linux.scenario_env Linux.blank) [] 0)))
  = ["/dev/sdb"].
Proof.
  destruct (registration_follows_command_line (hdr := Linux.hdr)
              (mk_locals 1 [] ["/dev/sdb"] "" 0 1024 false false false
                 false true 0 16 (repeat x07 16))
              (Linux.scenario_env Linux.blank) [] 0) as (_ & H & _).
  apply H. vm_compute. reflexivity.
Defined.

(** A label of forty characters after the device. *)
Lemma refused_command_line_touches_nothing_witness :
  let r := run (make_bcache (hdr := Linux.hdr)
                  [opt (chr "C") ""; opt 1 "/dev/sdc";
                   opt (chr "l") "0123456789012345678901234567890123456789"])
             (Linux.scenario_env Linux.blank) [] 0 in
  outcome_of r = Exited EXIT_FAILURE /\
  existsb touches_device (events_of r) = false.
Proof.
  apply (refused_command_line_touches_nothing (hdr := Linux.hdr)).
  reflexivity.
Defined.

(** [make-bcache --force] *)
Lemma no_device_is_fatal_witness :
  outcome_of (run (make_bcache (hdr := Linux.hdr) [opt_flag f_force])
                (Linux.scenario_env Linux.blank) [] 0)
  = Exited EXIT_FAILURE.
Proof.
  destruct (no_device_is_fatal (hdr := Linux.hdr) [opt_flag f_force]
              (Linux.scenario_env Linux.blank) [] 0) as (H & _).
  - reflexivity.
  - exact H.
Defined.

(** Two backing devices, with the default data offset. *)
Lemma data_offset_carries_over_witness :
  chained 16
    (offset_checks
       (events_of
          (run (make_bcache_backing_devices (hdr := Linux.hdr)
                  ["/dev/sdb"; "/dev/sdd"] Linux.sbc0 false false)
             (Linux.scenario_env Linux.blank) [] 0))).
Proof.
  exact (proj1 (data_offset_carries_over (hdr := Linux.hdr) "/dev/sdb"
                  ["/dev/sdd"] Linux.sbc0 false
                  (Linux.scenario_env Linux.blank) [] 0)).
Defined.

(** Formatting a blank backing device. *)
Lemma checks_come_before_writes_witness :
  let t := events_of (run (write_sb (hdr := Linux.hdr) "/dev/sdb" Linux.sbc0
                             true false)
                        (Linux.scenario_env Linux.blank) [] 0) in
  existsb (full_read (hdr := Linux.hdr)) t = true /\
  existsb probe_passed t = true /\
  existsb probe_finds_signature t = false.
Proof.
  apply (checks_come_before_writes (hdr := Linux.hdr) "/dev/sdb" Linux.sbc0
           true false (Linux.scenario_env Linux.blank) [] 0).
  - intros H. discriminate H.
  - vm_compute. reflexivity.
Defined.

(** [-l a -l b --force] *)
Lemma last_option_counts_witness :
  exists l,
    outcome_of (run (make_bcache_parse (hdr := Linux.hdr)
                       [opt (chr "l") "a"; opt (chr "l") "b";
                        opt_flag f_force])
                  (Linux.scenario_env Linux.blank) [] 0) = Done l /\
    option_values l = ("b", 16, 1024, 0, (false, false, false, true, false)).
Proof.
  assert (H : exists l,
            outcome_of (run (make_bcache_parse (hdr := Linux.hdr)
                               [opt (chr "l") "a"; opt (chr "l") "b";
                                opt_flag f_force])
                          (Linux.scenario_env Linux.blank) [] 0) = Done l)
    by (vm_compute; eexists; reflexivity).
  destruct H as [l H]. exists l. split; [exact H|].
  exact (last_option_counts (hdr := Linux.hdr)
           [opt (chr "l") "a"; opt (chr "l") "b"; opt_flag f_force]
           (Linux.scenario_env Linux.blank) [] 0 l H).
Defined.

(** A backing device the driver lets go of at the second retry. *)
Lemma forced_release_follows_type_witness :
  exists type cset e2 c (r : reply c) e3 post,
    events_of (run (write_sb_open (hdr := Linux.hdr) "/dev/sdb" true)
                 (Linux.scenario_env Linux.released) [] 0)
    = EvCall (c_open "/dev/sdb" [O_RDWR; O_EXCL]) (-1) 16
      :: EvCall (c_detail_dev "/dev/sdb") (Returns (0, type, cset)) e2
      :: EvCall c r e3 :: post /\
    existsb releases post = false.
Proof.
  destruct (forced_release_follows_type (hdr := Linux.hdr) "/dev/sdb" true
              (Linux.scenario_env Linux.released) [] 0)
    as (_ & type & cset & e2 & c & r & e3 & post & He & _ & Hp).
  - vm_compute. reflexivity.
  - exists type, cset, e2, c, r, e3, post. split; [exact He|exact Hp].
Defined.

(** Two devices with 4096-byte logical blocks. *)
Lemma derived_block_size_is_largest_witness :
  exists b',
    outcome_of (run (make_bcache_block_size ["/dev/sdc"; "/dev/sdd"] 0)
                  (Linux.scenario_env Linux.blank_4k) [] 0) = Done b' /\
    0 <= b'.
Proof.
  assert (H : exists b',
            outcome_of (run (make_bcache_block_size ["/dev/sdc"; "/dev/sdd"] 0)
                          (Linux.scenario_env Linux.blank_4k) [] 0) = Done b')
    by (vm_compute; eexists; reflexivity).
  destruct H as [b' H]. exists b'. split; [exact H|].
  exact (proj1 (proj2 (derived_block_size_is_largest
                         ["/dev/sdc"; "/dev/sdd"] 0
                         (Linux.scenario_env Linux.blank_4k) [] 0 b' H))).
Defined.

(** The [fsync] of a run that formats a blank backing device. *)
Lemma write_sb_uses_last_descriptor_witness :
  last_open
    (events_of (run (write_sb (hdr := Linux.hdr) "/dev/sdb" Linux.sbc0 true
                       false) (Linux.scenario_env Linux.blank) [] 0))
  = Some 3.
Proof.
  apply (write_sb_uses_last_descriptor (hdr := Linux.hdr) "/dev/sdb"
           Linux.sbc0 true false (Linux.scenario_env Linux.blank) [] 0
           (c_fsync 3) 0 0 3).
  - vm_compute. repeat (first [left; reflexivity | right]).
  - reflexivity.
Defined.
